(** * server_monitor_script: the aggregation and rollup engine of [scripts/monitor.py]

    A shallow embedding of the [Monitor] class (the per-second accumulator,
    the record merge, the hourly/daily/monthly rollups and the query
    functions), of the sampling loop of [main.py] and of the HTTP handler of
    [scripts/server.py], together with the properties stated for them.

    Modelling conventions.
    - A Python [float] is an exact rational ([Q]); [==] on floats is [Qeq].
      The statements about the [Monitor] are statements in exact arithmetic:
      the rounding error of binary64 sums and quotients is outside this
      model.  Module [Binary64] evaluates the arithmetic lines with the
      floats themselves, where the rounding matters to a property.
      [float("inf")] and [float("-inf")] are the two extra points of [xQ].
    - [round(x, 2)] is rounding to the nearest hundredth, ties to even.
    - A raised exception is [Raise e]; a method that mutates [self] or the
      series files is a state transformer that returns the state reached
      together with its result, so what was assigned or written before an
      exception stays visible.
    - A series file is [None] when it does not exist and [Some l] when it
      holds the JSON array [l].  [push_to_file] and the rollups read a file
      inside [try]/[except], so a file that cannot be decoded is to them what
      a missing file is; the queries test [os.path.exists] and then decode,
      and the [json] error an existing file that cannot be decoded raises
      there is outside this model.
    - The clock and [psutil] are inputs: see [Os] and [Psutil]. *)

From Stdlib Require Import String Ascii.
From Stdlib Require Import ZArith QArith Qround List Bool Arith.
From Stdlib Require Import Lia Lqa Permutation Morphisms.
From Stdlib Require Import Sorted.
From Stdlib Require OrderedTypeEx.
From Stdlib Require PrimFloat FloatOps SpecFloat Uint63.
Import ListNotations.

Local Open Scope Q_scope.
Local Open Scope list_scope.

(** ** Exceptions and results *)

Inductive exn : Type :=
| ZeroDivisionError
| IndexError
| ValueError
| FileNotFoundError
| ClientException (msg : string).

Inductive result (A : Type) : Type :=
| Ok (a : A)
| Raise (e : exn).
Arguments Ok {A} a.
Arguments Raise {A} e.

Definition rbind {A B} (r : result A) (k : A -> result B) : result B :=
  match r with
  | Ok a => k a
  | Raise e => Raise e
  end.

(** A method acting on a state [St]. *)
Definition M (St A : Type) : Type := St -> St * result A.

Definition ret {St A} (a : A) : M St A := fun s => (s, Ok a).
Definition raise {St A} (e : exn) : M St A := fun s => (s, Raise e).
Definition bind {St A B} (m : M St A) (k : A -> M St B) : M St B :=
  fun s => match m s with
           | (s', Ok a) => k a s'
           | (s', Raise e) => (s', Raise e)
           end.
Definition get {St} : M St St := fun s => (s, Ok s).
Definition modify {St} (f : St -> St) : M St unit := fun s => (f s, Ok tt).
Definition lift {St A} (r : result A) : M St A := fun s => (s, r).

Declare Scope py_scope.
Delimit Scope py_scope with py.
Notation "x <- c ;; k" := (bind c (fun x => k))
  (at level 100, c at next level, right associativity) : py_scope.
Notation "c ;; k" := (bind c (fun _ => k))
  (at level 100, right associativity) : py_scope.
Notation "x <~ c ;; k" := (rbind c (fun x => k))
  (at level 100, c at next level, right associativity) : py_scope.

(** [for x in l: body x], stopping at the first exception. *)
Fixpoint for_each {St A} (l : list A) (body : A -> M St unit) : M St unit :=
  match l with
  | [] => ret tt
  | x :: l' => bind (body x) (fun _ => for_each l' body)
  end.

(** A list comprehension whose element expression can raise. *)
Fixpoint comprehension {A B} (f : A -> result B) (l : list A) : result (list B) :=
  match l with
  | [] => Ok []
  | x :: l' => rbind (f x) (fun y => rbind (comprehension f l') (fun ys => Ok (y :: ys)))
  end.

(** [l[i]] *)
Definition getitem {A} (l : list A) (i : nat) : result A :=
  match nth_error l i with
  | Some a => Ok a
  | None => Raise IndexError
  end.

(** ** Numbers *)

Inductive xQ : Type :=
| NegInf
| Fin (q : Q)
| PosInf.

Definition Qltb (a b : Q) : bool := negb (Qle_bool b a).

Definition xltb (a b : xQ) : bool :=
  match a, b with
  | NegInf, NegInf => false
  | NegInf, _ => true
  | Fin _, NegInf => false
  | Fin x, Fin y => Qltb x y
  | Fin _, PosInf => true
  | PosInf, _ => false
  end.

(** [min(a, b)] and [max(a, b)]: the second argument wins only when it is
    strictly smaller (larger). *)
Definition py_min (a b : xQ) : xQ := if xltb b a then b else a.
Definition py_max (a b : xQ) : xQ := if xltb a b then b else a.
Definition py_maxQ (a b : Q) : Q := if Qltb a b then b else a.

(** [a / b] *)
Definition truediv (a b : Q) : result Q :=
  if Qeq_bool b 0 then Raise ZeroDivisionError else Ok (a / b).

(** [sum(l)] *)
Definition sum (l : list Q) : Q := fold_left Qplus l 0.

Definition of_nat (n : nat) : Q := inject_Z (Z.of_nat n).

Definition round_half_even (q : Q) : Z :=
  let f := Qfloor q in
  match Qcompare (q - inject_Z f) (1 # 2) with
  | Lt => f
  | Gt => (f + 1)%Z
  | Eq => if Z.even f then f else (f + 1)%Z
  end.

(** [round(q, 2)] *)
Definition round2 (q : Q) : Q := round_half_even (q * 100) # 100.

Definition round2x (x : xQ) : xQ :=
  match x with
  | Fin q => Fin (round2 q)
  | _ => x
  end.

(** ** config.py *)

Module config.
Definition max1h_record_length : nat := 168.
Definition max1d_record_length : nat := 30.
Definition max1month_record_length : nat := 12.
End config.

(** ** Records *)

Module Disk.
Record t : Type := mk { total : Q; used : Q; unit : string }.
End Disk.

Module Bandwidth.
Record t : Type := mk { unit : string; transfer_total : Q }.
End Bandwidth.

(** The dictionary built by [get_and_update_current_stats]. *)
Module Snapshot.
Record ram_t : Type := mk_ram { total : Q; used : Q; unit : string }.
Record t : Type := mk
  { datetime : string;
    cpu : list Q;
    ram : ram_t;
    disk : Disk.t;
    bandwidth : Bandwidth.t }.
End Snapshot.

Module Cpu.
Record t : Type := mk { cpu_per_core_avg : list Q; cpu_total_avg : Q }.
End Cpu.

Module Ram.
Record t : Type := mk
  { unit : string; avg_used : Q; min_used : xQ; max_used : xQ; total : Q }.
End Ram.

(** One element of a series file. *)
Record AggregateRecord : Type := mkRecord
  { datetime : string;
    cpu : Cpu.t;
    ram : Ram.t;
    disk : Disk.t;
    bandwidth : Bandwidth.t }.

(** ** The accumulator: the attributes of [Monitor] *)

Record Monitor : Type := mkMonitor
  { cpu_per_core_avg : list Q;
    cpu_total_avg : Q;
    ram_avg : Q;
    ram_min : xQ;
    ram_max : Q;
    bandwidth_total : Q;
    disk_used : Q;
    disk_total : Q;
    sample_count : nat }.

(** [Monitor.__init__] *)
Definition init : Monitor :=
  {| cpu_per_core_avg := [];
     cpu_total_avg := 0;
     ram_avg := 0;
     ram_min := PosInf;
     ram_max := 0;
     bandwidth_total := 0;
     disk_used := 0;
     disk_total := 0;
     sample_count := 0 |}.

Definition set_cpu_per_core_avg (v : list Q) (s : Monitor) : Monitor :=
  mkMonitor v (cpu_total_avg s) (ram_avg s) (ram_min s) (ram_max s)
            (bandwidth_total s) (disk_used s) (disk_total s) (sample_count s).
Definition set_cpu_total_avg (v : Q) (s : Monitor) : Monitor :=
  mkMonitor (cpu_per_core_avg s) v (ram_avg s) (ram_min s) (ram_max s)
            (bandwidth_total s) (disk_used s) (disk_total s) (sample_count s).
Definition set_ram_avg (v : Q) (s : Monitor) : Monitor :=
  mkMonitor (cpu_per_core_avg s) (cpu_total_avg s) v (ram_min s) (ram_max s)
            (bandwidth_total s) (disk_used s) (disk_total s) (sample_count s).
Definition set_ram_min (v : xQ) (s : Monitor) : Monitor :=
  mkMonitor (cpu_per_core_avg s) (cpu_total_avg s) (ram_avg s) v (ram_max s)
            (bandwidth_total s) (disk_used s) (disk_total s) (sample_count s).
Definition set_ram_max (v : Q) (s : Monitor) : Monitor :=
  mkMonitor (cpu_per_core_avg s) (cpu_total_avg s) (ram_avg s) (ram_min s) v
            (bandwidth_total s) (disk_used s) (disk_total s) (sample_count s).
Definition set_bandwidth_total (v : Q) (s : Monitor) : Monitor :=
  mkMonitor (cpu_per_core_avg s) (cpu_total_avg s) (ram_avg s) (ram_min s) (ram_max s)
            v (disk_used s) (disk_total s) (sample_count s).
Definition set_disk_used (v : Q) (s : Monitor) : Monitor :=
  mkMonitor (cpu_per_core_avg s) (cpu_total_avg s) (ram_avg s) (ram_min s) (ram_max s)
            (bandwidth_total s) v (disk_total s) (sample_count s).
Definition set_disk_total (v : Q) (s : Monitor) : Monitor :=
  mkMonitor (cpu_per_core_avg s) (cpu_total_avg s) (ram_avg s) (ram_min s) (ram_max s)
            (bandwidth_total s) (disk_used s) v (sample_count s).
Definition set_sample_count (v : nat) (s : Monitor) : Monitor :=
  mkMonitor (cpu_per_core_avg s) (cpu_total_avg s) (ram_avg s) (ram_min s) (ram_max s)
            (bandwidth_total s) (disk_used s) (disk_total s) v.

(** Truth value of a float: [not x] holds exactly for zero. *)
Definition falsy (x : Q) : bool := Qeq_bool x 0.

(** [Monitor.update_current_stats] *)
Definition update_current_stats (current_stats : Snapshot.t) : M Monitor unit :=
  (let cpu := Snapshot.cpu current_stats in
   let ram_used := Snapshot.used (Snapshot.ram current_stats) in
   self <- get ;;
   new_avg <- lift
     match cpu_per_core_avg self with
     | [] => Ok cpu
     | _ :: _ =>
         comprehension
           (fun i =>
              (a <~ getitem (cpu_per_core_avg self) i ;;
               c <~ getitem cpu i ;;
               truediv (a * of_nat (sample_count self) + c)
                       (of_nat (sample_count self + 1)))%py)
           (seq 0 (length cpu))
     end ;;
   modify (set_cpu_per_core_avg new_avg) ;;
   self <- get ;;
   let total_core := length (cpu_per_core_avg self) in
   total_avg <- lift (truediv (sum (cpu_per_core_avg self)) (of_nat total_core)) ;;
   modify (set_cpu_total_avg total_avg) ;;
   self <- get ;;
   new_ram_avg <- lift
     (if falsy (ram_avg self) then Ok ram_used
      else truediv (ram_avg self * of_nat (sample_count self) + ram_used)
                   (of_nat (sample_count self + 1))) ;;
   modify (set_ram_avg new_ram_avg) ;;
   modify (fun self => set_ram_min (py_min (ram_min self) (Fin ram_used)) self) ;;
   modify (fun self => set_ram_max (py_maxQ (ram_max self) ram_used) self) ;;
   modify (fun self =>
             set_bandwidth_total
               (bandwidth_total self
                + Bandwidth.transfer_total (Snapshot.bandwidth current_stats)) self) ;;
   modify (set_disk_used (Disk.used (Snapshot.disk current_stats))) ;;
   modify (set_disk_total (Disk.total (Snapshot.disk current_stats))) ;;
   modify (fun self => set_sample_count (sample_count self + 1) self))%py.

(** ** [Monitor.get_and_update_current_stats]

    What one call reads from the clock and from [psutil]: the byte counts
    of [virtual_memory()], [disk_usage('/')] and [net_io_counters()] are
    integers, the percentages of [cpu_percent(percpu=True)] are floats. *)
Module Psutil.
Record snetio : Type := mk_net { bytes_sent : Z; bytes_recv : Z }.
Record t : Type := mk
  { now_isoformat : string;
    ram_total : Z;
    ram_available : Z;
    disk_usage_total : Z;
    disk_usage_used : Z;
    net_io_counters : snetio;
    cpu_percent : list Q }.
End Psutil.

(** The accumulator together with the attribute [last_net]. *)
Record Sampler : Type := mkSampler
  { monitor : Monitor;
    last_net : Psutil.snetio }.

(** The dictionary [snapshot], built from the readings and [self.last_net]. *)
Definition snapshot (last : Psutil.snetio) (p : Psutil.t) : Snapshot.t :=
  let net := Psutil.net_io_counters p in
  let bw_bytes :=
    ((Psutil.bytes_sent net - Psutil.bytes_sent last)
     + (Psutil.bytes_recv net - Psutil.bytes_recv last))%Z in
  let bw_mb := inject_Z bw_bytes / (1024 * 1024) in
  {| Snapshot.datetime := Psutil.now_isoformat p;
     Snapshot.cpu := map round2 (Psutil.cpu_percent p);
     Snapshot.ram :=
       {| Snapshot.total := round2 (inject_Z (Psutil.ram_total p) / (1024 * 1024 * 1024));
          Snapshot.used :=
            round2 (inject_Z (Psutil.ram_total p - Psutil.ram_available p)
                    / (1024 * 1024 * 1024));
          Snapshot.unit := "GB" |};
     Snapshot.disk :=
       {| Disk.total := round2 (inject_Z (Psutil.disk_usage_total p) / (1024 * 1024 * 1024));
          Disk.used := round2 (inject_Z (Psutil.disk_usage_used p) / (1024 * 1024 * 1024));
          Disk.unit := "GB" |};
     Snapshot.bandwidth :=
       {| Bandwidth.unit := "MB"; Bandwidth.transfer_total := round2 bw_mb |} |}.

(** [self.last_net = net] comes before the call of [update_current_stats],
    so it is kept when that call raises. *)
Definition get_and_update_current_stats (p : Psutil.t) : M Sampler Snapshot.t :=
  fun st =>
    let snap := snapshot (last_net st) p in
    match update_current_stats snap (monitor st) with
    | (m, r) => (mkSampler m (Psutil.net_io_counters p), (_ <~ r ;; Ok snap)%py)
    end.

(** The first iterations of [monitor_sampling_loop] (main.py), one per
    reading; an exception ends the task. *)
Definition monitor_sampling_loop (readings : list Psutil.t) : M Sampler unit :=
  for_each readings (fun p => (_ <- get_and_update_current_stats p ;; ret tt)%py).

(** What the operating system supplies to [get_and_reset_stats]:
    [datetime.datetime.now(datetime.timezone.utc).isoformat()] and
    [psutil.virtual_memory().total]. *)
Record Os : Type := mkOs
  { utcnow_isoformat : string;
    virtual_memory_total : Q }.

(** The dictionary [res] of [get_and_reset_stats]. *)
Definition finalize (os : Os) (self : Monitor) : AggregateRecord :=
  {| datetime := utcnow_isoformat os;
     cpu := {| Cpu.cpu_per_core_avg := map round2 (cpu_per_core_avg self);
               Cpu.cpu_total_avg := round2 (cpu_total_avg self) |};
     ram := {| Ram.unit := "GB"%string;
               Ram.min_used := round2x (ram_min self);
               Ram.max_used := Fin (round2 (ram_max self));
               Ram.avg_used := round2 (ram_avg self);
               Ram.total := round2 (virtual_memory_total os / (1024 * 1024 * 1024)) |};
     disk := {| Disk.unit := "GB"%string;
                Disk.used := round2 (disk_used self);
                Disk.total := round2 (disk_total self) |};
     bandwidth := {| Bandwidth.unit := "MB"%string;
                     Bandwidth.transfer_total := round2 (bandwidth_total self) |} |}.

(** [Monitor.get_and_reset_stats] *)
Definition get_and_reset_stats (os : Os) : M Monitor (option AggregateRecord) :=
  (self <- get ;;
   if Nat.eqb (sample_count self) 0 then ret None
   else
     let res := finalize os self in
     modify (set_cpu_per_core_avg []) ;;
     modify (set_cpu_total_avg 0) ;;
     modify (set_ram_avg 0) ;;
     modify (set_ram_min PosInf) ;;
     modify (set_ram_max 0) ;;
     modify (set_bandwidth_total 0) ;;
     modify (set_disk_used 0) ;;
     modify (set_disk_total 0) ;;
     modify (set_sample_count 0) ;;
     ret (Some res))%py.

(** ** Timestamps

    The part of [datetime.datetime.fromisoformat] and [strftime] the program
    relies on.  A string parses when it starts with a calendar date
    [YYYY-MM-DD] that is either the whole string or is followed by one
    separator character and a two-digit hour; what follows the hour
    (minutes, seconds, fraction, offset) is kept unparsed in [rest].  A
    reduced date such as [YYYY-MM] does not parse.  [%Y] is written with
    four digits.

    The model and Python agree on the strings the program itself writes:
    [isoformat()] of an aware UTC datetime, [%Y-%m-%d] dates and [%Y-%m]
    months, for years from 1000 on.  Elsewhere they can differ: the model
    does not check what follows the hour (Python rejects a minute of 99 or
    trailing text), it knows the extended format only (Python 3.11 also
    reads [YYYYMMDD]), and the C library does not pad [%Y] for years below
    1000.  The properties use [fromisoformat] through its result, so a
    hypothesis that a datetime parses, or does not, is to be read as the
    outcome of the Python call. *)

Module DateTime.

Record t : Type := mk
  { year : nat; month : nat; day : nat; hour : nat; rest : string }.

Definition digit (c : ascii) : option nat :=
  let n := nat_of_ascii c in
  if ((48 <=? n) && (n <=? 57))%nat then Some (n - 48)%nat else None.

Fixpoint digits (k : nat) (s : string) (acc : nat) : option (nat * string) :=
  match k with
  | O => Some (acc, s)
  | S k' =>
      match s with
      | EmptyString => None
      | String c s' =>
          match digit c with
          | Some d => digits k' s' (10 * acc + d)%nat
          | None => None
          end
      end
  end.

Definition expect (c : ascii) (s : string) : option string :=
  match s with
  | String c' s' => if Ascii.eqb c c' then Some s' else None
  | EmptyString => None
  end.

Definition is_leap (y : nat) : bool :=
  (((y mod 4 =? 0) && negb (y mod 100 =? 0)) || (y mod 400 =? 0))%nat.

Definition days_in_month (y m : nat) : nat :=
  match m with
  | 2 => if is_leap y then 29 else 28
  | 4 | 6 | 9 | 11 => 30
  | _ => 31
  end%nat.

Definition parse (s : string) : option t :=
  match digits 4 s 0 with
  | None => None
  | Some (y, s1) =>
  match expect "-" s1 with
  | None => None
  | Some s2 =>
  match digits 2 s2 0 with
  | None => None
  | Some (m, s3) =>
  match expect "-" s3 with
  | None => None
  | Some s4 =>
  match digits 2 s4 0 with
  | None => None
  | Some (d, s5) =>
      if ((1 <=? y) && (1 <=? m) && (m <=? 12) && (1 <=? d)
          && (d <=? days_in_month y m))%nat
      then
        match s5 with
        | EmptyString => Some (mk y m d 0 EmptyString)
        | String _ s6 =>
            match digits 2 s6 0 with
            | Some (h, s7) => if (h <? 24)%nat then Some (mk y m d h s7) else None
            | None => None
            end
        end
      else None
  end end end end end.

Definition fromisoformat (s : string) : result t :=
  match parse s with
  | Some dt => Ok dt
  | None => Raise ValueError
  end.

Definition digit_char (n : nat) : ascii := ascii_of_nat (48 + n mod 10).

Definition pad2 (n : nat) : string :=
  String (digit_char (n / 10)) (String (digit_char n) EmptyString).

Definition pad4 (n : nat) : string :=
  String (digit_char (n / 1000))
    (String (digit_char (n / 100)) (pad2 n)).

(** [dt.date()] *)
Definition date (dt : t) : nat * nat * nat := (year dt, month dt, day dt).

Definition date_eqb (a b : nat * nat * nat) : bool :=
  match a, b with
  | (y, m, d), (y', m', d') => ((y =? y') && (m =? m') && (d =? d'))%nat
  end.

(** [dt.date().strftime('%Y-%m-%d')] *)
Definition strftime_Ymd (dt : t) : string :=
  (pad4 (year dt) ++ "-" ++ pad2 (month dt) ++ "-" ++ pad2 (day dt))%string.

(** [dt.strftime('%Y-%m')] *)
Definition strftime_Ym (dt : t) : string :=
  (pad4 (year dt) ++ "-" ++ pad2 (month dt))%string.

End DateTime.

(** ** List and dictionary operations of the rollups *)

(** A loop whose body updates a local value and can raise. *)
Fixpoint rfold {A B} (f : A -> B -> result A) (l : list B) (a : A) : result A :=
  match l with
  | [] => Ok a
  | x :: l' => rbind (f a x) (fun a' => rfold f l' a')
  end.

Fixpoint enumerate_from {A} (i : nat) (l : list A) : list (nat * A) :=
  match l with
  | [] => []
  | x :: l' => (i, x) :: enumerate_from (S i) l'
  end.

(** [enumerate(l)] *)
Definition enumerate {A} (l : list A) : list (nat * A) := enumerate_from 0 l.

(** [l[i] = v] *)
Definition setitem {A} (l : list A) (i : nat) (v : A) : result (list A) :=
  match nth_error l i with
  | Some _ => Ok (firstn i l ++ v :: skipn (S i) l)
  | None => Raise IndexError
  end.

(** [l[i] += v] *)
Definition iadd_item (l : list Q) (i : nat) (v : Q) : result (list Q) :=
  (old <~ getitem l i ;; setitem l i (old + v))%py.

(** [l[-n:]] *)
Definition last_n {A} (n : nat) (l : list A) : list A :=
  match n with
  | O => l
  | S _ => skipn (length l - n) l
  end.

(** A dictionary with string keys, in insertion order. *)
Definition dict (V : Type) : Type := list (string * V).

(** [d.setdefault(key, []).append(r)] *)
Fixpoint setdefault_append {V} (key : string) (r : V) (d : dict (list V))
  : dict (list V) :=
  match d with
  | [] => [(key, [r])]
  | (k, v) :: d' =>
      if String.eqb k key then (k, v ++ [r]) :: d'
      else (k, v) :: setdefault_append key r d'
  end.

(** [d.values()] *)
Definition values {V} (d : dict V) : list V := map snd d.

(** [sorted(l, key=lambda r: r["datetime"])]: stable, ascending. *)
Fixpoint insert_by_datetime (x : AggregateRecord) (l : list AggregateRecord)
  : list AggregateRecord :=
  match l with
  | [] => [x]
  | y :: l' =>
      if String.ltb (datetime y) (datetime x) then y :: insert_by_datetime x l'
      else x :: y :: l'
  end.

Fixpoint sorted_by_datetime (l : list AggregateRecord) : list AggregateRecord :=
  match l with
  | [] => []
  | x :: l' => insert_by_datetime x (sorted_by_datetime l')
  end.

(** ** [Monitor._merge_monitor_records] *)

(** The local variables of the loop. *)
Record merge_locals : Type := mkLocals
  { cpu_per_core_sum : list Q;
    cpu_total_sum : Q;
    ram_avg_sum : Q;
    merged_ram_min : xQ;
    merged_ram_max : xQ;
    merged_bandwidth_total : Q;
    disk_used_max : Q }.

(** One iteration of [for r in records]. *)
Definition merge_step (v : merge_locals) (r : AggregateRecord) : result merge_locals :=
  (sums <~ rfold (fun sums iv => iadd_item sums (fst iv) (snd iv))
                 (enumerate (Cpu.cpu_per_core_avg (cpu r)))
                 (cpu_per_core_sum v) ;;
   Ok {| cpu_per_core_sum := sums;
         cpu_total_sum := cpu_total_sum v + Cpu.cpu_total_avg (cpu r);
         ram_avg_sum := ram_avg_sum v + Ram.avg_used (ram r);
         merged_ram_min := py_min (merged_ram_min v) (Ram.min_used (ram r));
         merged_ram_max := py_max (merged_ram_max v) (Ram.max_used (ram r));
         merged_bandwidth_total :=
           merged_bandwidth_total v + Bandwidth.transfer_total (bandwidth r);
         disk_used_max := py_maxQ (disk_used_max v) (Disk.used (disk r)) |})%py.

Definition _merge_monitor_records (records : list AggregateRecord) (merged_dt : string)
  : result AggregateRecord :=
  (first <~ getitem records 0 ;;
   let start :=
     {| cpu_per_core_sum := repeat 0 (length (Cpu.cpu_per_core_avg (cpu first)));
        cpu_total_sum := 0;
        ram_avg_sum := 0;
        merged_ram_min := PosInf;
        merged_ram_max := NegInf;
        merged_bandwidth_total := 0;
        disk_used_max := 0 |} in
   let disk_total := Disk.total (disk first) in
   v <~ rfold merge_step records start ;;
   let n := of_nat (length records) in
   per_core <~ comprehension (fun avg_core => (q <~ truediv avg_core n ;; Ok (round2 q))%py)
                             (cpu_per_core_sum v) ;;
   total_avg <~ truediv (cpu_total_sum v) n ;;
   ram_avg <~ truediv (ram_avg_sum v) n ;;
   Ok {| datetime := merged_dt;
         cpu := {| Cpu.cpu_per_core_avg := per_core;
                   Cpu.cpu_total_avg := round2 total_avg |};
         ram := {| Ram.unit := "GB"%string;
                   Ram.avg_used := round2 ram_avg;
                   Ram.min_used := round2x (merged_ram_min v);
                   Ram.max_used := round2x (merged_ram_max v);
                   Ram.total := Ram.total (ram first) |};
         disk := {| Disk.unit := "GB"%string;
                    Disk.used := round2 (disk_used_max v);
                    Disk.total := disk_total |};
         bandwidth := {| Bandwidth.unit := "MB"%string;
                         Bandwidth.transfer_total :=
                           round2 (merged_bandwidth_total v) |} |})%py.

(** ** The monitor together with its three series files *)

Record World : Type := mkWorld
  { self : Monitor;
    monitor_1h_json : option (list AggregateRecord);
    monitor_1day_json : option (list AggregateRecord);
    monitor_1month_json : option (list AggregateRecord) }.

Definition write_1h (l : list AggregateRecord) (w : World) : World :=
  mkWorld (self w) (Some l) (monitor_1day_json w) (monitor_1month_json w).
Definition write_1day (l : list AggregateRecord) (w : World) : World :=
  mkWorld (self w) (monitor_1h_json w) (Some l) (monitor_1month_json w).
Definition write_1month (l : list AggregateRecord) (w : World) : World :=
  mkWorld (self w) (monitor_1h_json w) (monitor_1day_json w) (Some l).

(** A method of the accumulator run inside the world. *)
Definition on_self {A} (m : M Monitor A) : M World A :=
  fun w => match m (self w) with
           | (s', r) =>
               (mkWorld s' (monitor_1h_json w) (monitor_1day_json w)
                        (monitor_1month_json w), r)
           end.

(** [try: json.load(open(path)) except: []] *)
Definition load_or_empty (f : option (list AggregateRecord)) : list AggregateRecord :=
  match f with
  | Some l => l
  | None => []
  end.

(** [Monitor._push_to_file_1day] *)
Definition _push_to_file_1day : M World unit :=
  (w <- get ;;
   match monitor_1h_json w with
   | None => ret tt
   | Some [] => ret tt
   | Some data_1h =>
       let file_records_1d := load_or_empty (monitor_1day_json w) in
       grouped <- lift
         (rfold (fun d r =>
                   (dt <~ DateTime.fromisoformat (datetime r) ;;
                    Ok (setdefault_append (DateTime.strftime_Ymd dt) r d))%py)
                data_1h []) ;;
       let grouped_hourly_record_by_same_date :=
         fold_left (fun d r => setdefault_append (datetime r) r d)
                   file_records_1d grouped in
       daily_records <- lift
         (comprehension
            (fun recs =>
               (first <~ getitem recs 0 ;;
                _merge_monitor_records recs (substring 0 10 (datetime first)))%py)
            (values grouped_hourly_record_by_same_date)) ;;
       let data_1d :=
         last_n config.max1d_record_length (sorted_by_datetime daily_records) in
       modify (write_1day data_1d)
   end)%py.

(** [Monitor._push_to_file_1month] *)
Definition _push_to_file_1month : M World unit :=
  (w <- get ;;
   match monitor_1day_json w with
   | None => ret tt
   | Some [] => ret tt
   | Some data_1day_list =>
       let file_records_1month := load_or_empty (monitor_1month_json w) in
       grouped <- lift
         (rfold (fun d r =>
                   (dt <~ DateTime.fromisoformat (datetime r) ;;
                    Ok (setdefault_append (DateTime.strftime_Ym dt) r d))%py)
                data_1day_list []) ;;
       let grouped_daily_record_by_same_month :=
         fold_left (fun d r => setdefault_append (datetime r) r d)
                   file_records_1month grouped in
       monthly_records <- lift
         (comprehension
            (fun recs =>
               (first <~ getitem recs 0 ;;
                dt <~ DateTime.fromisoformat (datetime first) ;;
                _merge_monitor_records recs (DateTime.strftime_Ym dt))%py)
            (values grouped_daily_record_by_same_month)) ;;
       let records_1month :=
         last_n config.max1month_record_length (sorted_by_datetime monthly_records) in
       modify (write_1month records_1month)
   end)%py.

(** The list [current_1h_file_data] of [push_to_file] once the new record
    has been merged into the last one or appended. *)
Definition merge_or_append (current_1h_file_data : list AggregateRecord)
  (current_stats_data : AggregateRecord) : result (list AggregateRecord) :=
  match current_1h_file_data with
  | [] => Ok (current_1h_file_data ++ [current_stats_data])
  | _ :: _ =>
      let idx := (length current_1h_file_data - 1)%nat in
      (last <~ getitem current_1h_file_data idx ;;
       last_dt <~ DateTime.fromisoformat (datetime last) ;;
       new_dt <~ DateTime.fromisoformat (datetime current_stats_data) ;;
       if ((DateTime.hour last_dt =? DateTime.hour new_dt)%nat
           && DateTime.date_eqb (DateTime.date last_dt) (DateTime.date new_dt))%bool
       then
         let merged_dt := datetime last in
         old <~ getitem current_1h_file_data idx ;;
         merged <~ _merge_monitor_records [old; current_stats_data] merged_dt ;;
         setitem current_1h_file_data idx merged
       else Ok (current_1h_file_data ++ [current_stats_data]))%py
  end.

(** What [push_to_file] hands to [json.dump]. *)
Definition to_write (current_1h_file_data : list AggregateRecord) : list AggregateRecord :=
  if (config.max1h_record_length <? length current_1h_file_data)%nat
  then firstn config.max1h_record_length current_1h_file_data
  else current_1h_file_data.

(** [Monitor.push_to_file] *)
Definition push_to_file (os : Os) : M World unit :=
  (current_stats_data <- on_self (get_and_reset_stats os) ;;
   match current_stats_data with
   | None => ret tt
   | Some current_stats_data =>
       w <- get ;;
       let current_1h_file_data := load_or_empty (monitor_1h_json w) in
       current_1h_file_data <- lift (merge_or_append current_1h_file_data current_stats_data) ;;
       modify (write_1h (to_write current_1h_file_data)) ;;
       _push_to_file_1day ;;
       _push_to_file_1month
   end)%py.

(** ** The query functions

    [pytz] is outside the repository: [pytz_timezone name] is [None] when
    [pytz.timezone(name)] raises [UnknownTimeZoneError], and
    [astimezone_strftime tz fmt dt] is [dt.astimezone(tz).strftime(fmt)]. *)

Section Query.

Variable tzinfo : Type.
Variable pytz_timezone : string -> option tzinfo.
Variable astimezone_strftime : tzinfo -> string -> DateTime.t -> string.

Definition set_datetime (v : string) (r : AggregateRecord) : AggregateRecord :=
  mkRecord v (cpu r) (ram r) (disk r) (bandwidth r).

(** The timezone lookup and the loop that rewrites [record['datetime']]. *)
Definition localize (fmt : string) (client_time_zone : string)
  (records : list AggregateRecord) : result (list AggregateRecord) :=
  match pytz_timezone client_time_zone with
  | None => Raise (ClientException ("Invalid Timezone: " ++ client_time_zone)%string)
  | Some client_tz =>
      comprehension
        (fun record =>
           (utc_time <~ DateTime.fromisoformat (datetime record) ;;
            Ok (set_datetime (astimezone_strftime client_tz fmt utc_time) record))%py)
        records
  end.

(** [Monitor._get_1h_monitor_records] *)
Definition _get_1h_monitor_records (os : Os) (client_time_zone : string)
  (max_records : nat) : M World (list AggregateRecord) :=
  (w <- get ;;
   match monitor_1h_json w with
   | None => push_to_file os
   | Some _ => ret tt
   end ;;
   w <- get ;;
   match monitor_1h_json w with
   | None => raise FileNotFoundError
   | Some current_1h_file_data =>
       let records_1h := last_n max_records current_1h_file_data in
       lift (localize "%m-%d %Hh" client_time_zone records_1h)
   end)%py.

(** [Monitor._get_1day_monitor_records] *)
Definition _get_1day_monitor_records (client_time_zone : string)
  (max_records : nat) : M World (list AggregateRecord) :=
  (w <- get ;;
   match monitor_1day_json w with
   | None => raise (ClientException "No Data")
   | Some current_1h_file_data =>
       let records_1day := last_n max_records current_1h_file_data in
       lift (localize "%Y-%m-%d" client_time_zone records_1day)
   end)%py.

(** [Monitor._get_1month_monitor_records] *)
Definition _get_1month_monitor_records (max_records : nat)
  : M World (list AggregateRecord) :=
  (w <- get ;;
   match monitor_1month_json w with
   | None => raise (ClientException "No Data")
   | Some current_1month_file_data => ret (last_n max_records current_1month_file_data)
   end)%py.

Definition get_last_24h_monitor_data (os : Os) (client_time_zone : string) :=
  _get_1h_monitor_records os client_time_zone 24.
Definition get_last_7days_monitor_data (client_time_zone : string) :=
  _get_1day_monitor_records client_time_zone 7.
Definition get_last_30days_monitor_data (client_time_zone : string) :=
  _get_1day_monitor_records client_time_zone 30.
Definition get_last_12months_monitor_data :=
  _get_1month_monitor_records 12.

End Query.

(** ** [Server.handle_http] (server.py)

    The request body is taken to hold a string under [client_timezone].  The
    handler calls the four queries in turn; the first exception ends the
    [try] block.  [status] is the variable written to the access log, which
    only the [ClientException] branch updates. *)

Record payload : Type := mkPayload
  { one_day : list AggregateRecord;
    one_week : list AggregateRecord;
    thirty_days : list AggregateRecord;
    twelve_months : list AggregateRecord }.

Inductive body : Type :=
| Payload (p : payload)
| Error (e : exn).

Record Response : Type := mkResponse
  { status : nat;
    text : body }.

Record Handled : Type := mkHandled
  { response : Response;
    logged_status : nat }.

Section Server.

Variable tzinfo : Type.
Variable pytz_timezone : string -> option tzinfo.
Variable astimezone_strftime : tzinfo -> string -> DateTime.t -> string.

(** The body of the [try] block. *)
Definition collect (os : Os) (client_timezone : string) : M World payload :=
  (monitor_24h_data <-
     get_last_24h_monitor_data tzinfo pytz_timezone astimezone_strftime os client_timezone ;;
   monitor_7days_data <-
     get_last_7days_monitor_data tzinfo pytz_timezone astimezone_strftime client_timezone ;;
   monitor_30days_data <-
     get_last_30days_monitor_data tzinfo pytz_timezone astimezone_strftime client_timezone ;;
   monitor_12months_data <- get_last_12months_monitor_data ;;
   ret {| one_day := monitor_24h_data;
          one_week := monitor_7days_data;
          thirty_days := monitor_30days_data;
          twelve_months := monitor_12months_data |})%py.

Definition handle_http (os : Os) (client_timezone : string) (w : World)
  : World * Handled :=
  match collect os client_timezone w with
  | (w', Ok p) => (w', mkHandled (mkResponse 200 (Payload p)) 200)
  | (w', Raise (ClientException msg)) =>
      (w', mkHandled (mkResponse 404 (Error (ClientException msg))) 404)
  | (w', Raise e) => (w', mkHandled (mkResponse 500 (Error e)) 200)
  end.

End Server.

(** ** Binary64

    The arithmetic lines of [update_current_stats] (the RAM statistics) and
    of [_merge_monitor_records] (a rounded average), evaluated with the
    floats of the interpreter (IEEE 754 binary64, round to nearest even)
    instead of exact rationals.  They show what the rounding of sums and
    quotients does to a run; everything else in this file is stated in
    exact arithmetic. *)

Module Binary64.
Import PrimFloat.
Local Open Scope float_scope.

(** [float(n)], exact below 2^53. *)
Fixpoint of_nat (n : nat) : float :=
  match n with
  | O => 0
  | S n' => of_nat n' + 1
  end.

(** The exact absolute value of a finite float. *)
Definition magnitude (x : float) : option Q :=
  match FloatOps.Prim2SF x with
  | SpecFloat.S754_zero _ => Some 0%Q
  | SpecFloat.S754_finite _ m e =>
      Some (match e with
            | Z0 => inject_Z (Zpos m)
            | Zpos p => inject_Z (Zpos m * 2 ^ Zpos p)
            | Zneg p => Qmake (Zpos m) (2 ^ p)
            end)
  | _ => None
  end.

(** [float(z)] for [0 <= z < 2^53]. *)
Definition of_Z (z : Z) : float := of_uint63 (Uint63.of_Z z).

(** [round(x, 2)]: the float nearest to the exact value of [x] rounded to
    hundredths, ties to even.  From 2^46 on a float is further from its
    neighbours than a hundredth and is returned as it is, like an infinity,
    a NaN and a zero. *)
Definition round2 (x : float) : float :=
  if eqb x 0 then x
  else if ltb (abs x) 0x1p46 then
    match magnitude x with
    | Some q =>
        let r := of_Z (round_half_even (q * 100)%Q) / 100 in
        if ltb x 0 then opp r else r
    | None => x
    end
  else x.

Record ram_stats : Type := mk
  { ram_avg : float; ram_min : float; ram_max : float; sample_count : nat }.

(** The RAM attributes set by [Monitor.__init__]. *)
Definition init : ram_stats :=
  {| ram_avg := 0; ram_min := infinity; ram_max := 0; sample_count := 0 |}.

Definition py_min (a b : float) : float := if ltb b a then b else a.
Definition py_max (a b : float) : float := if ltb a b then b else a.

(** The RAM part of [update_current_stats], with the increment of
    [sample_count]. *)
Definition update_ram (ram_used : float) (s : ram_stats) : ram_stats :=
  {| ram_avg :=
       if eqb (ram_avg s) 0 then ram_used
       else (ram_avg s * of_nat (sample_count s) + ram_used)
            / of_nat (sample_count s + 1);
     ram_min := py_min (ram_min s) ram_used;
     ram_max := py_max (ram_max s) ram_used;
     sample_count := (sample_count s + 1)%nat |}.

(** [cpu_total_avg] of a merge, from the [cpu_total_avg] of its inputs: the
    running sum of the loop, divided by [n] and rounded. *)
Definition merged_cpu_total_avg (inputs : list float) : float :=
  round2 (fold_left add inputs 0 / of_nat (length inputs)).

(** The floats written [0.1], [0.2] and [0.3]. *)
Definition tenth : float := 0x1.999999999999ap-4.
Definition two_tenths : float := 0x1.999999999999ap-3.
Definition three_tenths : float := 0x1.3333333333333p-2.

(** The float written with two decimals, [n] hundredths. *)
Definition hundredths (n : Z) : float := of_Z n / 100.

End Binary64.

(** * Vocabulary of the properties *)

(** ** Closed forms of the loops and predicates of the statements *)

(** The per-core list computed by one call, before it is assigned. *)
Definition next_per_core (cpu : list Q) (s : Monitor) : result (list Q) :=
  match cpu_per_core_avg s with
  | [] => Ok cpu
  | _ :: _ =>
      comprehension
        (fun i =>
           (a <~ getitem (cpu_per_core_avg s) i ;;
            c <~ getitem cpu i ;;
            truediv (a * of_nat (sample_count s) + c) (of_nat (sample_count s + 1)))%py)
        (seq 0 (length cpu))
  end.

(** The running RAM average computed by one call. *)
Definition next_ram_avg (ram_used : Q) (s : Monitor) : Q :=
  if falsy (ram_avg s) then ram_used
  else (ram_avg s * of_nat (sample_count s) + ram_used) / of_nat (sample_count s + 1).

(** The state a successful call leaves behind. *)
Definition updated (snap : Snapshot.t) (per_core : list Q) (s : Monitor) : Monitor :=
  {| cpu_per_core_avg := per_core;
     cpu_total_avg := sum per_core / of_nat (length per_core);
     ram_avg := next_ram_avg (Snapshot.used (Snapshot.ram snap)) s;
     ram_min := py_min (ram_min s) (Fin (Snapshot.used (Snapshot.ram snap)));
     ram_max := py_maxQ (ram_max s) (Snapshot.used (Snapshot.ram snap));
     bandwidth_total :=
       bandwidth_total s + Bandwidth.transfer_total (Snapshot.bandwidth snap);
     disk_used := Disk.used (Snapshot.disk snap);
     disk_total := Disk.total (Snapshot.disk snap);
     sample_count := sample_count s + 1 |}.

Definition xle (a b : xQ) : Prop :=
  match a, b with
  | NegInf, _ => True
  | _, PosInf => True
  | Fin x, Fin y => x <= y
  | _, _ => False
  end.

(** [ram_min <= ram_avg <= ram_max] *)
Definition ram_bounds (s : Monitor) : Prop :=
  xle (ram_min s) (Fin (ram_avg s)) /\ ram_avg s <= ram_max s.

(** The states reached after each call of [update_current_stats] that
    returns, when the snapshots are fed in order; an exception ends the run. *)
Fixpoint states_after (snaps : list Snapshot.t) (s : Monitor) : list Monitor :=
  match snaps with
  | [] => []
  | snap :: snaps' =>
      match update_current_stats snap s with
      | (s', Ok _) => s' :: states_after snaps' s'
      | (_, Raise _) => []
      end
  end.

(** The arithmetic mean of a non-empty list. *)
Definition mean (l : list Q) : Q := sum l / of_nat (length l).

Definition ram_used_of (snap : Snapshot.t) : Q := Snapshot.used (Snapshot.ram snap).

(** Feeding a list of snapshots, one call each. *)
Definition feed (snaps : list Snapshot.t) : M Monitor unit :=
  for_each snaps update_current_stats.

(** What the accumulator knows of the readings [l] seen so far, all of them
    positive. *)
Definition tracks_mean (s : Monitor) (l : list Q) : Prop :=
  sample_count s = length l /\
  Forall (fun x => 0 < x) l /\
  (l = [] -> ram_avg s == 0) /\
  (l <> [] -> ram_avg s == mean l).

(** [sums] with [vals] added to its first [len(vals)] entries. *)
Fixpoint add_prefix (sums vals : list Q) : list Q :=
  match sums, vals with
  | s :: sums', v :: vals' => (s + v) :: add_prefix sums' vals'
  | _, _ => sums
  end.

Definition cores (r : AggregateRecord) : list Q := Cpu.cpu_per_core_avg (cpu r).

(** One iteration that does not raise. *)
Definition merge_step_value (v : merge_locals) (r : AggregateRecord) : merge_locals :=
  {| cpu_per_core_sum := add_prefix (cpu_per_core_sum v) (cores r);
     cpu_total_sum := cpu_total_sum v + Cpu.cpu_total_avg (cpu r);
     ram_avg_sum := ram_avg_sum v + Ram.avg_used (ram r);
     merged_ram_min := py_min (merged_ram_min v) (Ram.min_used (ram r));
     merged_ram_max := py_max (merged_ram_max v) (Ram.max_used (ram r));
     merged_bandwidth_total :=
       merged_bandwidth_total v + Bandwidth.transfer_total (bandwidth r);
     disk_used_max := py_maxQ (disk_used_max v) (Disk.used (disk r)) |}.

(** The local variables before the loop. *)
Definition merge_start (first : AggregateRecord) : merge_locals :=
  {| cpu_per_core_sum := repeat 0 (length (cores first));
     cpu_total_sum := 0;
     ram_avg_sum := 0;
     merged_ram_min := PosInf;
     merged_ram_max := NegInf;
     merged_bandwidth_total := 0;
     disk_used_max := 0 |}.

(** The record built after the loop. *)
Definition merge_result (first : AggregateRecord) (n : nat) (merged_dt : string)
  (v : merge_locals) : AggregateRecord :=
  {| datetime := merged_dt;
     cpu := {| Cpu.cpu_per_core_avg :=
                 map (fun avg_core => round2 (avg_core / of_nat n)) (cpu_per_core_sum v);
               Cpu.cpu_total_avg := round2 (cpu_total_sum v / of_nat n) |};
     ram := {| Ram.unit := "GB"%string;
               Ram.avg_used := round2 (ram_avg_sum v / of_nat n);
               Ram.min_used := round2x (merged_ram_min v);
               Ram.max_used := round2x (merged_ram_max v);
               Ram.total := Ram.total (ram first) |};
     disk := {| Disk.unit := "GB"%string;
                Disk.used := round2 (disk_used_max v);
                Disk.total := Disk.total (disk first) |};
     bandwidth := {| Bandwidth.unit := "MB"%string;
                     Bandwidth.transfer_total := round2 (merged_bandwidth_total v) |} |}.

(** No record has more cores than the first one. *)
Definition cores_fit (records : list AggregateRecord) : Prop :=
  match records with
  | [] => True
  | first :: _ =>
      Forall (fun r => (length (cores r) <= length (cores first))%nat) records
  end.

Definition cpu_total_of (r : AggregateRecord) : Q := Cpu.cpu_total_avg (cpu r).
Definition ram_avg_of (r : AggregateRecord) : Q := Ram.avg_used (ram r).
Definition ram_min_of (r : AggregateRecord) : xQ := Ram.min_used (ram r).
Definition ram_max_of (r : AggregateRecord) : xQ := Ram.max_used (ram r).
Definition disk_used_of (r : AggregateRecord) : Q := Disk.used (disk r).
Definition transfer_total_of (r : AggregateRecord) : Q :=
  Bandwidth.transfer_total (bandwidth r).

(** The record is stamped on the calendar date [key]. *)
Definition on_date (key : string) (r : AggregateRecord) : Prop :=
  exists dt,
    DateTime.fromisoformat (datetime r) = Ok dt /\ DateTime.strftime_Ymd dt = key.


(** Numeric equality on the extended rationals. *)
Definition xeq (a b : xQ) : Prop :=
  match a, b with
  | NegInf, NegInf => True
  | Fin x, Fin y => x == y
  | PosInf, PosInf => True
  | _, _ => False
  end.

Definition result_map {A B} (f : A -> B) (r : result A) : result B :=
  match r with
  | Ok a => Ok (f a)
  | Raise e => Raise e
  end.

(** ** Sample states and series

    The series follow [tests/test_push_to_file_1day.py]. *)

Definition sample_snapshot (cpu : list Q) (ram_used : Q) : Snapshot.t :=
  {| Snapshot.datetime := "2025-01-02T03:04:05.000006+00:00";
     Snapshot.cpu := cpu;
     Snapshot.ram := {| Snapshot.total := 32; Snapshot.used := ram_used;
                        Snapshot.unit := "GB" |};
     Snapshot.disk := {| Disk.total := 100; Disk.used := 20; Disk.unit := "GB" |};
     Snapshot.bandwidth := {| Bandwidth.unit := "MB"; Bandwidth.transfer_total := 5 |} |}.

Definition sample_os : Os :=
  {| utcnow_isoformat := "2025-01-02T03:59:59.000001+00:00";
     virtual_memory_total := 34359738368 |}.

(** [make_hourly_record] of the test module; [dt] is [dt.isoformat()]. *)
Definition make_hourly_record (dt : string) (cpu_total ram_avg bw disk_used : Q)
  : AggregateRecord :=
  let ncores := 2%nat in
  {| datetime := dt;
     cpu := {| Cpu.cpu_per_core_avg := repeat cpu_total ncores;
               Cpu.cpu_total_avg := cpu_total |};
     ram := {| Ram.unit := "GB"%string;
               Ram.avg_used := ram_avg;
               Ram.min_used := Fin ram_avg;
               Ram.max_used := Fin ram_avg;
               Ram.total := 32 |};
     disk := {| Disk.unit := "GB"%string; Disk.used := disk_used; Disk.total := 100 |};
     bandwidth := {| Bandwidth.unit := "MB"%string; Bandwidth.transfer_total := bw |} |}.

(** [datetime(2025, 1, day, hour, tzinfo=utc).isoformat()] *)
Definition january_2025 (day hour : nat) : string :=
  ("2025-01-" ++ DateTime.pad2 day ++ "T" ++ DateTime.pad2 hour ++ ":00:00+00:00")%string.

(** The hourly records of the test for day [1 + offset] of January 2025. *)
Definition day_of_records (offset : nat) (cpu0 ram0 bw0 disk0 : Q)
  : list AggregateRecord :=
  map (fun i =>
         make_hourly_record (january_2025 (1 + offset) i)
           (cpu0 + of_nat i) (ram0 + of_nat i / 10) (bw0 + of_nat i) (disk0 + of_nat i))
      (seq 0 24).

Definition day1 : list AggregateRecord := day_of_records 0 10 1 5 20.
Definition day2 : list AggregateRecord := day_of_records 1 30 2 3 22.
Definition day3 : list AggregateRecord := day_of_records 2 50 3 1 24.

(** A full hourly window: the 168 hours of 1 to 7 January 2025. *)
Definition full_week : list AggregateRecord :=
  flat_map (fun d => day_of_records d 10 1 5 20) (seq 0 7).

Definition no_files (s : Monitor) : World := mkWorld s None None None.

Definition first_flush_os : Os :=
  {| utcnow_isoformat := "2025-01-02T03:10:00.000001+00:00";
     virtual_memory_total := 34359738368 |}.

(** One sample, a flush at 03:10, one more sample. *)
Definition world_between_flushes : World :=
  fst (on_self (update_current_stats (sample_snapshot [30; 40] 2))
         (fst (push_to_file first_flush_os
                 (fst (on_self (update_current_stats (sample_snapshot [10; 20] 4))
                         (no_files init)))))).

Definition first_flush_record : AggregateRecord :=
  finalize first_flush_os (fst (update_current_stats (sample_snapshot [10; 20] 4) init)).

(** The accumulator after one sample, next to a full hourly window. *)
Definition world_with_full_window : World :=
  mkWorld (fst (update_current_stats (sample_snapshot [10; 20] 4) init))
          (Some full_week) None None.

Definition after_window_os : Os :=
  {| utcnow_isoformat := "2025-01-08T00:00:00.000001+00:00";
     virtual_memory_total := 34359738368 |}.

Definition full_week_last : AggregateRecord :=
  make_hourly_record (january_2025 7 23) (10 + of_nat 23) (1 + of_nat 23 / 10)
                     (5 + of_nat 23) (20 + of_nat 23).

(** The hourly file of the test module's second day; no daily or monthly file. *)
Definition rerun_world : World := mkWorld init (Some day2) None None.

(** A resolver that knows two zone names; the display string is left as the
    stored one. *)
Definition two_zones (name : string) : option unit :=
  if (String.eqb name "UTC" || String.eqb name "Asia/Ho_Chi_Minh")%bool
  then Some tt else None.

Definition keep_stored (_ : unit) (_ : string) (dt : DateTime.t) : string :=
  DateTime.strftime_Ymd dt.

(** Two records that differ in [ram.total] and [disk.total] only. *)
Definition small_host : AggregateRecord :=
  {| datetime := "2025-01-02T03:00:00+00:00";
     cpu := {| Cpu.cpu_per_core_avg := [10; 20]; Cpu.cpu_total_avg := 15 |};
     ram := {| Ram.unit := "GB"; Ram.avg_used := 4; Ram.min_used := Fin 3;
               Ram.max_used := Fin 5; Ram.total := 16 |};
     disk := {| Disk.unit := "GB"; Disk.used := 20; Disk.total := 100 |};
     bandwidth := {| Bandwidth.unit := "MB"; Bandwidth.transfer_total := 5 |} |}.

Definition large_host : AggregateRecord :=
  {| datetime := "2025-01-02T04:00:00+00:00";
     cpu := {| Cpu.cpu_per_core_avg := [10; 20]; Cpu.cpu_total_avg := 15 |};
     ram := {| Ram.unit := "GB"; Ram.avg_used := 4; Ram.min_used := Fin 3;
               Ram.max_used := Fin 5; Ram.total := 32 |};
     disk := {| Disk.unit := "GB"; Disk.used := 20; Disk.total := 200 |};
     bandwidth := {| Bandwidth.unit := "MB"; Bandwidth.transfer_total := 5 |} |}.

(** ** Vocabulary of the further properties *)

(** [snapshot["bandwidth"]["transfer_total"]] *)
Definition bandwidth_of (snap : Snapshot.t) : Q :=
  Bandwidth.transfer_total (Snapshot.bandwidth snap).

(** The readings of core [i] in a run of snapshots. *)
Definition core_readings (i : nat) (snaps : list Snapshot.t) : list Q :=
  map (fun snap => nth i (Snapshot.cpu snap) 0) snaps.

(** The incremental average of core [i], as the comprehension computes it. *)
Definition next_core_avg (cpu : list Q) (s : Monitor) (i : nat) : Q :=
  (nth i (cpu_per_core_avg s) 0 * of_nat (sample_count s) + nth i cpu 0)
  / of_nat (sample_count s + 1).

(** Three snapshots of a host with two cores. *)
Definition three_samples : list Snapshot.t :=
  [sample_snapshot [10; 20] 4; sample_snapshot [30; 40] 2; sample_snapshot [50; 60] 9].

(** What the accumulator knows of the per-core readings seen so far. *)
Definition tracks_cores (k : nat) (s : Monitor) (seen : list Snapshot.t) : Prop :=
  sample_count s = length seen /\
  (seen = [] -> cpu_per_core_avg s = []) /\
  (seen <> [] ->
   length (cpu_per_core_avg s) = k /\
   cpu_total_avg s = mean (cpu_per_core_avg s) /\
   forall i, (i < k)%nat ->
     nth i (cpu_per_core_avg s) 0 * of_nat (length seen) == sum (core_readings i seen)).

(** The world once the accumulator has been reset, the files as they were. *)
Definition reset_world (w : World) : World :=
  mkWorld init (monitor_1h_json w) (monitor_1day_json w) (monitor_1month_json w).

(** A record whose datetime is a month, which [fromisoformat] rejects. *)
Definition unreadable_record : AggregateRecord :=
  mkRecord "2025-01" (cpu small_host) (ram small_host) (disk small_host)
           (bandwidth small_host).

(** Whether the hourly file is within the retention limit. *)
Definition within_limit (n : nat) (f : option (list AggregateRecord)) : Prop :=
  match f with
  | None => True
  | Some l => (length l <= n)%nat
  end.

(** A record of a host with one core. *)
Definition one_core_record : AggregateRecord :=
  mkRecord "2025-01-02T05:00:00+00:00" (Cpu.mk [10] 10) (ram small_host)
           (disk small_host) (bandwidth small_host).

(** [min_used <= avg_used <= max_used] *)
Definition ram_ordered (r : AggregateRecord) : Prop :=
  xle (Ram.min_used (ram r)) (Fin (Ram.avg_used (ram r))) /\
  xle (Fin (Ram.avg_used (ram r))) (Ram.max_used (ram r)).

(** [a] is not after [b] in the order [sorted] uses. *)
Definition dt_le (a b : AggregateRecord) : Prop :=
  String.ltb (datetime b) (datetime a) = false.

(** The keys of a dictionary, in insertion order. *)
Definition keys {V} (d : dict V) : list string := map fst d.

(** A datetime as the monthly rollup writes it: [strftime('%Y-%m')]. *)
Definition month_key (r : AggregateRecord) : Prop :=
  exists dt, datetime r = DateTime.strftime_Ym dt.

(** Every list of the dictionary whose key did not come from the first loop
    starts with a record stored under that very key. *)
Definition headed (known : list string) (d : dict (list AggregateRecord)) : Prop :=
  forall k recs,
    In (k, recs) d ->
    In k known \/ exists r0 rest, recs = r0 :: rest /\ datetime r0 = k.

(** A daily record, a monthly record of an earlier month, and a world that
    holds both. *)
Definition second_of_january : AggregateRecord :=
  mkRecord "2025-01-02" (cpu small_host) (ram small_host) (disk small_host)
           (bandwidth small_host).

Definition november : AggregateRecord :=
  mkRecord "2024-11" (cpu small_host) (ram small_host) (disk small_host)
           (bandwidth small_host).

Definition world_with_stale_month : World :=
  mkWorld init (Some [small_host]) (Some [second_of_january]) (Some [november]).

(** A number with at most two decimals. *)
Definition two_decimals (q : Q) : Prop := exists z : Z, q = z # 100.

Definition two_decimals_x (x : xQ) : Prop :=
  match x with
  | Fin q => two_decimals q
  | _ => True
  end.

(** A record as [get_and_reset_stats] and [_merge_monitor_records] build
    them: every figure they round has two decimals, the disk usage is not
    negative, and the units are "GB" and "MB". *)
Record rounded_record (r : AggregateRecord) : Prop := mkRounded
  { rounded_cores : Forall two_decimals (cores r);
    rounded_cpu_total : two_decimals (cpu_total_of r);
    rounded_ram_avg : two_decimals (ram_avg_of r);
    rounded_ram_min : two_decimals_x (ram_min_of r);
    rounded_ram_max : two_decimals_x (ram_max_of r);
    rounded_disk_used : two_decimals (disk_used_of r);
    disk_used_nonneg : 0 <= disk_used_of r;
    rounded_transfer_total : two_decimals (transfer_total_of r);
    ram_unit_gb : Ram.unit (ram r) = "GB"%string;
    disk_unit_gb : Disk.unit (disk r) = "GB"%string;
    bandwidth_unit_mb : Bandwidth.unit (bandwidth r) = "MB"%string }.

(** [small_host] with its figures written in hundredths. *)
Definition rounded_host : AggregateRecord :=
  {| datetime := "2025-01-02T03:00:00+00:00";
     cpu := {| Cpu.cpu_per_core_avg := [1000 # 100; 2050 # 100];
               Cpu.cpu_total_avg := 1525 # 100 |};
     ram := {| Ram.unit := "GB"; Ram.avg_used := 412 # 100; Ram.min_used := Fin (300 # 100);
               Ram.max_used := Fin (506 # 100); Ram.total := 1600 # 100 |};
     disk := {| Disk.unit := "GB"; Disk.used := 2075 # 100; Disk.total := 10000 # 100 |};
     bandwidth := {| Bandwidth.unit := "MB"; Bandwidth.transfer_total := 533 # 100 |} |}.

(** Bytes sent and received, as a counter reading has them. *)
Definition total_bytes (n : Psutil.snetio) : Z :=
  (Psutil.bytes_sent n + Psutil.bytes_recv n)%Z.

(** The snapshots a run of readings produces: each is compared with the
    counters of the one before. *)
Fixpoint snapshots (last : Psutil.snetio) (readings : list Psutil.t) : list Snapshot.t :=
  match readings with
  | [] => []
  | p :: readings' => snapshot last p :: snapshots (Psutil.net_io_counters p) readings'
  end.

(** [self.last_net] after the run. *)
Fixpoint final_net (last : Psutil.snetio) (readings : list Psutil.t) : Psutil.snetio :=
  match readings with
  | [] => last
  | p :: readings' => final_net (Psutil.net_io_counters p) readings'
  end.

(** Every call moves at most [limit] bytes, in either direction. *)
Fixpoint traffic_within (limit : Z) (last : Psutil.snetio) (readings : list Psutil.t)
  : Prop :=
  match readings with
  | [] => True
  | p :: readings' =>
      (- limit <= total_bytes (Psutil.net_io_counters p) - total_bytes last <= limit)%Z /\
      traffic_within limit (Psutil.net_io_counters p) readings'
  end.

(** A reading of a host with 16 GiB of memory, half of it available. *)
Definition reading (sent recv : Z) (cpu : list Q) : Psutil.t :=
  {| Psutil.now_isoformat := "2025-01-02T03:04:05.000006+00:00";
     Psutil.ram_total := 17179869184;
     Psutil.ram_available := 8589934592;
     Psutil.disk_usage_total := 107374182400;
     Psutil.disk_usage_used := 21474836480;
     Psutil.net_io_counters := Psutil.mk_net sent recv;
     Psutil.cpu_percent := cpu |}.

(** Three seconds of a trickle: 5000 bytes per second. *)
Definition trickle : list Psutil.t :=
  [reading 3000 2000 [10; 20]; reading 6000 4000 [30; 40]; reading 9000 6000 [50; 60]].

(** The figures of a record, all but its datetime. *)
Definition same_figures (r o : AggregateRecord) : Prop :=
  cpu o = cpu r /\ ram o = ram r /\ disk o = disk r /\ bandwidth o = bandwidth r.

(** A world in which the three files exist. *)
Definition served_world : World :=
  mkWorld init (Some day2) (Some [second_of_january]) (Some [november]).

Definition readable (r : AggregateRecord) : Prop :=
  exists dt, DateTime.fromisoformat (datetime r) = Ok dt.

(** Every list of the dictionary starts with a record that satisfies [H]
    and holds records that satisfy [P] only. *)
Definition groups_of (H P : AggregateRecord -> Prop) (d : dict (list AggregateRecord))
  : Prop :=
  forall k recs,
    In (k, recs) d ->
    exists first rest, recs = first :: rest /\ H first /\ Forall P recs.

(** A stored month some day of the daily file falls in. *)
Definition month_of_some_day (days : list AggregateRecord) (r : AggregateRecord) : Prop :=
  exists d dt, In d days /\ DateTime.fromisoformat (datetime d) = Ok dt /\
               DateTime.strftime_Ym dt = datetime r.

(** One step of either loop: [d.setdefault(key, []).append(r)]. *)
Definition file_under (d : dict (list AggregateRecord)) (kr : string * AggregateRecord)
  : dict (list AggregateRecord) :=
  setdefault_append (fst kr) (snd kr) d.

(** A key joins the keys seen so far unless it is one of them. *)
Definition add_key (seen : list string) (k : string) : list string :=
  if existsb (String.eqb k) seen then seen else seen ++ [k].

(** The distinct keys of a list, in the order of their first appearance. *)
Definition distinct_keys (ks : list string) : list string := fold_left add_key ks [].

(** The records filed under [k], in the order of the list. *)
Definition filed_under (k : string) (items : list (string * AggregateRecord))
  : list AggregateRecord :=
  map snd (filter (fun kr => String.eqb (fst kr) k) items).

(** Grouping by key: one group per distinct key, in the order of first
    appearance, each with its records in the order of the list. *)
Definition groups_by (items : list (string * AggregateRecord)) : list (list AggregateRecord) :=
  map (fun k => filed_under k items) (distinct_keys (map fst items)).

(** The key a rollup files a record of its input under, [fmt] being the
    [strftime] format. *)
Definition stamp_key (fmt : DateTime.t -> string) (r : AggregateRecord) : string :=
  match DateTime.fromisoformat (datetime r) with
  | Ok dt => fmt dt
  | Raise _ => EmptyString
  end.

(** The records a rollup groups, with their keys: the input series by the
    date or month of the datetime, then the stored series by the datetime
    itself. *)
Definition rollup_items (fmt : DateTime.t -> string) (input stored : list AggregateRecord)
  : list (string * AggregateRecord) :=
  map (fun r => (stamp_key fmt r, r)) input ++ map (fun r => (datetime r, r)) stored.

(** * Properties *)

(** ** Arithmetic helpers *)

Lemma of_nat_succ_nonzero (n : nat) : Qeq_bool (of_nat (n + 1)) 0 = false.
Proof.
  unfold of_nat, Qeq_bool; simpl.
  apply Z.eqb_neq. lia.
Qed.

Lemma of_nat_pos (n : nat) : (0 < n)%nat -> 0 < of_nat n.
Proof.
  intros H. unfold of_nat, Qlt; simpl. lia.
Qed.

Lemma of_nat_nonneg (n : nat) : 0 <= of_nat n.
Proof.
  unfold of_nat, Qle; simpl. lia.
Qed.

Lemma of_nat_succ (n : nat) : of_nat (n + 1) == of_nat n + 1.
Proof.
  unfold of_nat. rewrite Nat2Z.inj_add, inject_Z_plus. reflexivity.
Qed.

Lemma truediv_succ (a : Q) (n : nat) :
  truediv a (of_nat (n + 1)) = Ok (a / of_nat (n + 1)).
Proof.
  unfold truediv. rewrite of_nat_succ_nonzero. reflexivity.
Qed.

Lemma truediv_pos (a : Q) (n : nat) :
  (0 < n)%nat -> truediv a (of_nat n) = Ok (a / of_nat n).
Proof.
  intros H. destruct n as [|n]; [lia|].
  replace (S n) with (n + 1)%nat by lia. apply truediv_succ.
Qed.

Lemma truediv_zero (a : Q) : truediv a (of_nat 0) = Raise ZeroDivisionError.
Proof. reflexivity. Qed.

Lemma Qltb_true (a b : Q) : Qltb a b = true <-> a < b.
Proof.
  unfold Qltb. rewrite negb_true_iff. split; intros H.
  - apply Qnot_le_lt. intros Hle. apply Qle_bool_iff in Hle. congruence.
  - destruct (Qle_bool b a) eqn:E; [|reflexivity].
    apply Qle_bool_iff in E. exfalso. exact (Qlt_not_le _ _ H E).
Qed.

Lemma Qltb_false (a b : Q) : Qltb a b = false <-> b <= a.
Proof.
  unfold Qltb. rewrite negb_false_iff. apply Qle_bool_iff.
Qed.

(** Turns every boolean comparison of the context into its proposition. *)
Ltac order_facts :=
  repeat match goal with
         | H : Qltb _ _ = true |- _ => apply Qltb_true in H
         | H : Qltb _ _ = false |- _ => apply Qltb_false in H
         | H : Qeq_bool _ _ = true |- _ => apply Qeq_bool_iff in H
         | H : Qeq_bool _ _ = false |- _ => apply Qeq_bool_neq in H
         end.

(** ** The comprehension of [update_current_stats] *)

Lemma comprehension_ok {A B} (f : A -> result B) (g : A -> B) (l : list A) :
  (forall x, In x l -> f x = Ok (g x)) -> comprehension f l = Ok (map g l).
Proof.
  induction l as [|x l IH]; intros H; simpl; [reflexivity|].
  rewrite (H x (or_introl eq_refl)). simpl.
  rewrite IH by (intros y Hy; apply H; right; exact Hy). reflexivity.
Qed.

Lemma comprehension_raise {A B} (f : A -> result B) (e : exn) (x : A) (l : list A) :
  f x = Raise e -> comprehension f (x :: l) = Raise e.
Proof. intros H. simpl. rewrite H. reflexivity. Qed.

Lemma comprehension_length {A B} (f : A -> result B) (l : list A) (l' : list B) :
  comprehension f l = Ok l' -> length l' = length l.
Proof.
  revert l'. induction l as [|x l IH]; intros l' H; simpl in H.
  - injection H as <-. reflexivity.
  - destruct (f x) as [y|e]; simpl in H; [|discriminate].
    destruct (comprehension f l) as [ys|e]; simpl in H; [|discriminate].
    injection H as <-. simpl. f_equal. apply IH. reflexivity.
Qed.

(** [update_current_stats] unfolded: the three ways a call can end. *)
Lemma update_current_stats_run (snap : Snapshot.t) (s : Monitor) :
  update_current_stats snap s =
  match next_per_core (Snapshot.cpu snap) s with
  | Raise e => (s, Raise e)
  | Ok per_core =>
      match per_core with
      | [] => (set_cpu_per_core_avg [] s, Raise ZeroDivisionError)
      | _ :: _ => (updated snap per_core s, Ok tt)
      end
  end.
Proof.
  unfold update_current_stats, next_per_core, bind, get, lift, modify.
  destruct s as [pc ta ra rmin rmax bw du dt n]; simpl.
  set (r := match pc with
            | [] => Ok (Snapshot.cpu snap)
            | _ :: _ => _
            end).
  destruct r as [per_core|e]; [|reflexivity].
  destruct per_core as [|c per_core]; [reflexivity|].
  rewrite truediv_pos by (simpl; lia).
  unfold updated, next_ram_avg; simpl.
  destruct (falsy ra); simpl; [reflexivity|].
  rewrite truediv_succ. reflexivity.
Qed.

Lemma getitem_lt {A} (l : list A) (i : nat) (d : A) :
  (i < length l)%nat -> getitem l i = Ok (nth i l d).
Proof.
  intros H. unfold getitem.
  rewrite (nth_error_nth' l d H). reflexivity.
Qed.

Lemma next_per_core_ok (cpu : list Q) (s : Monitor) :
  cpu_per_core_avg s = [] \/ (length cpu <= length (cpu_per_core_avg s))%nat ->
  exists per_core,
    next_per_core cpu s = Ok per_core /\ length per_core = length cpu.
Proof.
  unfold next_per_core. intros [H|H].
  - rewrite H. exists cpu. split; reflexivity.
  - destruct (cpu_per_core_avg s) as [|a avg] eqn:E.
    + exists cpu. split; reflexivity.
    + rewrite <- E in *.
      eexists. split.
      * apply comprehension_ok with
          (g := fun i => (nth i (cpu_per_core_avg s) 0 * of_nat (sample_count s)
                          + nth i cpu 0) / of_nat (sample_count s + 1)).
        intros i Hi. apply in_seq in Hi.
        rewrite (getitem_lt _ i 0) by lia. simpl.
        rewrite (getitem_lt _ i 0) by lia. simpl.
        apply truediv_succ.
      * rewrite length_map, length_seq. reflexivity.
Qed.

Lemma next_per_core_empty (s : Monitor) : next_per_core [] s = Ok [].
Proof.
  unfold next_per_core. destruct (cpu_per_core_avg s); reflexivity.
Qed.

(** ** C10: the unguarded division of [update_current_stats] *)

(** C10, as amended.  The call divides by the length of the per-core list
    without a guard.  For a snapshot whose cpu list is non-empty, fed to an
    accumulator whose per-core list is empty or at least as long as the
    snapshot's, the call returns and leaves a per-core list of positive
    length (the divisor).  For a snapshot whose cpu list is empty the call
    raises [ZeroDivisionError], on a fresh accumulator and on any other. *)
Theorem update_divides_by_core_count :
  (forall (snap : Snapshot.t) (s : Monitor),
      Snapshot.cpu snap <> [] ->
      cpu_per_core_avg s = [] \/
      (length (Snapshot.cpu snap) <= length (cpu_per_core_avg s))%nat ->
      exists s',
        update_current_stats snap s = (s', Ok tt) /\
        (0 < length (cpu_per_core_avg s'))%nat /\
        length (cpu_per_core_avg s') = length (Snapshot.cpu snap)) /\
  (forall (snap : Snapshot.t) (s : Monitor),
      Snapshot.cpu snap = [] ->
      snd (update_current_stats snap s) = Raise ZeroDivisionError).
Proof.
  split.
  - intros snap s Hne Hlen.
    destruct (next_per_core_ok (Snapshot.cpu snap) s Hlen) as [pc [Hpc Hl]].
    rewrite update_current_stats_run, Hpc.
    destruct pc as [|c pc].
    + destruct (Snapshot.cpu snap); [congruence | discriminate].
    + eexists. split; [reflexivity|]. simpl. split; [lia | exact Hl].
  - intros snap s Hnil.
    rewrite update_current_stats_run, Hnil, next_per_core_empty. reflexivity.
Qed.

Lemma update_divides_by_core_count_witness :
  (exists s',
      update_current_stats (sample_snapshot [10; 20] 4) init = (s', Ok tt) /\
      (0 < length (cpu_per_core_avg s'))%nat /\
      length (cpu_per_core_avg s') = 2%nat) /\
  snd (update_current_stats (sample_snapshot [] 4) init) = Raise ZeroDivisionError.
Proof.
  split.
  - apply (proj1 update_divides_by_core_count (sample_snapshot [10; 20] 4) init).
    + discriminate.
    + left. reflexivity.
  - apply (proj2 update_divides_by_core_count (sample_snapshot [] 4) init).
    reflexivity.
Defined.

(** C10, as stated, fails: after a first snapshot with one core, a snapshot
    with two cores has a non-empty cpu list and yet the call raises
    [IndexError] (the comprehension reads [self.cpu_per_core_avg[1]]). *)
Lemma update_longer_cpu_list_raises :
  Snapshot.cpu (sample_snapshot [10; 20] 4) <> [] /\
  snd (update_current_stats (sample_snapshot [10; 20] 4)
         (fst (update_current_stats (sample_snapshot [10] 4) init)))
  = Raise IndexError.
Proof.
  split; [discriminate | vm_compute; reflexivity].
Qed.

(** ** C6: flushing an accumulator without samples *)

Lemma get_and_reset_stats_empty (os : Os) (s : Monitor) :
  sample_count s = 0%nat -> get_and_reset_stats os s = (s, Ok None).
Proof.
  intros H. unfold get_and_reset_stats, bind, get. rewrite H. reflexivity.
Qed.

Lemma push_to_file_empty (os : Os) (w : World) :
  sample_count (self w) = 0%nat -> push_to_file os w = (w, Ok tt).
Proof.
  intros H. unfold push_to_file, bind, on_self.
  rewrite (get_and_reset_stats_empty os _ H).
  destruct w; reflexivity.
Qed.

(** C6.  On an accumulator with [sample_count == 0], [get_and_reset_stats]
    returns [None] and [push_to_file] returns without touching anything:
    the accumulator and the three series files, the hourly one in
    particular, are what they were. *)
Theorem push_to_file_without_samples (os : Os) (w : World) :
  sample_count (self w) = 0%nat ->
  get_and_reset_stats os (self w) = (self w, Ok None) /\
  push_to_file os w = (w, Ok tt) /\
  monitor_1h_json (fst (push_to_file os w)) = monitor_1h_json w.
Proof.
  intros H.
  split; [apply get_and_reset_stats_empty; exact H|].
  rewrite (push_to_file_empty os w H). split; reflexivity.
Qed.

Lemma push_to_file_without_samples_witness :
  get_and_reset_stats sample_os init = (init, Ok None) /\
  push_to_file sample_os (mkWorld init None None None)
  = (mkWorld init None None None, Ok tt) /\
  monitor_1h_json (fst (push_to_file sample_os (mkWorld init None None None))) = None.
Proof.
  apply (push_to_file_without_samples sample_os (mkWorld init None None None)).
  reflexivity.
Defined.

(** ** C5: the running RAM average stays between the running extrema *)

(** Splits on the comparisons of the goal and closes it by linear arithmetic. *)
Ltac split_order :=
  simpl;
  repeat match goal with
         | |- context [Qltb ?a ?b] =>
             lazymatch a with context [Qltb _ _] => fail | _ => idtac end;
             lazymatch b with context [Qltb _ _] => fail | _ => idtac end;
             destruct (Qltb a b) eqn:?; simpl
         end;
  order_facts; try exact I; try contradiction; try lra.

Lemma py_min_le_l (a b : xQ) : xle (py_min a b) a.
Proof. unfold py_min. destruct a, b; split_order. Qed.

Lemma py_min_le_r (a b : xQ) : xle (py_min a b) b.
Proof. unfold py_min. destruct a, b; split_order. Qed.

Lemma py_maxQ_ge_l (a b : Q) : a <= py_maxQ a b.
Proof. unfold py_maxQ. split_order. Qed.

Lemma py_maxQ_ge_r (a b : Q) : b <= py_maxQ a b.
Proof. unfold py_maxQ. split_order. Qed.

Lemma xle_trans_fin (a : xQ) (x y : Q) : xle a (Fin x) -> x <= y -> xle a (Fin y).
Proof.
  destruct a as [|z|]; simpl; intros H1 H2; try exact I; try contradiction.
  eapply Qle_trans; eassumption.
Qed.

(** A weighted mean of two numbers lies between any common bounds. *)
Lemma weighted_mean_ge (lo avg x : Q) (n : nat) :
  lo <= avg -> lo <= x -> lo <= (avg * of_nat n + x) / of_nat (n + 1).
Proof.
  intros H1 H2.
  assert (Hn : 0 <= of_nat n) by apply of_nat_nonneg.
  assert (Hp : 0 < of_nat (n + 1)) by (apply of_nat_pos; lia).
  pose proof (of_nat_succ n) as Hs.
  apply Qle_shift_div_l; [exact Hp|]. rewrite Hs. nra.
Qed.

Lemma weighted_mean_le (hi avg x : Q) (n : nat) :
  avg <= hi -> x <= hi -> (avg * of_nat n + x) / of_nat (n + 1) <= hi.
Proof.
  intros H1 H2.
  assert (Hn : 0 <= of_nat n) by apply of_nat_nonneg.
  assert (Hp : 0 < of_nat (n + 1)) by (apply of_nat_pos; lia).
  pose proof (of_nat_succ n) as Hs.
  apply Qle_shift_div_r; [exact Hp|]. rewrite Hs. nra.
Qed.

Lemma updated_ram_bounds (snap : Snapshot.t) (per_core : list Q) (s : Monitor) :
  falsy (ram_avg s) = true \/ ram_bounds s ->
  ram_bounds (updated snap per_core s).
Proof.
  intros H. unfold ram_bounds, updated, next_ram_avg; simpl.
  set (x := Snapshot.used (Snapshot.ram snap)).
  destruct (falsy (ram_avg s)) eqn:E.
  - split; [apply py_min_le_r | apply py_maxQ_ge_r].
  - destruct H as [H|[Hlo Hhi]]; [discriminate|].
    split.
    + pose proof (py_min_le_l (ram_min s) (Fin x)) as Hl.
      pose proof (py_min_le_r (ram_min s) (Fin x)) as Hr.
      destruct (py_min (ram_min s) (Fin x)) as [|m|]; simpl in *;
        [exact I | | contradiction].
      apply weighted_mean_ge; [|exact Hr].
      destruct (ram_min s) as [|m0|]; simpl in Hlo, Hl; try contradiction.
      apply Qle_trans with m0; assumption.
    + apply weighted_mean_le; [|apply py_maxQ_ge_r].
      eapply Qle_trans; [exact Hhi | apply py_maxQ_ge_l].
Qed.

Lemma states_after_ram_bounds (snaps : list Snapshot.t) (s : Monitor) :
  falsy (ram_avg s) = true \/ ram_bounds s ->
  Forall ram_bounds (states_after snaps s).
Proof.
  revert s. induction snaps as [|snap snaps IH]; intros s H; simpl.
  - constructor.
  - rewrite update_current_stats_run.
    destruct (next_per_core (Snapshot.cpu snap) s) as [pc|e]; [|constructor].
    destruct pc as [|c pc]; [constructor|].
    pose proof (updated_ram_bounds snap (c :: pc) s H) as Hb.
    constructor; [exact Hb|]. apply IH. right. exact Hb.
Qed.

(** C5, as amended.  In exact arithmetic: feed any sequence of snapshots to
    a fresh accumulator; every state reached after a call of
    [update_current_stats] that returns satisfies
    [ram_min <= ram_avg <= ram_max]. *)
Theorem ram_avg_between_extrema (snaps : list Snapshot.t) :
  Forall ram_bounds (states_after snaps init).
Proof.
  apply states_after_ram_bounds. left. reflexivity.
Qed.

(** C5, as stated, fails on the floats of the program: after three RAM
    readings of 0.1 the running average is (0.1 * 2 + 0.1) / 3, which rounds
    to 0.10000000000000002, above [ram_max == 0.1]. *)
Lemma binary64_ram_avg_exceeds_ram_max :
  let s := Binary64.update_ram Binary64.tenth
             (Binary64.update_ram Binary64.tenth
                (Binary64.update_ram Binary64.tenth Binary64.init)) in
  Binary64.sample_count s = 3%nat /\
  Binary64.ram_min s = Binary64.tenth /\
  Binary64.ram_max s = Binary64.tenth /\
  PrimFloat.ltb (Binary64.ram_max s) (Binary64.ram_avg s) = true.
Proof.
  cbv zeta. repeat split; vm_compute; reflexivity.
Qed.

(** The run is not cut short when every snapshot has the same, positive,
    number of cores: then every call returns. *)
Lemma states_after_length (k : nat) (snaps : list Snapshot.t) (s : Monitor) :
  (0 < k)%nat ->
  Forall (fun snap => length (Snapshot.cpu snap) = k) snaps ->
  cpu_per_core_avg s = [] \/ length (cpu_per_core_avg s) = k ->
  length (states_after snaps s) = length snaps.
Proof.
  intros Hk. revert s. induction snaps as [|snap snaps IH]; intros s Hall Hs; simpl.
  - reflexivity.
  - inversion Hall as [|? ? Hsnap Hrest]; subst.
    destruct (next_per_core_ok (Snapshot.cpu snap) s) as [pc [Hpc Hl]].
    { destruct Hs as [Hs|Hs]; [left; exact Hs | right; lia]. }
    rewrite update_current_stats_run, Hpc.
    destruct pc as [|c pc]; [simpl in Hl; lia|].
    simpl. f_equal. apply IH; [exact Hrest|].
    right. simpl. simpl in Hl. exact Hl.
Qed.

Example states_after_three_samples :
  length (states_after [sample_snapshot [10; 20] 4; sample_snapshot [30; 40] 2;
                        sample_snapshot [50; 60] 9] init) = 3%nat.
Proof. reflexivity. Qed.

(** ** C7: the running RAM average against the arithmetic mean *)

(** C7 fails on the code.  [update_current_stats] takes [not self.ram_avg]
    for "no sample yet", so a running average that is zero restarts the
    average: after the RAM readings 0 and 4 the call returns with
    [ram_avg == 4], while their arithmetic mean is 2. *)
Theorem ram_avg_restarts_at_zero :
  exists s,
    feed [sample_snapshot [10] 0; sample_snapshot [10] 4] init = (s, Ok tt) /\
    sample_count s = 2%nat /\
    ram_avg s == 4 /\
    mean [0; 4] == 2 /\
    ~ ram_avg s == mean [0; 4].
Proof.
  eexists. split; [vm_compute; reflexivity|].
  split; [reflexivity|].
  split; [reflexivity|].
  split; [reflexivity|].
  simpl. intros H. vm_compute in H. discriminate.
Qed.

Lemma sum_snoc (l : list Q) (x : Q) : sum (l ++ [x]) = sum l + x.
Proof. unfold sum. rewrite fold_left_app. reflexivity. Qed.

Lemma fold_left_Qplus_pos (l : list Q) (a : Q) :
  Forall (fun x => 0 < x) l -> 0 <= a ->
  a <= fold_left Qplus l a /\ (l <> [] -> 0 < fold_left Qplus l a).
Proof.
  revert a. induction l as [|x l IH]; intros a Hall Ha; simpl.
  - split; [apply Qle_refl | congruence].
  - inversion Hall as [|? ? Hx Hl]; subst.
    destruct (IH (a + x) Hl) as [H1 _]; [lra|].
    split; [lra | intros _; lra].
Qed.

Lemma mean_pos (l : list Q) : Forall (fun x => 0 < x) l -> l <> [] -> 0 < mean l.
Proof.
  intros Hall Hne. unfold mean.
  apply Qlt_shift_div_l.
  - apply of_nat_pos. destruct l; [congruence | simpl; lia].
  - destruct (fold_left_Qplus_pos l 0 Hall (Qle_refl 0)) as [_ H].
    specialize (H Hne). unfold sum. lra.
Qed.

Lemma updated_tracks_mean (snap : Snapshot.t) (pc : list Q) (s : Monitor) (l : list Q) :
  tracks_mean s l -> 0 < ram_used_of snap ->
  tracks_mean (updated snap pc s) (l ++ [ram_used_of snap]).
Proof.
  intros (Hn & Hall & Hnil & Hmean) Hx.
  unfold ram_used_of in *. set (x := Snapshot.used (Snapshot.ram snap)) in *.
  unfold tracks_mean, updated, next_ram_avg; simpl. fold x.
  split; [rewrite length_app, Hn; reflexivity|].
  split; [apply Forall_app; split; [exact Hall | constructor; [exact Hx | constructor]]|].
  split; [intros H; destruct l; discriminate|].
  intros _. unfold mean. rewrite sum_snoc, length_app. simpl length.
  destruct l as [|y l].
  - simpl. assert (E : ram_avg s == 0) by (apply Hnil; reflexivity).
    unfold falsy. destruct (Qeq_bool (ram_avg s) 0) eqn:F.
    + unfold sum; simpl. clearbody x. change (of_nat 1) with 1. field.
    + order_facts. contradiction.
  - assert (Hne : y :: l <> []) by discriminate.
    assert (E : ram_avg s == mean (y :: l)) by (apply Hmean; exact Hne).
    pose proof (mean_pos (y :: l) Hall Hne) as Hp.
    unfold falsy. destruct (Qeq_bool (ram_avg s) 0) eqn:F.
    + order_facts. lra.
    + rewrite Hn. rewrite E. unfold mean. clearbody x.
      assert (Hl : ~ of_nat (length (y :: l)) == 0).
      { pose proof (of_nat_pos (length (y :: l))) as P. simpl length in *.
        specialize (P ltac:(lia)). lra. }
      assert (Hl1 : ~ of_nat (length (y :: l) + 1) == 0).
      { pose proof (of_nat_pos (length (y :: l) + 1)) as P.
        specialize (P ltac:(lia)). lra. }
      field. split; assumption.
Qed.

Lemma feed_tracks_mean (snaps : list Snapshot.t) (s s' : Monitor) (l : list Q) :
  tracks_mean s l ->
  Forall (fun snap => 0 < ram_used_of snap) snaps ->
  feed snaps s = (s', Ok tt) ->
  tracks_mean s' (l ++ map ram_used_of snaps).
Proof.
  revert s l. induction snaps as [|snap snaps IH]; intros s l Ht Hall Hrun.
  - simpl in Hrun. injection Hrun as <-. rewrite app_nil_r. exact Ht.
  - inversion Hall as [|? ? Hx Hrest]; subst.
    unfold feed in Hrun. simpl in Hrun. unfold bind in Hrun.
    rewrite update_current_stats_run in Hrun.
    destruct (next_per_core (Snapshot.cpu snap) s) as [pc|e]; [|discriminate].
    destruct pc as [|c pc]; [discriminate|].
    simpl map. replace (l ++ ram_used_of snap :: map ram_used_of snaps)
      with ((l ++ [ram_used_of snap]) ++ map ram_used_of snaps)
      by (rewrite <- app_assoc; reflexivity).
    apply (IH (updated snap (c :: pc) s)); [|exact Hrest|exact Hrun].
    apply updated_tracks_mean; assumption.
Qed.

(** Where C7 does hold: when every RAM reading is positive, the running
    average after [k >= 1] calls is the arithmetic mean of the [k] readings. *)
Lemma ram_avg_is_mean_of_positive_readings (snaps : list Snapshot.t) (s : Monitor) :
  snaps <> [] ->
  Forall (fun snap => 0 < ram_used_of snap) snaps ->
  feed snaps init = (s, Ok tt) ->
  ram_avg s == mean (map ram_used_of snaps).
Proof.
  intros Hne Hall Hrun.
  assert (Ht : tracks_mean init []).
  { split; [reflexivity|]. split; [constructor|].
    split; [reflexivity | congruence]. }
  destruct (feed_tracks_mean snaps init s [] Ht Hall Hrun) as (_ & _ & _ & H).
  apply H. simpl. destruct snaps; [congruence | discriminate].
Qed.

(** ** The loop of [_merge_monitor_records] in closed form *)

Lemma add_prefix_length (sums vals : list Q) :
  length (add_prefix sums vals) = length sums.
Proof.
  revert vals. induction sums as [|s sums IH]; intros [|v vals]; simpl; auto.
Qed.

Lemma iadd_item_middle (pre post : list Q) (s v : Q) :
  iadd_item (pre ++ s :: post) (length pre) v = Ok (pre ++ (s + v) :: post).
Proof.
  assert (E : nth_error (pre ++ s :: post) (length pre) = Some s).
  { rewrite nth_error_app2 by lia. rewrite Nat.sub_diag. reflexivity. }
  assert (F : firstn (length pre) (pre ++ s :: post) = pre).
  { rewrite firstn_app, Nat.sub_diag, firstn_all. simpl. apply app_nil_r. }
  assert (S : skipn (S (length pre)) (pre ++ s :: post) = post).
  { replace (pre ++ s :: post) with ((pre ++ [s]) ++ post)
      by (rewrite <- app_assoc; reflexivity).
    replace (Datatypes.S (length pre)) with (length (pre ++ [s]))
      by (rewrite length_app; simpl; lia).
    rewrite skipn_app, skipn_all, Nat.sub_diag. reflexivity. }
  unfold iadd_item, getitem, setitem. rewrite E. cbn [rbind].
  rewrite F, S. reflexivity.
Qed.

Lemma rfold_iadd_item (vals pre sums : list Q) :
  (length vals <= length sums)%nat ->
  rfold (fun sums iv => iadd_item sums (fst iv) (snd iv))
        (enumerate_from (length pre) vals) (pre ++ sums)
  = Ok (pre ++ add_prefix sums vals).
Proof.
  revert pre sums. induction vals as [|v vals IH]; intros pre sums Hlen; simpl.
  - destruct sums; reflexivity.
  - destruct sums as [|s sums]; [simpl in Hlen; lia|].
    simpl. rewrite iadd_item_middle. simpl.
    replace (pre ++ (s + v) :: sums) with ((pre ++ [s + v]) ++ sums)
      by (rewrite <- app_assoc; reflexivity).
    replace (S (length pre)) with (length (pre ++ [s + v]))
      by (rewrite length_app; simpl; lia).
    rewrite IH by (simpl in Hlen; lia).
    rewrite <- app_assoc. reflexivity.
Qed.

Lemma rfold_iadd_item_raises (vals pre sums : list Q) :
  (length sums < length vals)%nat ->
  rfold (fun sums iv => iadd_item sums (fst iv) (snd iv))
        (enumerate_from (length pre) vals) (pre ++ sums)
  = Raise IndexError.
Proof.
  revert pre sums. induction vals as [|v vals IH]; intros pre sums Hlen; simpl.
  - simpl in Hlen. lia.
  - destruct sums as [|s sums].
    + unfold iadd_item, getitem. rewrite app_nil_r.
      rewrite (proj2 (nth_error_None pre (length pre))) by lia. reflexivity.
    + rewrite iadd_item_middle. simpl.
      replace (pre ++ (s + v) :: sums) with ((pre ++ [s + v]) ++ sums)
        by (rewrite <- app_assoc; reflexivity).
      replace (S (length pre)) with (length (pre ++ [s + v]))
        by (rewrite length_app; simpl; lia).
      apply IH. simpl in Hlen. lia.
Qed.

Lemma merge_step_ok (v : merge_locals) (r : AggregateRecord) :
  (length (cores r) <= length (cpu_per_core_sum v))%nat ->
  merge_step v r = Ok (merge_step_value v r).
Proof.
  intros H. unfold merge_step, enumerate.
  pose proof (rfold_iadd_item (cores r) [] (cpu_per_core_sum v) H) as E.
  simpl in E. unfold cores in E. rewrite E. reflexivity.
Qed.

Lemma merge_step_raises (v : merge_locals) (r : AggregateRecord) :
  (length (cpu_per_core_sum v) < length (cores r))%nat ->
  merge_step v r = Raise IndexError.
Proof.
  intros H. unfold merge_step, enumerate.
  pose proof (rfold_iadd_item_raises (cores r) [] (cpu_per_core_sum v) H) as E.
  simpl in E. unfold cores in E. rewrite E. reflexivity.
Qed.

Lemma rfold_merge_step_ok (records : list AggregateRecord) (v : merge_locals) :
  Forall (fun r => (length (cores r) <= length (cpu_per_core_sum v))%nat) records ->
  rfold merge_step records v = Ok (fold_left merge_step_value records v).
Proof.
  revert v. induction records as [|r records IH]; intros v Hall; simpl.
  - reflexivity.
  - inversion Hall as [|? ? Hr Hrest]; subst.
    rewrite merge_step_ok by exact Hr. simpl.
    apply IH. simpl. rewrite add_prefix_length. exact Hrest.
Qed.

(** [_merge_monitor_records] returns whenever the list is non-empty and no
    record has more cores than the first one. *)
Lemma merge_monitor_records_ok (first : AggregateRecord) (rest : list AggregateRecord)
  (merged_dt : string) :
  cores_fit (first :: rest) ->
  _merge_monitor_records (first :: rest) merged_dt
  = Ok (merge_result first (length (first :: rest)) merged_dt
          (fold_left merge_step_value (first :: rest) (merge_start first))).
Proof.
  intros Hfit. unfold _merge_monitor_records, getitem.
  cbn [nth_error rbind].
  fold (cores first). fold (merge_start first).
  rewrite rfold_merge_step_ok
    by (simpl; rewrite repeat_length; exact Hfit).
  cbn [rbind].
  set (v := fold_left merge_step_value (first :: rest) (merge_start first)).
  set (n := length (first :: rest)).
  assert (Hn : (0 < n)%nat) by (subst n; simpl; lia).
  rewrite (comprehension_ok _ (fun avg_core => round2 (avg_core / of_nat n)))
    by (intros x _; rewrite truediv_pos by exact Hn; reflexivity).
  cbn [rbind]. rewrite !truediv_pos by exact Hn. reflexivity.
Qed.

Lemma merge_monitor_records_empty (merged_dt : string) :
  _merge_monitor_records [] merged_dt = Raise IndexError.
Proof. reflexivity. Qed.

(** ** The hourly flush *)

Lemma get_and_reset_stats_flush (os : Os) (s : Monitor) :
  sample_count s <> 0%nat ->
  get_and_reset_stats os s = (init, Ok (Some (finalize os s))).
Proof.
  intros H. unfold get_and_reset_stats, bind, get.
  destruct (Nat.eqb_spec (sample_count s) 0) as [E|_]; [contradiction|].
  reflexivity.
Qed.

(** A rollup either leaves the world as it is or rewrites its own file. *)
Ltac rollup_cases :=
  repeat match goal with
         | |- context [rfold ?f ?l ?a] => destruct (rfold f l a)
         | |- context [comprehension ?f ?l] => destruct (comprehension f l)
         end;
  cbn [fst]; solve [left; reflexivity | right; eexists; reflexivity].

Lemma push_to_file_1day_writes (w : World) :
  fst (_push_to_file_1day w) = w \/
  exists l, fst (_push_to_file_1day w) = write_1day l w.
Proof.
  unfold _push_to_file_1day, bind, get, lift, modify, ret. cbv beta iota.
  destruct (monitor_1h_json w) as [[|r l]|]; cbv beta iota; rollup_cases.
Qed.

Lemma push_to_file_1month_writes (w : World) :
  fst (_push_to_file_1month w) = w \/
  exists l, fst (_push_to_file_1month w) = write_1month l w.
Proof.
  unfold _push_to_file_1month, bind, get, lift, modify, ret. cbv beta iota.
  destruct (monitor_1day_json w) as [[|r l]|]; cbv beta iota; rollup_cases.
Qed.

(** The rollups leave the accumulator and the hourly file alone. *)
Lemma push_to_file_1day_frame (w : World) :
  self (fst (_push_to_file_1day w)) = self w /\
  monitor_1h_json (fst (_push_to_file_1day w)) = monitor_1h_json w /\
  monitor_1month_json (fst (_push_to_file_1day w)) = monitor_1month_json w.
Proof.
  destruct (push_to_file_1day_writes w) as [E|[l E]]; rewrite E;
    repeat split; reflexivity.
Qed.

Lemma push_to_file_1month_frame (w : World) :
  self (fst (_push_to_file_1month w)) = self w /\
  monitor_1h_json (fst (_push_to_file_1month w)) = monitor_1h_json w /\
  monitor_1day_json (fst (_push_to_file_1month w)) = monitor_1day_json w.
Proof.
  destruct (push_to_file_1month_writes w) as [E|[l E]]; rewrite E;
    repeat split; reflexivity.
Qed.

(** What a flush with samples writes to the hourly file, whether or not the
    rollups that follow return. *)
Lemma push_to_file_hourly (os : Os) (w : World) (data : list AggregateRecord) :
  sample_count (self w) <> 0%nat ->
  merge_or_append (load_or_empty (monitor_1h_json w)) (finalize os (self w)) = Ok data ->
  monitor_1h_json (fst (push_to_file os w)) = Some (to_write data).
Proof.
  intros Hn Hm. unfold push_to_file, bind, on_self.
  rewrite (get_and_reset_stats_flush os _ Hn).
  unfold get, lift. cbn [self monitor_1h_json]. rewrite Hm.
  unfold modify.
  match goal with
  | |- context [_push_to_file_1day ?w1] =>
      pose proof (push_to_file_1day_frame w1) as (_ & F1 & _);
      destruct (_push_to_file_1day w1) as [w2 [[]|e]] eqn:E1; simpl in F1
  end.
  - destruct (push_to_file_1month_frame w2) as (_ & F2 & _).
    cbn [fst]. rewrite F2. exact F1.
  - exact F1.
Qed.

Lemma to_write_length (l : list AggregateRecord) :
  (length (to_write l) <= config.max1h_record_length)%nat.
Proof.
  unfold to_write.
  destruct (Nat.ltb_spec config.max1h_record_length (length l)) as [H|H].
  - rewrite length_firstn. lia.
  - exact H.
Qed.

(** Whatever a flush writes to the hourly file is within the limit. *)
Lemma hourly_file_within_limit (os : Os) (w : World) (data : list AggregateRecord) :
  sample_count (self w) <> 0%nat ->
  merge_or_append (load_or_empty (monitor_1h_json w)) (finalize os (self w)) = Ok data ->
  exists l,
    monitor_1h_json (fst (push_to_file os w)) = Some l /\
    (length l <= config.max1h_record_length)%nat.
Proof.
  intros Hn Hm. exists (to_write data).
  split; [apply push_to_file_hourly; assumption | apply to_write_length].
Qed.

Lemma getitem_last {A} (front : list A) (x : A) :
  getitem (front ++ [x]) (length (front ++ [x]) - 1) = Ok x.
Proof.
  unfold getitem. rewrite length_app. simpl.
  replace (length front + 1 - 1)%nat with (length front) by lia.
  rewrite nth_error_app2 by lia. rewrite Nat.sub_diag. reflexivity.
Qed.

Lemma setitem_last {A} (front : list A) (x y : A) :
  setitem (front ++ [x]) (length (front ++ [x]) - 1) y = Ok (front ++ [y]).
Proof.
  replace (length (front ++ [x]) - 1)%nat with (length front)
    by (rewrite length_app; simpl; lia).
  assert (E : nth_error (front ++ [x]) (length front) = Some x).
  { rewrite nth_error_app2 by lia. rewrite Nat.sub_diag. reflexivity. }
  assert (F : firstn (length front) (front ++ [x]) = front).
  { rewrite firstn_app, Nat.sub_diag, firstn_all. simpl. apply app_nil_r. }
  assert (S : skipn (S (length front)) (front ++ [x]) = []).
  { apply skipn_all2. rewrite length_app. simpl. lia. }
  unfold setitem. rewrite E, F, S. reflexivity.
Qed.

(** The two branches of [push_to_file] on a non-empty hourly series. *)
Lemma merge_or_append_same_hour (front : list AggregateRecord)
  (last new merged : AggregateRecord) (last_dt new_dt : DateTime.t) :
  DateTime.fromisoformat (datetime last) = Ok last_dt ->
  DateTime.fromisoformat (datetime new) = Ok new_dt ->
  DateTime.hour last_dt = DateTime.hour new_dt ->
  DateTime.date last_dt = DateTime.date new_dt ->
  _merge_monitor_records [last; new] (datetime last) = Ok merged ->
  merge_or_append (front ++ [last]) new = Ok (front ++ [merged]).
Proof.
  intros Hl Hn Hh Hd Hm. unfold merge_or_append.
  destruct (front ++ [last]) as [|a l] eqn:E; [destruct front; discriminate|].
  rewrite <- E. rewrite getitem_last. cbn [rbind].
  rewrite Hl, Hn. cbn [rbind].
  rewrite Hh, Nat.eqb_refl, Hd.
  assert (Hdd : DateTime.date_eqb (DateTime.date new_dt) (DateTime.date new_dt) = true).
  { unfold DateTime.date_eqb, DateTime.date. rewrite !Nat.eqb_refl. reflexivity. }
  rewrite Hdd. cbn [andb rbind]. rewrite Hm. cbn [rbind].
  apply setitem_last.
Qed.

Lemma merge_or_append_other_hour (front : list AggregateRecord)
  (last new : AggregateRecord) (last_dt new_dt : DateTime.t) :
  DateTime.fromisoformat (datetime last) = Ok last_dt ->
  DateTime.fromisoformat (datetime new) = Ok new_dt ->
  ((DateTime.hour last_dt =? DateTime.hour new_dt)%nat
   && DateTime.date_eqb (DateTime.date last_dt) (DateTime.date new_dt))%bool = false ->
  merge_or_append (front ++ [last]) new = Ok ((front ++ [last]) ++ [new]).
Proof.
  intros Hl Hn Hb. unfold merge_or_append.
  destruct (front ++ [last]) as [|a l] eqn:E; [destruct front; discriminate|].
  rewrite <- E. rewrite getitem_last. cbn [rbind].
  rewrite Hl, Hn. cbn [rbind]. rewrite Hb. reflexivity.
Qed.

(** ** C8: two flushes within one calendar hour *)

(** C8.  A flush that finds, as last record of the hourly series, a record
    of the same calendar hour and date as the new one (the record of the
    earlier flush) appends nothing: the last record is replaced by the merge
    of the two, keyed with the existing record's datetime, and the series
    keeps its length.  The series is within the retention limit and the new
    record has no more cores than the existing one. *)
Theorem same_hour_flush_merges_in_place (os : Os) (w : World)
  (front : list AggregateRecord) (last : AggregateRecord)
  (last_dt new_dt : DateTime.t) :
  sample_count (self w) <> 0%nat ->
  monitor_1h_json w = Some (front ++ [last]) ->
  (length (front ++ [last]) <= config.max1h_record_length)%nat ->
  DateTime.fromisoformat (datetime last) = Ok last_dt ->
  DateTime.fromisoformat (utcnow_isoformat os) = Ok new_dt ->
  DateTime.hour last_dt = DateTime.hour new_dt ->
  DateTime.date last_dt = DateTime.date new_dt ->
  (length (cpu_per_core_avg (self w)) <= length (cores last))%nat ->
  exists merged,
    _merge_monitor_records [last; finalize os (self w)] (datetime last) = Ok merged /\
    datetime merged = datetime last /\
    monitor_1h_json (fst (push_to_file os w)) = Some (front ++ [merged]) /\
    length (front ++ [merged]) = length (front ++ [last]).
Proof.
  intros Hn Hfile Hlen Hl Hnew Hh Hd Hc.
  assert (Hfit : cores_fit [last; finalize os (self w)]).
  { simpl. constructor; [lia|]. constructor; [|constructor].
    unfold cores at 1. simpl. rewrite length_map. exact Hc. }
  pose proof (merge_monitor_records_ok last [finalize os (self w)] (datetime last) Hfit)
    as Hm.
  set (merged := merge_result last (length [last; finalize os (self w)]) (datetime last)
                   (fold_left merge_step_value [last; finalize os (self w)]
                      (merge_start last))) in *.
  exists merged. split; [exact Hm|]. split; [reflexivity|].
  split.
  - rewrite (push_to_file_hourly os w (front ++ [merged])); [| exact Hn |].
    + unfold to_write.
      destruct (Nat.ltb_spec config.max1h_record_length (length (front ++ [merged])))
        as [H|H]; [|reflexivity].
      rewrite length_app in H, Hlen. simpl in H, Hlen. lia.
    + rewrite Hfile. simpl load_or_empty.
      apply (merge_or_append_same_hour front last _ _ last_dt new_dt);
        try assumption.
  - rewrite !length_app. reflexivity.
Qed.

Lemma same_hour_flush_merges_in_place_witness :
  exists merged,
    _merge_monitor_records
      [first_flush_record; finalize sample_os (self world_between_flushes)]
      (datetime first_flush_record) = Ok merged /\
    datetime merged = datetime first_flush_record /\
    monitor_1h_json (fst (push_to_file sample_os world_between_flushes))
    = Some ([] ++ [merged]) /\
    length ([] ++ [merged]) = length ([] ++ [first_flush_record]).
Proof.
  apply (same_hour_flush_merges_in_place sample_os world_between_flushes []
           first_flush_record
           (DateTime.mk 2025 1 2 3 ":10:00.000001+00:00")
           (DateTime.mk 2025 1 2 3 ":59:59.000001+00:00")).
  - vm_compute. discriminate.
  - vm_compute. reflexivity.
  - vm_compute. lia.
  - vm_compute. reflexivity.
  - vm_compute. reflexivity.
  - reflexivity.
  - reflexivity.
  - vm_compute. lia.
Defined.

(** ** C2: the hourly truncation *)

(** C2.  When the hourly series, after the new record has been appended, is
    longer than [max1h_record_length], the flush persists the first
    [max1h_record_length] records of the appended list: that is the old
    series cut to the limit, so the record just appended is the one left
    out, and the persisted series has exactly the limit's length. *)
Theorem hourly_flush_keeps_first_records (os : Os) (w : World)
  (front : list AggregateRecord) (last : AggregateRecord)
  (last_dt new_dt : DateTime.t) :
  sample_count (self w) <> 0%nat ->
  monitor_1h_json w = Some (front ++ [last]) ->
  DateTime.fromisoformat (datetime last) = Ok last_dt ->
  DateTime.fromisoformat (utcnow_isoformat os) = Ok new_dt ->
  ((DateTime.hour last_dt =? DateTime.hour new_dt)%nat
   && DateTime.date_eqb (DateTime.date last_dt) (DateTime.date new_dt))%bool = false ->
  (config.max1h_record_length
   < length ((front ++ [last]) ++ [finalize os (self w)]))%nat ->
  monitor_1h_json (fst (push_to_file os w))
  = Some (firstn config.max1h_record_length
            ((front ++ [last]) ++ [finalize os (self w)])) /\
  firstn config.max1h_record_length ((front ++ [last]) ++ [finalize os (self w)])
  = firstn config.max1h_record_length (front ++ [last]) /\
  length (firstn config.max1h_record_length
            ((front ++ [last]) ++ [finalize os (self w)]))
  = config.max1h_record_length /\
  (length (firstn config.max1h_record_length
             ((front ++ [last]) ++ [finalize os (self w)]))
   <= config.max1h_record_length)%nat.
Proof.
  intros Hn Hfile Hl Hnew Hb Hlen.
  assert (Hw : monitor_1h_json (fst (push_to_file os w))
               = Some (to_write ((front ++ [last]) ++ [finalize os (self w)]))).
  { apply push_to_file_hourly; [exact Hn|].
    rewrite Hfile. simpl load_or_empty.
    apply (merge_or_append_other_hour front last _ last_dt new_dt); assumption. }
  unfold to_write in Hw.
  apply Nat.ltb_lt in Hlen. rewrite Hlen in Hw. apply Nat.ltb_lt in Hlen.
  split; [exact Hw|].
  assert (Hlen' : (config.max1h_record_length <= length (front ++ [last]))%nat).
  { rewrite length_app in Hlen. cbn [length] in Hlen. lia. }
  split; [|split].
  - rewrite firstn_app.
    replace (config.max1h_record_length - length (front ++ [last]))%nat with 0%nat by lia.
    cbn [firstn]. apply app_nil_r.
  - rewrite length_firstn. lia.
  - rewrite length_firstn. lia.
Qed.

Lemma hourly_flush_keeps_first_records_witness :
  monitor_1h_json (fst (push_to_file after_window_os world_with_full_window))
  = Some (firstn config.max1h_record_length
            ((removelast full_week ++ [full_week_last])
             ++ [finalize after_window_os (self world_with_full_window)])) /\
  firstn config.max1h_record_length
    ((removelast full_week ++ [full_week_last])
     ++ [finalize after_window_os (self world_with_full_window)])
  = firstn config.max1h_record_length (removelast full_week ++ [full_week_last]) /\
  length (firstn config.max1h_record_length
            ((removelast full_week ++ [full_week_last])
             ++ [finalize after_window_os (self world_with_full_window)]))
  = config.max1h_record_length /\
  (length (firstn config.max1h_record_length
             ((removelast full_week ++ [full_week_last])
              ++ [finalize after_window_os (self world_with_full_window)]))
   <= config.max1h_record_length)%nat.
Proof.
  apply (hourly_flush_keeps_first_records after_window_os world_with_full_window
           (removelast full_week) full_week_last
           (DateTime.mk 2025 1 7 23 ":00:00+00:00")
           (DateTime.mk 2025 1 8 0 ":00:00.000001+00:00")).
  - vm_compute. discriminate.
  - vm_compute. reflexivity.
  - vm_compute. reflexivity.
  - vm_compute. reflexivity.
  - vm_compute. reflexivity.
  - vm_compute. lia.
Defined.

(** C8 next to C2: on a full window the record of the first flush is cut
    off, so a second flush in the same hour does not find it; the series
    stays what it was, and its last record is the one of 7 January, 23:00. *)
Example same_hour_flushes_on_full_window :
  let second_os :=
    {| utcnow_isoformat := "2025-01-08T00:50:00.000001+00:00";
       virtual_memory_total := 34359738368 |} in
  let w1 := fst (push_to_file after_window_os world_with_full_window) in
  let w2 :=
    fst (push_to_file second_os
           (fst (on_self (update_current_stats (sample_snapshot [30; 40] 2)) w1))) in
  monitor_1h_json w1 = Some full_week /\
  monitor_1h_json w2 = Some full_week /\
  last full_week full_week_last = full_week_last.
Proof.
  cbv zeta. split; [|split]; vm_compute; reflexivity.
Qed.

(** C8 fails on a full window.  The hourly file holds
    [max1h_record_length] records, the last one of 7 January, 23:00.  A
    sample is taken and flushed at 00:00 on 8 January, another sample is
    taken and flushed at 00:50 of the same hour; both flushes return.  The
    record of the first flush is appended and cut off by the truncation, so
    the second flush finds the record of 23:00 last, appends and is cut off
    as well: the file is what it was, its last record is still the one of
    23:00, and no record of the file carries the datetime of the first
    flush, under which the merge of the two flushed records would be
    stored. *)
Lemma same_hour_flushes_leave_no_merged_record :
  let second_os :=
    {| utcnow_isoformat := "2025-01-08T00:50:00.000001+00:00";
       virtual_memory_total := 34359738368 |} in
  let flushed1 := finalize after_window_os (self world_with_full_window) in
  let out1 := push_to_file after_window_os world_with_full_window in
  let sampled :=
    fst (on_self (update_current_stats (sample_snapshot [30; 40] 2)) (fst out1)) in
  let flushed2 := finalize second_os (self sampled) in
  let out2 := push_to_file second_os sampled in
  let bucket := fun dt => (DateTime.date dt, DateTime.hour dt) in
  snd out1 = Ok tt /\ snd out2 = Ok tt /\
  result_map bucket (DateTime.fromisoformat (datetime flushed1)) = Ok ((2025, 1, 8), 0)%nat /\
  result_map bucket (DateTime.fromisoformat (datetime flushed2)) = Ok ((2025, 1, 8), 0)%nat /\
  length full_week = config.max1h_record_length /\
  monitor_1h_json world_with_full_window = Some full_week /\
  monitor_1h_json (fst out2) = Some full_week /\
  datetime (last full_week flushed1) = "2025-01-07T23:00:00+00:00"%string /\
  exists merged,
    _merge_monitor_records [flushed1; flushed2] (datetime flushed1) = Ok merged /\
    datetime merged = "2025-01-08T00:00:00.000001+00:00"%string /\
    existsb (fun r => String.eqb (datetime r) (datetime merged)) full_week = false.
Proof.
  cbv zeta.
  repeat match goal with
         | |- _ /\ _ => split
         end; try (vm_compute; reflexivity).
  eexists. split; [vm_compute; reflexivity|].
  split; vm_compute; reflexivity.
Qed.

(** ** Rounding and the folds respect numeric equality *)

Lemma round_half_even_comp (p q : Q) : p == q -> round_half_even p = round_half_even q.
Proof.
  intros H. unfold round_half_even.
  rewrite (Qfloor_comp p q H).
  assert (E : Qcompare (p - inject_Z (Qfloor q)) (1 # 2)
              = Qcompare (q - inject_Z (Qfloor q)) (1 # 2)).
  { apply Qcompare_comp; [rewrite H; reflexivity | reflexivity]. }
  rewrite E. reflexivity.
Qed.

Lemma round2_comp (p q : Q) : p == q -> round2 p = round2 q.
Proof.
  intros H. unfold round2. f_equal. apply round_half_even_comp.
  rewrite H. reflexivity.
Qed.

Lemma py_maxQ_comp (a a' b b' : Q) :
  a == a' -> b == b' -> py_maxQ a b == py_maxQ a' b'.
Proof.
  intros Ha Hb. unfold py_maxQ.
  destruct (Qltb a b) eqn:E, (Qltb a' b') eqn:E'; order_facts; lra.
Qed.

Lemma fold_left_Qplus_comp (l l' : list Q) (a a' : Q) :
  Forall2 Qeq l l' -> a == a' -> fold_left Qplus l a == fold_left Qplus l' a'.
Proof.
  intros H. revert a a'. induction H as [|x y l l' Hxy _ IH]; intros a a' Ha; simpl.
  - exact Ha.
  - apply IH. rewrite Ha, Hxy. reflexivity.
Qed.


(** ** The sums, maxima and minima the loop accumulates *)

Lemma fold_merge_step_value_fields (records : list AggregateRecord) (v : merge_locals) :
  let v' := fold_left merge_step_value records v in
  cpu_per_core_sum v' = fold_left add_prefix (map cores records) (cpu_per_core_sum v) /\
  cpu_total_sum v' = fold_left Qplus (map cpu_total_of records) (cpu_total_sum v) /\
  ram_avg_sum v' = fold_left Qplus (map ram_avg_of records) (ram_avg_sum v) /\
  merged_ram_min v' = fold_left py_min (map ram_min_of records) (merged_ram_min v) /\
  merged_ram_max v' = fold_left py_max (map ram_max_of records) (merged_ram_max v) /\
  merged_bandwidth_total v'
  = fold_left Qplus (map transfer_total_of records) (merged_bandwidth_total v) /\
  disk_used_max v' = fold_left py_maxQ (map disk_used_of records) (disk_used_max v).
Proof.
  revert v. induction records as [|r records IH]; intros v; simpl.
  - repeat split; reflexivity.
  - apply (IH (merge_step_value v r)).
Qed.

(** ** C9: one day of hourly records rolled up *)

Lemma group_same_date (key : string) (data acc : list AggregateRecord) :
  Forall (on_date key) data ->
  rfold (fun d r =>
           (dt <~ DateTime.fromisoformat (datetime r) ;;
            Ok (setdefault_append (DateTime.strftime_Ymd dt) r d))%py)
        data [(key, acc)]
  = Ok [(key, acc ++ data)].
Proof.
  revert acc. induction data as [|r data IH]; intros acc Hall; cbn [rfold].
  - rewrite app_nil_r. reflexivity.
  - inversion Hall as [|? ? [dt [Hp Hk]] Hrest]; subst.
    rewrite Hp. cbn [rbind setdefault_append]. rewrite String.eqb_refl.
    rewrite IH by exact Hrest. rewrite <- app_assoc. reflexivity.
Qed.

(** The daily rollup of an hourly series that lies within one date, when no
    daily record is stored yet. *)
Lemma push_to_file_1day_single_date (w : World) (key : string)
  (first d : AggregateRecord) (rest : list AggregateRecord) :
  monitor_1h_json w = Some (first :: rest) ->
  load_or_empty (monitor_1day_json w) = [] ->
  Forall (on_date key) (first :: rest) ->
  substring 0 10 (datetime first) = key ->
  _merge_monitor_records (first :: rest) key = Ok d ->
  _push_to_file_1day w = (write_1day [d] w, Ok tt).
Proof.
  intros Hfile Hday Hall Hsub Hm.
  unfold _push_to_file_1day, bind, get, lift, modify. cbv beta iota.
  rewrite Hfile, Hday.
  apply Forall_cons_iff in Hall. destruct Hall as [[dt [Hp Hk]] Hrest].
  cbn [rfold]. rewrite Hp. cbn [rbind setdefault_append].
  rewrite Hk, (group_same_date _ rest [first] Hrest).
  cbn [fold_left values map snd app comprehension getitem nth_error rbind].
  rewrite Hsub, Hm. reflexivity.
Qed.



(** The three days of the test module rolled up at once: the daily series
    is sorted by date and its records for 2 and 3 January carry the figures
    the test asserts. *)
Example test_push_to_file_1day_aggregates :
  let w := fst (_push_to_file_1day (mkWorld init (Some (day1 ++ day2 ++ day3)) None None)) in
  let days := load_or_empty (monitor_1day_json w) in
  map datetime days = ["2025-01-01"; "2025-01-02"; "2025-01-03"]%string /\
  Forall2 Qeq (map cpu_total_of (last_n 2 days)) [41.5; 61.5] /\
  Forall2 Qeq (map ram_avg_of (last_n 2 days)) [3.15; 4.15] /\
  Forall2 Qeq (map transfer_total_of (last_n 2 days)) [348; 300] /\
  Forall2 Qeq (map disk_used_of (last_n 2 days)) [45; 47].
Proof.
  cbv zeta. repeat match goal with |- _ /\ _ => split end;
    vm_compute; repeat constructor.
Qed.

(** The same figures in binary64, where the integers 30..53 and 3..26 and
    their sums are exact. *)
Example binary64_daily_record_figures :
  Binary64.merged_cpu_total_avg (map Binary64.of_nat (seq 30 24))
  = Binary64.hundredths 4150 /\
  Binary64.round2 (fold_left PrimFloat.add (map Binary64.of_nat (seq 3 24)) PrimFloat.zero)
  = Binary64.hundredths 34800.
Proof.
  split; vm_compute; reflexivity.
Qed.

(** Closes a conjunction of closed facts by evaluating each of them. *)
Ltac by_evaluation :=
  repeat match goal with
         | |- _ /\ _ => split
         end;
  vm_compute;
  solve [ reflexivity | repeat constructor | discriminate ].

(** ** C1: running a rollup a second time *)

(** C1 fails on the code.  The daily rollup reads the daily file it wrote:
    on the second run the stored record of 2025-01-02 joins the 24 hourly
    records of its own date and its [transfer_total] is added to theirs.
    With the hourly file unchanged, the first run writes 348 (the sum over
    the day) and the second run writes 696.  The monthly rollup does the
    same one level up: with the daily file unchanged, 348 and then 696. *)
Theorem rollup_rerun_adds_bandwidth_again :
  let w1 := fst (_push_to_file_1day rerun_world) in
  let w2 := fst (_push_to_file_1day w1) in
  let m1 := fst (_push_to_file_1month w1) in
  let m2 := fst (_push_to_file_1month m1) in
  (snd (_push_to_file_1day rerun_world) = Ok tt /\
   snd (_push_to_file_1day w1) = Ok tt /\
   monitor_1h_json w1 = monitor_1h_json rerun_world /\
   monitor_1h_json w2 = monitor_1h_json rerun_world /\
   map datetime (load_or_empty (monitor_1day_json w1)) = ["2025-01-02"%string] /\
   map datetime (load_or_empty (monitor_1day_json w2)) = ["2025-01-02"%string] /\
   Forall2 Qeq (map transfer_total_of (load_or_empty (monitor_1day_json w1))) [348] /\
   Forall2 Qeq (map transfer_total_of (load_or_empty (monitor_1day_json w2))) [696] /\
   monitor_1day_json w2 <> monitor_1day_json w1) /\
  (snd (_push_to_file_1month w1) = Ok tt /\
   snd (_push_to_file_1month m1) = Ok tt /\
   monitor_1day_json m1 = monitor_1day_json w1 /\
   monitor_1day_json m2 = monitor_1day_json w1 /\
   map datetime (load_or_empty (monitor_1month_json m1)) = ["2025-01"%string] /\
   map datetime (load_or_empty (monitor_1month_json m2)) = ["2025-01"%string] /\
   Forall2 Qeq (map transfer_total_of (load_or_empty (monitor_1month_json m1))) [348] /\
   Forall2 Qeq (map transfer_total_of (load_or_empty (monitor_1month_json m2))) [696] /\
   monitor_1month_json m2 <> monitor_1month_json m1).
Proof.
  cbv zeta. by_evaluation.
Qed.

(** ** C3: failures of the query functions *)

Section QueryFailures.

Variable tzinfo : Type.
Variable pytz_timezone : string -> option tzinfo.
Variable astimezone_strftime : tzinfo -> string -> DateTime.t -> string.

Let get_1h := _get_1h_monitor_records tzinfo pytz_timezone astimezone_strftime.
Let get_1day := _get_1day_monitor_records tzinfo pytz_timezone astimezone_strftime.

(** A zone name that does not resolve, once the series has been read. *)
Lemma hourly_query_invalid_timezone (os : Os) (tz : string) (n : nat) (w : World)
  (l : list AggregateRecord) :
  monitor_1h_json w = Some l ->
  pytz_timezone tz = None ->
  get_1h os tz n w = (w, Raise (ClientException ("Invalid Timezone: " ++ tz)%string)).
Proof.
  intros Hf Hz.
  unfold get_1h, _get_1h_monitor_records, bind, get, lift, ret, localize.
  cbv beta iota. rewrite Hf. cbv beta iota. rewrite Hf, Hz. reflexivity.
Qed.

Lemma daily_query_invalid_timezone (tz : string) (n : nat) (w : World)
  (l : list AggregateRecord) :
  monitor_1day_json w = Some l ->
  pytz_timezone tz = None ->
  get_1day tz n w = (w, Raise (ClientException ("Invalid Timezone: " ++ tz)%string)).
Proof.
  intros Hf Hz.
  unfold get_1day, _get_1day_monitor_records, bind, get, lift, localize.
  cbv beta iota. rewrite Hf, Hz. reflexivity.
Qed.

(** A missing daily or monthly file; for the daily series the file is
    looked for before the zone name is. *)
Lemma daily_query_no_data (tz : string) (n : nat) (w : World) :
  monitor_1day_json w = None ->
  get_1day tz n w = (w, Raise (ClientException "No Data")).
Proof.
  intros Hf. unfold get_1day, _get_1day_monitor_records, bind, get, raise.
  cbv beta iota. rewrite Hf. reflexivity.
Qed.

Lemma monthly_query_no_data (n : nat) (w : World) :
  monitor_1month_json w = None ->
  _get_1month_monitor_records n w = (w, Raise (ClientException "No Data")).
Proof.
  intros Hf. unfold _get_1month_monitor_records, bind, get, raise.
  cbv beta iota. rewrite Hf. reflexivity.
Qed.

(** C3 fails on the code in its last part.  With no hourly file and an
    accumulator without samples, [push_to_file] returns at once and writes
    nothing, so the [open] that follows raises [FileNotFoundError]: the
    hourly query fails, and not with a [ClientException]. *)
Theorem hourly_query_without_file_or_samples (os : Os) (tz : string) (n : nat)
  (w : World) :
  monitor_1h_json w = None ->
  sample_count (self w) = 0%nat ->
  get_1h os tz n w = (w, Raise FileNotFoundError).
Proof.
  intros Hf Hn.
  pose proof (push_to_file_empty os w Hn) as Hp.
  unfold get_1h, _get_1h_monitor_records, bind, get, raise.
  cbv beta iota. rewrite Hf, Hp. cbv beta iota. rewrite Hf. reflexivity.
Qed.

End QueryFailures.

Lemma hourly_query_without_file_or_samples_witness :
  _get_1h_monitor_records unit two_zones keep_stored sample_os "UTC" 24 (no_files init)
  = (no_files init, Raise FileNotFoundError).
Proof.
  apply (hourly_query_without_file_or_samples unit two_zones keep_stored
           sample_os "UTC" 24 (no_files init)); reflexivity.
Defined.

(** With samples in the accumulator the missing hourly file is created by
    the flush and the query returns its single record. *)
Example hourly_query_creates_file :
  let w := no_files (fst (update_current_stats (sample_snapshot [10; 20] 4) init)) in
  let r := _get_1h_monitor_records unit two_zones keep_stored sample_os "UTC" 24 w in
  monitor_1h_json (fst r) = Some [finalize sample_os (self w)] /\
  exists shown, snd r = Ok [shown].
Proof.
  cbv zeta. split; [vm_compute; reflexivity|].
  eexists. vm_compute. reflexivity.
Qed.

Example queries_with_unknown_zone :
  two_zones "Not/AZone" = None /\
  snd (_get_1h_monitor_records unit two_zones keep_stored sample_os "Not/AZone" 24
         (mkWorld init (Some day2) (Some []) None))
  = Raise (ClientException "Invalid Timezone: Not/AZone") /\
  snd (_get_1month_monitor_records 12 (mkWorld init (Some day2) (Some []) None))
  = Raise (ClientException "No Data").
Proof.
  by_evaluation.
Qed.

(** ** C4: the merge and the order of its inputs *)

(** Folding a step that commutes, over a rearranged list. *)
Section FoldPermutation.

Variables A B : Type.
Variable R : A -> A -> Prop.
Variable f : A -> B -> A.

Hypothesis R_refl : forall a, R a a.
Hypothesis R_trans : forall a b c, R a b -> R b c -> R a c.
Hypothesis f_proper : forall a a' x, R a a' -> R (f a x) (f a' x).
Hypothesis f_swap : forall a x y, R (f (f a x) y) (f (f a y) x).

Lemma fold_left_related (l : list B) (a a' : A) :
  R a a' -> R (fold_left f l a) (fold_left f l a').
Proof.
  revert a a'. induction l as [|x l IH]; intros a a' H; simpl.
  - exact H.
  - apply IH. apply f_proper. exact H.
Qed.

Lemma fold_left_permutation (l l' : list B) :
  Permutation l l' ->
  forall a a', R a a' -> R (fold_left f l a) (fold_left f l' a').
Proof.
  induction 1 as [|x l l' _ IH|x y l|l l' l'' _ IH1 _ IH2]; intros a a' H; simpl.
  - exact H.
  - apply IH. apply f_proper. exact H.
  - apply fold_left_related.
    apply R_trans with (f (f a x) y); [apply f_swap|].
    apply f_proper. apply f_proper. exact H.
  - apply R_trans with (fold_left f l' a').
    + apply IH1. exact H.
    + apply IH2. apply R_refl.
Qed.

End FoldPermutation.

Lemma xeq_refl (a : xQ) : xeq a a.
Proof. destruct a; simpl; try exact I. reflexivity. Qed.

Lemma xeq_trans (a b c : xQ) : xeq a b -> xeq b c -> xeq a c.
Proof.
  destruct a, b, c; simpl; intros H1 H2; try exact I; try contradiction.
  rewrite H1. exact H2.
Qed.

Lemma round2x_comp (a b : xQ) : xeq a b -> round2x a = round2x b.
Proof.
  destruct a, b; simpl; intros H; try reflexivity; try contradiction.
  f_equal. apply round2_comp. exact H.
Qed.

Lemma py_min_proper (a a' x : xQ) : xeq a a' -> xeq (py_min a x) (py_min a' x).
Proof.
  unfold py_min. destruct a, a', x; simpl; intros H; try contradiction; split_order.
Qed.

Lemma py_max_proper (a a' x : xQ) : xeq a a' -> xeq (py_max a x) (py_max a' x).
Proof.
  unfold py_max. destruct a, a', x; simpl; intros H; try contradiction; split_order.
Qed.

Lemma py_min_swap (a x y : xQ) : xeq (py_min (py_min a x) y) (py_min (py_min a y) x).
Proof.
  unfold py_min. destruct a, x, y; split_order.
Qed.

Lemma py_max_swap (a x y : xQ) : xeq (py_max (py_max a x) y) (py_max (py_max a y) x).
Proof.
  unfold py_max. destruct a, x, y; split_order.
Qed.

Lemma py_maxQ_swap (a x y : Q) : py_maxQ (py_maxQ a x) y == py_maxQ (py_maxQ a y) x.
Proof.
  unfold py_maxQ. split_order.
Qed.

Lemma Qplus_swap (a x y : Q) : a + x + y == a + y + x.
Proof. ring. Qed.

Lemma Forall2_Qeq_refl (l : list Q) : Forall2 Qeq l l.
Proof. induction l; constructor; [reflexivity | assumption]. Qed.

Lemma Forall2_Qeq_trans (l1 l2 l3 : list Q) :
  Forall2 Qeq l1 l2 -> Forall2 Qeq l2 l3 -> Forall2 Qeq l1 l3.
Proof.
  intros H. revert l3. induction H as [|x y l1 l2 Hxy _ IH]; intros l3 H'.
  - exact H'.
  - inversion H' as [|? z ? l3' Hyz Hrest]; subst.
    constructor; [rewrite Hxy; exact Hyz | apply IH; exact Hrest].
Qed.

Lemma add_prefix_proper (s s' x : list Q) :
  Forall2 Qeq s s' -> Forall2 Qeq (add_prefix s x) (add_prefix s' x).
Proof.
  intros H. revert x. induction H as [|a b s s' Hab Hs IH]; intros x.
  - constructor.
  - destruct x as [|v x]; simpl.
    + constructor; assumption.
    + constructor; [rewrite Hab; reflexivity | apply IH].
Qed.

Lemma add_prefix_swap (s x y : list Q) :
  Forall2 Qeq (add_prefix (add_prefix s x) y) (add_prefix (add_prefix s y) x).
Proof.
  revert x y. induction s as [|a s IH]; intros x y.
  - destruct x, y; constructor.
  - destruct x as [|u x], y as [|v y]; simpl.
    + apply Forall2_Qeq_refl.
    + apply Forall2_Qeq_refl.
    + apply Forall2_Qeq_refl.
    + constructor; [ring | apply IH].
Qed.

Lemma map_round2_comp (n : Q) (l l' : list Q) :
  Forall2 Qeq l l' ->
  map (fun avg_core => round2 (avg_core / n)) l
  = map (fun avg_core => round2 (avg_core / n)) l'.
Proof.
  induction 1 as [|x y l l' Hxy _ IH]; simpl; [reflexivity|].
  f_equal; [|exact IH]. apply round2_comp. rewrite Hxy. reflexivity.
Qed.

(** The local variables after the loop agree, whatever the order. *)
Lemma merge_locals_permutation (records records' : list AggregateRecord)
  (v : merge_locals) :
  Permutation records records' ->
  let a := fold_left merge_step_value records v in
  let b := fold_left merge_step_value records' v in
  Forall2 Qeq (cpu_per_core_sum a) (cpu_per_core_sum b) /\
  cpu_total_sum a == cpu_total_sum b /\
  ram_avg_sum a == ram_avg_sum b /\
  xeq (merged_ram_min a) (merged_ram_min b) /\
  xeq (merged_ram_max a) (merged_ram_max b) /\
  merged_bandwidth_total a == merged_bandwidth_total b /\
  disk_used_max a == disk_used_max b.
Proof.
  intros Hp. cbv zeta.
  destruct (fold_merge_step_value_fields records v)
    as (E1 & E2 & E3 & E4 & E5 & E6 & E7).
  destruct (fold_merge_step_value_fields records' v)
    as (F1 & F2 & F3 & F4 & F5 & F6 & F7).
  cbv zeta in *.
  rewrite E1, E2, E3, E4, E5, E6, E7, F1, F2, F3, F4, F5, F6, F7.
  assert (Hplus : forall (g : AggregateRecord -> Q) a,
             fold_left Qplus (map g records) a == fold_left Qplus (map g records') a).
  { intros g a.
    apply (fold_left_permutation Q Q Qeq Qplus); try reflexivity.
    - intros x y z H1 H2. rewrite H1. exact H2.
    - intros x y z H. rewrite H. reflexivity.
    - intros x y z. apply Qplus_swap.
    - apply Permutation_map. exact Hp. }
  repeat split.
  - apply (fold_left_permutation (list Q) (list Q) (Forall2 Qeq) add_prefix).
    + apply Forall2_Qeq_refl.
    + apply Forall2_Qeq_trans.
    + intros s s' x H. apply add_prefix_proper. exact H.
    + apply add_prefix_swap.
    + apply Permutation_map. exact Hp.
    + apply Forall2_Qeq_refl.
  - apply Hplus.
  - apply Hplus.
  - apply (fold_left_permutation xQ xQ xeq py_min).
    + apply xeq_refl.
    + apply xeq_trans.
    + apply py_min_proper.
    + apply py_min_swap.
    + apply Permutation_map. exact Hp.
    + apply xeq_refl.
  - apply (fold_left_permutation xQ xQ xeq py_max).
    + apply xeq_refl.
    + apply xeq_trans.
    + apply py_max_proper.
    + apply py_max_swap.
    + apply Permutation_map. exact Hp.
    + apply xeq_refl.
  - apply Hplus.
  - apply (fold_left_permutation Q Q Qeq py_maxQ).
    + intros x. reflexivity.
    + intros x y z H1 H2. rewrite H1. exact H2.
    + intros x y z H. apply py_maxQ_comp; [exact H | reflexivity].
    + apply py_maxQ_swap.
    + apply Permutation_map. exact Hp.
    + reflexivity.
Qed.

(** C4, as amended.  For a non-empty list of records that all have the same
    number of cores, and any rearrangement of it, the merge returns on both
    and gives the same per-core and total cpu averages, the same RAM
    average, minimum and maximum, the same disk usage and the same
    bandwidth total; the datetime of both results is the key supplied.
    [ram.total] and [disk.total] are those of the record that comes first
    in the list given. *)
Theorem merge_of_rearranged_records (k : nat) (key : string)
  (first first' : AggregateRecord) (rest rest' : list AggregateRecord) :
  Permutation (first :: rest) (first' :: rest') ->
  Forall (fun r => length (cores r) = k) (first :: rest) ->
  exists m m',
    _merge_monitor_records (first :: rest) key = Ok m /\
    _merge_monitor_records (first' :: rest') key = Ok m' /\
    cpu m = cpu m' /\
    Ram.avg_used (ram m) = Ram.avg_used (ram m') /\
    Ram.min_used (ram m) = Ram.min_used (ram m') /\
    Ram.max_used (ram m) = Ram.max_used (ram m') /\
    Disk.used (disk m) = Disk.used (disk m') /\
    bandwidth m = bandwidth m' /\
    datetime m = key /\ datetime m' = key /\
    Ram.total (ram m) = Ram.total (ram first) /\
    Ram.total (ram m') = Ram.total (ram first') /\
    Disk.total (disk m) = Disk.total (disk first) /\
    Disk.total (disk m') = Disk.total (disk first').
Proof.
  intros Hp Hall.
  assert (Hall' : Forall (fun r => length (cores r) = k) (first' :: rest')).
  { eapply Permutation_Forall; eassumption. }
  assert (Hfit : forall f l, Forall (fun r => length (cores r) = k) (f :: l) ->
                             cores_fit (f :: l)).
  { intros f l H. simpl.
    pose proof (Forall_inv H) as Hf. simpl in Hf.
    eapply Forall_impl; [|exact H]. simpl. intros r Hr. lia. }
  assert (Hstart : merge_start first' = merge_start first).
  { unfold merge_start.
    rewrite (Forall_inv Hall), (Forall_inv Hall'). reflexivity. }
  pose proof (merge_monitor_records_ok first rest key (Hfit _ _ Hall)) as Hm.
  pose proof (merge_monitor_records_ok first' rest' key (Hfit _ _ Hall')) as Hm'.
  rewrite Hstart in Hm'.
  rewrite <- (Permutation_length Hp) in Hm'.
  destruct (merge_locals_permutation _ _ (merge_start first) Hp)
    as (P1 & P2 & P3 & P4 & P5 & P6 & P7).
  set (n := length (first :: rest)) in *.
  set (a := fold_left merge_step_value (first :: rest) (merge_start first)) in *.
  set (b := fold_left merge_step_value (first' :: rest') (merge_start first)) in *.
  exists (merge_result first n key a), (merge_result first' n key b).
  split; [exact Hm|]. split; [exact Hm'|].
  unfold merge_result; cbn [cpu ram disk bandwidth datetime Ram.avg_used Ram.min_used
                              Ram.max_used Ram.total Disk.used Disk.total].
  split.
  { f_equal; [apply map_round2_comp; exact P1 |].
    apply round2_comp. rewrite P2. reflexivity. }
  split; [apply round2_comp; rewrite P3; reflexivity|].
  split; [apply round2x_comp; exact P4|].
  split; [apply round2x_comp; exact P5|].
  split; [apply round2_comp; exact P7|].
  split; [f_equal; apply round2_comp; exact P6|].
  repeat split; reflexivity.
Qed.

Lemma merge_of_rearranged_records_witness :
  exists m m',
    _merge_monitor_records [small_host; large_host] "2025-01-02" = Ok m /\
    _merge_monitor_records [large_host; small_host] "2025-01-02" = Ok m' /\
    cpu m = cpu m' /\
    Ram.avg_used (ram m) = Ram.avg_used (ram m') /\
    Ram.min_used (ram m) = Ram.min_used (ram m') /\
    Ram.max_used (ram m) = Ram.max_used (ram m') /\
    Disk.used (disk m) = Disk.used (disk m') /\
    bandwidth m = bandwidth m' /\
    datetime m = "2025-01-02"%string /\ datetime m' = "2025-01-02"%string /\
    Ram.total (ram m) = Ram.total (ram small_host) /\
    Ram.total (ram m') = Ram.total (ram large_host) /\
    Disk.total (disk m) = Disk.total (disk small_host) /\
    Disk.total (disk m') = Disk.total (disk large_host).
Proof.
  apply (merge_of_rearranged_records 2 "2025-01-02" small_host large_host
           [large_host] [small_host]).
  - apply perm_swap.
  - repeat constructor.
Defined.

(** C4, as stated, fails: [ram.total] and [disk.total] are copied from the
    first record, so rearranging two records that disagree on them changes
    these two outputs. *)
Lemma merge_totals_follow_first_record :
  Permutation [small_host; large_host] [large_host; small_host] /\
  result_map (fun m => (Ram.total (ram m), Disk.total (disk m)))
    (_merge_monitor_records [small_host; large_host] "2025-01-02") = Ok (16, 100) /\
  result_map (fun m => (Ram.total (ram m), Disk.total (disk m)))
    (_merge_monitor_records [large_host; small_host] "2025-01-02") = Ok (32, 200) /\
  ~ 16 == 32 /\ ~ 100 == 200.
Proof.
  split; [apply perm_swap|].
  split; [vm_compute; reflexivity|].
  split; [vm_compute; reflexivity|].
  split; intros H; vm_compute in H; discriminate.
Qed.

(** A second way the order matters: the per-core sums have the length of the
    first record's list, so a record with more cores later in the list makes
    the merge raise, while the same records the other way round merge. *)
Example merge_core_count_follows_first_record :
  let one_core :=
    mkRecord "2025-01-02T05:00:00+00:00" (Cpu.mk [10] 10) (ram small_host)
             (disk small_host) (bandwidth small_host) in
  _merge_monitor_records [one_core; small_host] "2025-01-02" = Raise IndexError /\
  exists m, _merge_monitor_records [small_host; one_core] "2025-01-02" = Ok m.
Proof.
  cbv zeta. split; [vm_compute; reflexivity|].
  eexists. vm_compute. reflexivity.
Qed.

(** Outside exact arithmetic the averages feel the order too: in binary64
    the [cpu_total_avg] inputs 0.1, 0.2, 0.3, 0.1 sum to 0.7000000000000001
    in this order and to 0.7 with the last two exchanged, and a quarter of
    the sum rounds to 0.18 in one case and to 0.17 in the other. *)
Example binary64_merge_average_depends_on_order :
  let a := Binary64.tenth in
  let b := Binary64.two_tenths in
  let c := Binary64.three_tenths in
  Binary64.merged_cpu_total_avg [a; b; c; a] = Binary64.hundredths 18 /\
  Binary64.merged_cpu_total_avg [a; b; a; c] = Binary64.hundredths 17.
Proof.
  cbv zeta. split; vm_compute; reflexivity.
Qed.

(** * Further properties of the code *)

(** ** Rounding to hundredths *)

Lemma round_half_even_floor_or_next (q : Q) :
  round_half_even q = Qfloor q \/ round_half_even q = (Qfloor q + 1)%Z.
Proof.
  unfold round_half_even.
  destruct (Qcompare (q - inject_Z (Qfloor q)) (1 # 2)); auto.
  destruct (Z.even (Qfloor q)); auto.
Qed.

(** The nearest integer is at most one half away. *)
Lemma round_half_even_near (q : Q) :
  inject_Z (round_half_even q) - (1 # 2) <= q /\
  q <= inject_Z (round_half_even q) + (1 # 2).
Proof.
  pose proof (Qfloor_le q) as Hlo. pose proof (Qlt_floor q) as Hhi.
  rewrite inject_Z_plus in Hhi. change (inject_Z 1) with 1 in Hhi.
  unfold round_half_even.
  destruct (Qcompare_spec (q - inject_Z (Qfloor q)) (1 # 2)) as [E|E|E].
  - destruct (Z.even (Qfloor q)).
    + split; lra.
    + rewrite inject_Z_plus. change (inject_Z 1) with 1. split; lra.
  - split; lra.
  - rewrite inject_Z_plus. change (inject_Z 1) with 1. split; lra.
Qed.

Lemma round_half_even_monotone (p q : Q) :
  p <= q -> (round_half_even p <= round_half_even q)%Z.
Proof.
  intros H.
  pose proof (Qfloor_resp_le p q H) as Hf.
  destruct (Z.eq_dec (Qfloor p) (Qfloor q)) as [E|E].
  - unfold round_half_even. rewrite E.
    destruct (Qcompare_spec (p - inject_Z (Qfloor q)) (1 # 2)) as [Ep|Ep|Ep];
      destruct (Qcompare_spec (q - inject_Z (Qfloor q)) (1 # 2)) as [Eq'|Eq'|Eq'];
      try lia; try (exfalso; lra);
      destruct (Z.even (Qfloor q)); lia.
  - destruct (round_half_even_floor_or_next p) as [Hp|Hp];
      destruct (round_half_even_floor_or_next q) as [Hq|Hq]; lia.
Qed.

Lemma round_half_even_integer (z : Z) : round_half_even (inject_Z z) = z.
Proof.
  unfold round_half_even. rewrite Qfloor_Z.
  destruct (Qcompare_spec (inject_Z z - inject_Z z) (1 # 2)) as [E|E|E];
    try reflexivity; exfalso; lra.
Qed.

Lemma hundredths_value (z : Z) : (z # 100) * 100 == inject_Z z.
Proof. unfold Qeq, Qmult, inject_Z; simpl. lia. Qed.

Lemma round2_value (q : Q) : round2 q == inject_Z (round_half_even (q * 100)) / 100.
Proof.
  unfold round2. unfold Qeq, Qdiv, Qmult, Qinv, inject_Z; simpl. lia.
Qed.

(** [round(x, 2)] moves a number by at most half a hundredth. *)
Lemma round2_near (q : Q) :
  round2 q - (1 # 200) <= q /\ q <= round2 q + (1 # 200).
Proof.
  destruct (round_half_even_near (q * 100)) as [H1 H2].
  rewrite round2_value.
  set (z := inject_Z (round_half_even (q * 100))) in *.
  split.
  - apply Qle_trans with ((z - (1 # 2)) / 100).
    + apply Qle_shift_div_l; [reflexivity|]. 
      assert (E : (z / 100 - (1 # 200)) * 100 == z - (1 # 2)) by field.
      rewrite E. apply Qle_refl.
    + apply Qle_shift_div_r; [reflexivity | exact H1].
  - apply Qle_trans with ((z + (1 # 2)) / 100).
    + apply Qle_shift_div_l; [reflexivity | exact H2].
    + apply Qle_shift_div_r; [reflexivity|].
      assert (E : (z / 100 + (1 # 200)) * 100 == z + (1 # 2)) by field.
      rewrite E. apply Qle_refl.
Qed.

Lemma round2_monotone (p q : Q) : p <= q -> round2 p <= round2 q.
Proof.
  intros H. unfold round2, Qle; simpl.
  apply Z.mul_le_mono_nonneg_r; [lia|].
  apply round_half_even_monotone. 
  apply Qmult_le_compat_r; [exact H | discriminate].
Qed.

(** A number of hundredths is a fixed point of [round(x, 2)]. *)
Lemma round2_hundredths (z : Z) : round2 (z # 100) = z # 100.
Proof.
  unfold round2. f_equal.
  rewrite (round_half_even_comp _ (inject_Z z) (hundredths_value z)).
  apply round_half_even_integer.
Qed.

Lemma round2_idempotent (q : Q) : round2 (round2 q) = round2 q.
Proof. unfold round2 at 2 3. apply round2_hundredths. Qed.

Lemma round2_hundredths_eq (q : Q) (z : Z) : q == z # 100 -> round2 q = z # 100.
Proof.
  intros H. rewrite (round2_comp q (z # 100) H). apply round2_hundredths.
Qed.

(** ** The accumulator over a run of snapshots *)

Lemma next_per_core_value (cpu : list Q) (s : Monitor) :
  cpu_per_core_avg s <> [] ->
  (length cpu <= length (cpu_per_core_avg s))%nat ->
  next_per_core cpu s = Ok (map (next_core_avg cpu s) (seq 0 (length cpu))).
Proof.
  intros Hne Hlen. unfold next_per_core.
  destruct (cpu_per_core_avg s) as [|a avg] eqn:E; [congruence|].
  rewrite <- E in *.
  apply comprehension_ok. intros i Hi. apply in_seq in Hi.
  rewrite (getitem_lt _ i 0) by lia. simpl.
  rewrite (getitem_lt _ i 0) by lia. simpl.
  apply truediv_succ.
Qed.

Lemma comprehension_raise_at {A B} (f : A -> result B) (e : exn)
  (l1 : list A) (x : A) (l2 : list A) :
  (forall y, In y l1 -> exists v, f y = Ok v) ->
  f x = Raise e ->
  comprehension f (l1 ++ x :: l2) = Raise e.
Proof.
  induction l1 as [|y l1 IH]; intros Hok Hx; simpl.
  - rewrite Hx. reflexivity.
  - destruct (Hok y (or_introl eq_refl)) as [v Hv]. rewrite Hv. simpl.
    rewrite IH; [reflexivity | | exact Hx].
    intros z Hz. apply Hok. right. exact Hz.
Qed.

Lemma next_per_core_raises (cpu : list Q) (s : Monitor) :
  cpu_per_core_avg s <> [] ->
  (length (cpu_per_core_avg s) < length cpu)%nat ->
  next_per_core cpu s = Raise IndexError.
Proof.
  intros Hne Hlen. unfold next_per_core.
  destruct (cpu_per_core_avg s) as [|a avg] eqn:E; [congruence|].
  rewrite <- E in *.
  set (m := length (cpu_per_core_avg s)) in *.
  replace (length cpu) with (m + S (length cpu - m - 1))%nat by lia.
  rewrite seq_app. cbn [seq].
  apply comprehension_raise_at.
  - intros i Hi. apply in_seq in Hi.
    rewrite (getitem_lt _ i 0) by (fold m; lia). cbn [rbind].
    rewrite (getitem_lt _ i 0) by lia. cbn [rbind].
    rewrite truediv_succ. eexists. reflexivity.
  - unfold getitem. cbn [Nat.add].
    rewrite (proj2 (nth_error_None (cpu_per_core_avg s) m)) by (subst m; lia).
    reflexivity.
Qed.

(** X1.  How a call that raises leaves the accumulator: an empty cpu list wipes
    the per-core averages and nothing else (the division comes after the
    assignment), a cpu list longer than the per-core list changes nothing
    (the comprehension raises before the assignment).  In both cases the
    sample is not counted. *)
Theorem update_current_stats_failure_states (snap : Snapshot.t) (s : Monitor) :
  (Snapshot.cpu snap = [] ->
   update_current_stats snap s = (set_cpu_per_core_avg [] s, Raise ZeroDivisionError)) /\
  (cpu_per_core_avg s <> [] ->
   (length (cpu_per_core_avg s) < length (Snapshot.cpu snap))%nat ->
   update_current_stats snap s = (s, Raise IndexError)).
Proof.
  split.
  - intros H. rewrite update_current_stats_run, H, next_per_core_empty. reflexivity.
  - intros Hne Hlen.
    rewrite update_current_stats_run, (next_per_core_raises _ _ Hne Hlen). reflexivity.
Qed.

Lemma update_current_stats_failure_states_witness :
  update_current_stats (sample_snapshot [] 4)
    (fst (update_current_stats (sample_snapshot [10; 20] 4) init))
  = (set_cpu_per_core_avg [] (fst (update_current_stats (sample_snapshot [10; 20] 4) init)),
     Raise ZeroDivisionError) /\
  update_current_stats (sample_snapshot [10; 20; 30] 4)
    (fst (update_current_stats (sample_snapshot [10; 20] 4) init))
  = (fst (update_current_stats (sample_snapshot [10; 20] 4) init), Raise IndexError).
Proof.
  split.
  - apply (proj1 (update_current_stats_failure_states (sample_snapshot [] 4)
                    (fst (update_current_stats (sample_snapshot [10; 20] 4) init)))).
    reflexivity.
  - apply (proj2 (update_current_stats_failure_states (sample_snapshot [10; 20; 30] 4)
                    (fst (update_current_stats (sample_snapshot [10; 20] 4) init)))).
    + vm_compute. discriminate.
    + vm_compute. lia.
Defined.

(** One step of a run that returns. *)
Lemma feed_cons (snap : Snapshot.t) (snaps : list Snapshot.t) (s s' : Monitor) :
  feed (snap :: snaps) s = (s', Ok tt) ->
  exists pc,
    next_per_core (Snapshot.cpu snap) s = Ok pc /\ pc <> [] /\
    feed snaps (updated snap pc s) = (s', Ok tt).
Proof.
  unfold feed. cbn [for_each]. unfold bind.
  rewrite update_current_stats_run.
  destruct (next_per_core (Snapshot.cpu snap) s) as [pc|e]; [|discriminate].
  destruct pc as [|c pc]; [discriminate|].
  intros H. exists (c :: pc). split; [reflexivity|]. split; [discriminate | exact H].
Qed.

Lemma feed_snoc_sum (l : list Q) (x a : Q) :
  fold_left Qplus (l ++ [x]) a = fold_left Qplus l a + x.
Proof. rewrite fold_left_app. reflexivity. Qed.

Lemma feed_counters (snaps : list Snapshot.t) (s s' : Monitor) :
  feed snaps s = (s', Ok tt) ->
  sample_count s' = (sample_count s + length snaps)%nat /\
  bandwidth_total s' == bandwidth_total s + sum (map bandwidth_of snaps) /\
  (forall snap, In snap snaps ->
     xle (ram_min s') (Fin (ram_used_of snap)) /\ ram_used_of snap <= ram_max s') /\
  xle (ram_min s') (ram_min s) /\ ram_max s <= ram_max s' /\
  (forall front snap, snaps = front ++ [snap] ->
     disk_used s' = Disk.used (Snapshot.disk snap) /\
     disk_total s' = Disk.total (Snapshot.disk snap)).
Proof.
  revert s. induction snaps as [|snap snaps IH]; intros s Hrun.
  - unfold feed in Hrun. simpl in Hrun. injection Hrun as <-.
    split; [simpl; lia|].
    split; [unfold sum; simpl; lra|].
    split; [intros ? []|].
    split; [destruct (ram_min s); simpl; try exact I; apply Qle_refl|].
    split; [apply Qle_refl|].
    intros front snap H. destruct front; discriminate.
  - destruct (feed_cons _ _ _ _ Hrun) as (pc & _ & _ & Hrest).
    destruct (IH _ Hrest) as (Hn & Hb & Hr & Hmin & Hmax & Hd).
    cbn [updated sample_count bandwidth_total ram_min ram_max] in Hn, Hb, Hmin, Hmax.
    split; [simpl; lia|].
    split.
    { rewrite Hb. unfold sum. cbn [map fold_left].
      rewrite (fold_left_Qplus_comp _ _ (0 + bandwidth_of snap)
                 (bandwidth_of snap + 0) (Forall2_Qeq_refl _)) by ring.
      assert (E : forall l a, fold_left Qplus l a == a + fold_left Qplus l 0).
      { induction l as [|x l IHl]; intros a; simpl; [ring|].
        rewrite (IHl (a + x)), (IHl (0 + x)). ring. }
      rewrite (E _ (bandwidth_of snap + 0)). unfold bandwidth_of. ring. }
    split.
    { intros snap' [<-|Hin].
      - split.
        + pose proof (py_min_le_r (ram_min s) (Fin (ram_used_of snap))) as P.
          unfold ram_used_of in *.
          destruct (ram_min s') as [|a|]; simpl; try exact I.
          * destruct (py_min (ram_min s) (Fin (Snapshot.used (Snapshot.ram snap))))
              as [|b|]; simpl in *; try contradiction; lra.
          * destruct (py_min (ram_min s) (Fin (Snapshot.used (Snapshot.ram snap))));
              simpl in Hmin; contradiction.
        + pose proof (py_maxQ_ge_r (ram_max s) (ram_used_of snap)) as P.
          unfold ram_used_of in *. lra.
      - apply Hr. exact Hin. }
    split.
    { pose proof (py_min_le_l (ram_min s) (Fin (Snapshot.used (Snapshot.ram snap)))) as P.
      destruct (ram_min s') as [|a|], (ram_min s) as [|c|]; simpl; try exact I;
        destruct (py_min _ _) as [|b|] in Hmin, P; simpl in *; try contradiction; try lra. }
    split.
    { pose proof (py_maxQ_ge_l (ram_max s) (Snapshot.used (Snapshot.ram snap))) as P. lra. }
    intros front last Hsplit.
    destruct snaps as [|snap2 snaps].
    + destruct front as [|f front]; [|destruct front; discriminate].
      injection Hsplit as <-.
      unfold feed in Hrest. simpl in Hrest. injection Hrest as <-.
      split; reflexivity.
    + destruct front as [|f front]; [discriminate|].
      injection Hsplit as _ Hsplit.
      apply (Hd front last). exact Hsplit.
Qed.

(** A run of snapshots with one core count returns. *)
Lemma feed_returns (k : nat) (snaps : list Snapshot.t) (s : Monitor) :
  (0 < k)%nat ->
  Forall (fun snap => length (Snapshot.cpu snap) = k) snaps ->
  cpu_per_core_avg s = [] \/ length (cpu_per_core_avg s) = k ->
  exists s', feed snaps s = (s', Ok tt).
Proof.
  intros Hk. revert s. induction snaps as [|snap snaps IH]; intros s Hall Hs.
  - exists s. reflexivity.
  - inversion Hall as [|? ? Hsnap Hrest]; subst.
    destruct (next_per_core_ok (Snapshot.cpu snap) s) as [pc [Hpc Hl]].
    { destruct Hs as [Hs|Hs]; [left; exact Hs | right; lia]. }
    destruct pc as [|c pc]; [simpl in Hl; lia|].
    destruct (IH (updated snap (c :: pc) s) Hrest) as [s' Hs'].
    { right. simpl. simpl in Hl. exact Hl. }
    exists s'. unfold feed. cbn [for_each]. unfold bind.
    rewrite update_current_stats_run, Hpc. exact Hs'.
Qed.

(** X2.  What a run leaves in the accumulator besides the averages.  After a run
    of snapshots with one positive core count, fed to a fresh accumulator:
    [sample_count] is the number of snapshots, [bandwidth_total] is the sum
    of their [transfer_total], every RAM reading lies between [ram_min] and
    [ram_max], [ram_max] is at least 0 (its initial value), and the disk
    figures are those of the last snapshot. *)
Theorem accumulator_after_run (k : nat) (snaps : list Snapshot.t) :
  (0 < k)%nat ->
  Forall (fun snap => length (Snapshot.cpu snap) = k) snaps ->
  exists s,
    feed snaps init = (s, Ok tt) /\
    sample_count s = length snaps /\
    bandwidth_total s == sum (map bandwidth_of snaps) /\
    (forall snap, In snap snaps ->
       xle (ram_min s) (Fin (ram_used_of snap)) /\ ram_used_of snap <= ram_max s) /\
    0 <= ram_max s /\
    (forall front snap, snaps = front ++ [snap] ->
       disk_used s = Disk.used (Snapshot.disk snap) /\
       disk_total s = Disk.total (Snapshot.disk snap)).
Proof.
  intros Hk Hall.
  destruct (feed_returns k snaps init Hk Hall (or_introl eq_refl)) as [s Hs].
  destruct (feed_counters snaps init s Hs) as (Hn & Hb & Hr & _ & Hmax & Hd).
  exists s. split; [exact Hs|].
  split; [exact Hn|].
  split; [rewrite Hb; simpl; ring|].
  split; [exact Hr|].
  split; [exact Hmax | exact Hd].
Qed.

Lemma accumulator_after_run_witness :
  exists s,
    feed three_samples init = (s, Ok tt) /\
    sample_count s = length three_samples /\
    bandwidth_total s == sum (map bandwidth_of three_samples) /\
    (forall snap, In snap three_samples ->
       xle (ram_min s) (Fin (ram_used_of snap)) /\ ram_used_of snap <= ram_max s) /\
    0 <= ram_max s /\
    (forall front snap, three_samples = front ++ [snap] ->
       disk_used s = Disk.used (Snapshot.disk snap) /\
       disk_total s = Disk.total (Snapshot.disk snap)).
Proof.
  apply (accumulator_after_run 2 three_samples).
  - lia.
  - repeat constructor.
Defined.

Lemma nth_map_seq (g : nat -> Q) (k i : nat) :
  (i < k)%nat -> nth i (map g (seq 0 k)) 0 = g i.
Proof.
  intros H. rewrite (nth_indep _ 0 (g 0%nat)) by (rewrite length_map, length_seq; exact H).
  rewrite map_nth, seq_nth by exact H. reflexivity.
Qed.

Lemma updated_tracks_cores (k : nat) (snap : Snapshot.t) (s : Monitor)
  (seen : list Snapshot.t) :
  (0 < k)%nat ->
  length (Snapshot.cpu snap) = k ->
  tracks_cores k s seen ->
  exists pc,
    next_per_core (Snapshot.cpu snap) s = Ok pc /\ pc <> [] /\
    tracks_cores k (updated snap pc s) (seen ++ [snap]).
Proof.
  intros Hk Hlen (Hn & Hnil & Hcons).
  assert (Hne : seen ++ [snap] <> []) by (destruct seen; discriminate).
  destruct seen as [|x seen].
  - specialize (Hnil eq_refl).
    exists (Snapshot.cpu snap).
    split; [unfold next_per_core; rewrite Hnil; reflexivity|].
    split; [destruct (Snapshot.cpu snap); [simpl in Hlen; lia | discriminate]|].
    split; [simpl; rewrite Hn; reflexivity|].
    split; [intros H; discriminate|].
    intros _. cbn [updated cpu_per_core_avg cpu_total_avg app length].
    split; [exact Hlen|]. split; [reflexivity|].
    intros i Hi. unfold core_readings, sum. simpl.
    change (of_nat 1) with 1. ring.
  - destruct (Hcons ltac:(discriminate)) as (Hl & _ & Hsum).
    assert (Havg : cpu_per_core_avg s <> []).
    { destruct (cpu_per_core_avg s); [simpl in Hl; lia | discriminate]. }
    exists (map (next_core_avg (Snapshot.cpu snap) s) (seq 0 (length (Snapshot.cpu snap)))).
    split; [apply next_per_core_value; [exact Havg | lia]|].
    split.
    { rewrite Hlen. destruct k; [lia | discriminate]. }
    split; [cbn [updated sample_count]; rewrite length_app, Hn; reflexivity|].
    split; [intros H; destruct (x :: seen); discriminate|].
    intros _. cbn [updated cpu_per_core_avg cpu_total_avg].
    split; [rewrite length_map, length_seq; exact Hlen|].
    split; [reflexivity|].
    intros i Hi. rewrite Hlen, (nth_map_seq _ k i Hi).
    unfold core_readings. rewrite map_app.
    change (map (fun snap0 => nth i (Snapshot.cpu snap0) 0) [snap])
      with [nth i (Snapshot.cpu snap) 0].
    rewrite sum_snoc.
    fold (core_readings i (x :: seen)). rewrite <- (Hsum i Hi).
    unfold next_core_avg. rewrite Hn, length_app. cbn [length].
    set (n := S (length seen)).
    assert (Hp : ~ of_nat (n + 1) == 0).
    { pose proof (of_nat_pos (n + 1) ltac:(lia)). lra. }
    field. exact Hp.
Qed.

Lemma feed_tracks_cores (k : nat) (snaps : list Snapshot.t) (s : Monitor)
  (seen : list Snapshot.t) :
  (0 < k)%nat ->
  Forall (fun snap => length (Snapshot.cpu snap) = k) snaps ->
  tracks_cores k s seen ->
  exists s', feed snaps s = (s', Ok tt) /\ tracks_cores k s' (seen ++ snaps).
Proof.
  intros Hk. revert s seen. induction snaps as [|snap snaps IH]; intros s seen Hall Ht.
  - exists s. split; [reflexivity | rewrite app_nil_r; exact Ht].
  - inversion Hall as [|? ? Hsnap Hrest]; subst.
    destruct (updated_tracks_cores _ snap s seen Hk eq_refl Ht) as (pc & Hpc & Hne & Ht').
    destruct (IH _ _ Hrest Ht') as (s' & Hrun & Hfinal).
    exists s'. split.
    + unfold feed. cbn [for_each]. unfold bind.
      rewrite update_current_stats_run, Hpc.
      destruct pc as [|c pc]; [congruence | exact Hrun].
    + rewrite <- app_assoc in Hfinal. exact Hfinal.
Qed.

(** X3.  The per-core averages are true means.  After one or more snapshots with
    one positive core count, fed to a fresh accumulator, every call has
    returned, the average of core [i] is the arithmetic mean of the readings
    of core [i], and [cpu_total_avg] is the mean of the per-core averages
    (in exact arithmetic). *)
Theorem cpu_per_core_avg_is_mean (k : nat) (snaps : list Snapshot.t) :
  (0 < k)%nat ->
  snaps <> [] ->
  Forall (fun snap => length (Snapshot.cpu snap) = k) snaps ->
  exists s,
    feed snaps init = (s, Ok tt) /\
    length (cpu_per_core_avg s) = k /\
    (forall i, (i < k)%nat ->
       nth i (cpu_per_core_avg s) 0 == mean (core_readings i snaps)) /\
    cpu_total_avg s = mean (cpu_per_core_avg s).
Proof.
  intros Hk Hne Hall.
  assert (Ht : tracks_cores k init []).
  { split; [reflexivity|]. split; [reflexivity | congruence]. }
  destruct (feed_tracks_cores k snaps init [] Hk Hall Ht) as (s & Hrun & _ & _ & Hcons).
  simpl in Hcons. destruct (Hcons Hne) as (Hl & Htot & Hsum).
  exists s. split; [exact Hrun|]. split; [exact Hl|]. split; [|exact Htot].
  intros i Hi. unfold mean. unfold core_readings at 2. rewrite length_map.
  assert (Hp : 0 < of_nat (length snaps)).
  { apply of_nat_pos. destruct snaps; [congruence | simpl; lia]. }
  rewrite <- (Hsum i Hi). field. lra.
Qed.

Lemma cpu_per_core_avg_is_mean_witness :
  exists s,
    feed three_samples init = (s, Ok tt) /\
    length (cpu_per_core_avg s) = 2%nat /\
    (forall i, (i < 2)%nat ->
       nth i (cpu_per_core_avg s) 0 == mean (core_readings i three_samples)) /\
    cpu_total_avg s = mean (cpu_per_core_avg s).
Proof.
  apply (cpu_per_core_avg_is_mean 2 three_samples).
  - lia.
  - discriminate.
  - repeat constructor.
Defined.

(** ** The record a flush builds *)

Lemma feed_ram_bounds (snaps : list Snapshot.t) (s s' : Monitor) :
  falsy (ram_avg s) = true \/ ram_bounds s ->
  snaps <> [] ->
  feed snaps s = (s', Ok tt) ->
  ram_bounds s'.
Proof.
  revert s. induction snaps as [|snap snaps IH]; intros s Hs Hne Hrun; [congruence|].
  destruct (feed_cons _ _ _ _ Hrun) as (pc & _ & _ & Hrest).
  pose proof (updated_ram_bounds snap pc s Hs) as Hb.
  destruct snaps as [|snap2 snaps].
  - unfold feed in Hrest. simpl in Hrest. injection Hrest as <-. exact Hb.
  - apply (IH (updated snap pc s)); [right; exact Hb | discriminate | exact Hrest].
Qed.

Lemma feed_sample_count (snaps : list Snapshot.t) (s s' : Monitor) :
  feed snaps s = (s', Ok tt) -> sample_count s' = (sample_count s + length snaps)%nat.
Proof.
  intros H. exact (proj1 (feed_counters snaps s s' H)).
Qed.

(** X4.  The record of a flush keeps the order of the RAM figures.  After a run
    of one or more snapshots fed to a fresh accumulator, [get_and_reset_stats]
    returns a record with [min_used <= avg_used <= max_used] (rounding to
    hundredths is monotone; exact arithmetic) and as many per-core values as
    the accumulator held, and leaves the accumulator as [__init__] does. *)
Theorem flushed_record_ram_order (os : Os) (snaps : list Snapshot.t) (s : Monitor) :
  snaps <> [] ->
  feed snaps init = (s, Ok tt) ->
  exists r,
    get_and_reset_stats os s = (init, Ok (Some r)) /\
    datetime r = utcnow_isoformat os /\
    xle (Ram.min_used (ram r)) (Fin (Ram.avg_used (ram r))) /\
    xle (Fin (Ram.avg_used (ram r))) (Ram.max_used (ram r)) /\
    length (cores r) = length (cpu_per_core_avg s).
Proof.
  intros Hne Hrun.
  assert (Hn : sample_count s <> 0%nat).
  { rewrite (feed_sample_count _ _ _ Hrun). destruct snaps; [congruence | simpl; lia]. }
  destruct (feed_ram_bounds snaps init s (or_introl eq_refl) Hne Hrun) as [Hlo Hhi].
  exists (finalize os s). split; [apply get_and_reset_stats_flush; exact Hn|].
  split; [reflexivity|].
  unfold finalize, cores; cbn [ram cpu Ram.min_used Ram.avg_used Ram.max_used
                                 Cpu.cpu_per_core_avg].
  split; [|split].
  - destruct (ram_min s) as [|m|]; simpl in *; try exact I; try contradiction.
    apply round2_monotone. exact Hlo.
  - simpl. apply round2_monotone. exact Hhi.
  - apply length_map.
Qed.

Lemma flushed_record_ram_order_witness :
  exists r,
    get_and_reset_stats sample_os (fst (feed three_samples init)) = (init, Ok (Some r)) /\
    datetime r = utcnow_isoformat sample_os /\
    xle (Ram.min_used (ram r)) (Fin (Ram.avg_used (ram r))) /\
    xle (Fin (Ram.avg_used (ram r))) (Ram.max_used (ram r)) /\
    length (cores r) = length (cpu_per_core_avg (fst (feed three_samples init))).
Proof.
  apply (flushed_record_ram_order sample_os three_samples (fst (feed three_samples init))).
  - discriminate.
  - vm_compute. reflexivity.
Defined.

(** ** What a flush does to the accumulator and to the hourly file *)

(** [push_to_file] with samples, unfolded up to the rollups. *)
Lemma push_to_file_run (os : Os) (w : World) :
  sample_count (self w) <> 0%nat ->
  push_to_file os w =
  match merge_or_append (load_or_empty (monitor_1h_json w)) (finalize os (self w)) with
  | Raise e => (reset_world w, Raise e)
  | Ok data =>
      bind _push_to_file_1day (fun _ => _push_to_file_1month)
           (write_1h (to_write data) (reset_world w))
  end.
Proof.
  intros Hn. unfold push_to_file, bind at 1, on_self.
  rewrite (get_and_reset_stats_flush os _ Hn).
  unfold bind at 1, get. unfold bind at 1, lift. cbn [self monitor_1h_json].
  destruct (merge_or_append _ _) as [data|e]; [|reflexivity].
  unfold bind at 1, modify. reflexivity.
Qed.

Lemma rollups_keep_self (w : World) :
  self (fst (bind _push_to_file_1day (fun _ => _push_to_file_1month) w)) = self w.
Proof.
  unfold bind.
  destruct (push_to_file_1day_frame w) as (F1 & _ & _).
  destruct (_push_to_file_1day w) as [w2 [[]|e]]; simpl in F1 |- *.
  - destruct (push_to_file_1month_frame w2) as (F2 & _ & _). rewrite F2. exact F1.
  - exact F1.
Qed.

(** X5.  A flush consumes the samples, whatever happens next.  With samples in
    the accumulator, [push_to_file] leaves the accumulator as [__init__]
    does, whether it returns or raises; a second flush right after it
    returns at once and changes nothing. *)
Theorem push_to_file_consumes_samples (os os' : Os) (w : World) :
  sample_count (self w) <> 0%nat ->
  self (fst (push_to_file os w)) = init /\
  push_to_file os' (fst (push_to_file os w)) = (fst (push_to_file os w), Ok tt).
Proof.
  intros Hn.
  assert (Hs : self (fst (push_to_file os w)) = init).
  { rewrite (push_to_file_run os w Hn).
    destruct (merge_or_append _ _) as [data|e]; [|reflexivity].
    rewrite rollups_keep_self. reflexivity. }
  split; [exact Hs|].
  apply push_to_file_empty. rewrite Hs. reflexivity.
Qed.

Lemma push_to_file_consumes_samples_witness :
  self (fst (push_to_file sample_os world_with_full_window)) = init /\
  push_to_file after_window_os (fst (push_to_file sample_os world_with_full_window))
  = (fst (push_to_file sample_os world_with_full_window), Ok tt).
Proof.
  apply (push_to_file_consumes_samples sample_os after_window_os world_with_full_window).
  vm_compute. discriminate.
Defined.

(** X6.  A flush that cannot read the last stored datetime loses its samples.
    When the last record of the hourly series has a datetime that
    [fromisoformat] rejects, [push_to_file] raises [ValueError]: the three
    files are untouched and the accumulator has already been reset, so the
    samples of the window are in no file and no longer in memory. *)
Theorem push_to_file_unreadable_last_record (os : Os) (w : World)
  (front : list AggregateRecord) (last : AggregateRecord) :
  sample_count (self w) <> 0%nat ->
  monitor_1h_json w = Some (front ++ [last]) ->
  DateTime.fromisoformat (datetime last) = Raise ValueError ->
  push_to_file os w = (reset_world w, Raise ValueError).
Proof.
  intros Hn Hfile Hl.
  rewrite (push_to_file_run os w Hn), Hfile. cbn [load_or_empty].
  unfold merge_or_append.
  destruct (front ++ [last]) as [|a l] eqn:E; [destruct front; discriminate|].
  rewrite <- E. rewrite getitem_last. cbn [rbind]. rewrite Hl. reflexivity.
Qed.

Lemma push_to_file_unreadable_last_record_witness :
  push_to_file sample_os
    (mkWorld (fst (update_current_stats (sample_snapshot [10; 20] 4) init))
             (Some ([small_host] ++ [unreadable_record])) None None)
  = (reset_world
       (mkWorld (fst (update_current_stats (sample_snapshot [10; 20] 4) init))
                (Some ([small_host] ++ [unreadable_record])) None None),
     Raise ValueError).
Proof.
  apply (push_to_file_unreadable_last_record sample_os _ [small_host] unreadable_record).
  - vm_compute. discriminate.
  - reflexivity.
  - vm_compute. reflexivity.
Defined.

(** X7.  The hourly file never grows past the limit: a flush leaves the hourly
    file as it was or writes at most [max1h_record_length] records, so a
    file within the limit stays within it, whether the flush returns or
    raises. *)
Theorem push_to_file_keeps_hourly_limit (os : Os) (w : World) :
  (monitor_1h_json (fst (push_to_file os w)) = monitor_1h_json w \/
   exists l, monitor_1h_json (fst (push_to_file os w)) = Some l /\
             (length l <= config.max1h_record_length)%nat) /\
  (within_limit config.max1h_record_length (monitor_1h_json w) ->
   within_limit config.max1h_record_length (monitor_1h_json (fst (push_to_file os w)))).
Proof.
  assert (H : monitor_1h_json (fst (push_to_file os w)) = monitor_1h_json w \/
              exists l, monitor_1h_json (fst (push_to_file os w)) = Some l /\
                        (length l <= config.max1h_record_length)%nat).
  { destruct (Nat.eq_dec (sample_count (self w)) 0) as [Hz|Hn].
    - left. rewrite (push_to_file_empty os w Hz). reflexivity.
    - destruct (merge_or_append (load_or_empty (monitor_1h_json w)) (finalize os (self w)))
        as [data|e] eqn:E.
      + right. exists (to_write data).
        split; [apply push_to_file_hourly; assumption | apply to_write_length].
      + left. rewrite (push_to_file_run os w Hn), E. reflexivity. }
  split; [exact H|].
  intros Hw. destruct H as [H|[l [H Hl]]]; rewrite H; [exact Hw | exact Hl].
Qed.

Lemma push_to_file_keeps_hourly_limit_witness :
  within_limit config.max1h_record_length
    (monitor_1h_json (fst (push_to_file after_window_os world_with_full_window))).
Proof.
  apply (proj2 (push_to_file_keeps_hourly_limit after_window_os world_with_full_window)).
  vm_compute. lia.
Defined.

(** ** When the merge returns, and what it keeps *)

Lemma merge_step_value_length (v : merge_locals) (r : AggregateRecord) :
  length (cpu_per_core_sum (merge_step_value v r)) = length (cpu_per_core_sum v).
Proof. apply add_prefix_length. Qed.

Lemma rfold_merge_step_raises (records : list AggregateRecord) (v : merge_locals) :
  Exists (fun r => (length (cpu_per_core_sum v) < length (cores r))%nat) records ->
  rfold merge_step records v = Raise IndexError.
Proof.
  revert v. induction records as [|r records IH]; intros v Hex.
  - inversion Hex.
  - cbn [rfold].
    destruct (Nat.le_gt_cases (length (cores r)) (length (cpu_per_core_sum v))) as [Hle|Hgt].
    + rewrite (merge_step_ok v r Hle). cbn [rbind].
      apply IH. rewrite merge_step_value_length.
      inversion Hex as [? ? Hr|? ? Hrest]; subst; [lia | exact Hrest].
    + rewrite (merge_step_raises v r Hgt). reflexivity.
Qed.

Lemma fold_merge_step_value_length (records : list AggregateRecord) (v : merge_locals) :
  length (cpu_per_core_sum (fold_left merge_step_value records v))
  = length (cpu_per_core_sum v).
Proof.
  revert v. induction records as [|r records IH]; intros v; simpl; [reflexivity|].
  rewrite IH. apply merge_step_value_length.
Qed.

(** X8.  The merge returns exactly when the list is non-empty and no record has
    more cores than the first one; otherwise it raises [IndexError].  When
    it returns, the result carries the key as its datetime, as many per-core
    values as the first record, and the units "GB" and "MB". *)
Theorem merge_returns_iff_cores_fit (records : list AggregateRecord) (key : string) :
  (forall first rest,
     records = first :: rest ->
     Forall (fun r => (length (cores r) <= length (cores first))%nat) records ->
     exists m,
       _merge_monitor_records records key = Ok m /\
       datetime m = key /\
       length (cores m) = length (cores first) /\
       Ram.unit (ram m) = "GB"%string /\ Disk.unit (disk m) = "GB"%string /\
       Bandwidth.unit (bandwidth m) = "MB"%string) /\
  (records = [] -> _merge_monitor_records records key = Raise IndexError) /\
  (forall first rest,
     records = first :: rest ->
     Exists (fun r => (length (cores first) < length (cores r))%nat) records ->
     _merge_monitor_records records key = Raise IndexError).
Proof.
  split; [|split].
  - intros first rest -> Hfit.
    eexists. split; [apply merge_monitor_records_ok; exact Hfit|].
    split; [reflexivity|].
    split; [|repeat split; reflexivity].
    unfold merge_result, cores at 1. cbn [cpu Cpu.cpu_per_core_avg].
    rewrite length_map, fold_merge_step_value_length. unfold merge_start.
    cbn [cpu_per_core_sum]. apply repeat_length.
  - intros ->. reflexivity.
  - intros first rest -> Hex.
    unfold _merge_monitor_records, getitem. cbn [nth_error rbind].
    fold (cores first). fold (merge_start first).
    rewrite rfold_merge_step_raises; [reflexivity|].
    unfold merge_start. cbn [cpu_per_core_sum]. rewrite repeat_length. exact Hex.
Qed.

Lemma merge_returns_iff_cores_fit_witness :
  (exists m,
      _merge_monitor_records [small_host; one_core_record] "2025-01-02" = Ok m /\
      datetime m = "2025-01-02"%string /\
      length (cores m) = length (cores small_host) /\
      Ram.unit (ram m) = "GB"%string /\ Disk.unit (disk m) = "GB"%string /\
      Bandwidth.unit (bandwidth m) = "MB"%string) /\
  _merge_monitor_records [one_core_record; small_host] "2025-01-02" = Raise IndexError.
Proof.
  split.
  - apply (proj1 (merge_returns_iff_cores_fit [small_host; one_core_record] "2025-01-02")
             small_host [one_core_record] eq_refl).
    repeat constructor.
  - apply (proj2 (proj2 (merge_returns_iff_cores_fit [one_core_record; small_host]
                           "2025-01-02")) one_core_record [small_host] eq_refl).
    apply Exists_cons_tl. apply Exists_cons_hd. vm_compute. lia.
Defined.

(** Order on the extended rationals. *)
Lemma xle_refl (a : xQ) : xle a a.
Proof. destruct a; simpl; try exact I. apply Qle_refl. Qed.

Lemma xle_trans (a b c : xQ) : xle a b -> xle b c -> xle a c.
Proof.
  destruct a, b, c; simpl; intros H1 H2; try exact I; try contradiction.
  eapply Qle_trans; eassumption.
Qed.

Lemma py_max_ge_l (a b : xQ) : xle a (py_max a b).
Proof. unfold py_max. destruct a, b; split_order. Qed.

Lemma py_max_ge_r (a b : xQ) : xle b (py_max a b).
Proof. unfold py_max. destruct a, b; split_order. Qed.

Lemma fold_py_min_le (l : list xQ) (a : xQ) :
  xle (fold_left py_min l a) a /\ forall x, In x l -> xle (fold_left py_min l a) x.
Proof.
  revert a. induction l as [|y l IH]; intros a; simpl.
  - split; [apply xle_refl | intros ? []].
  - destruct (IH (py_min a y)) as [H1 H2]. split.
    + eapply xle_trans; [exact H1 | apply py_min_le_l].
    + intros x [<-|Hx]; [eapply xle_trans; [exact H1 | apply py_min_le_r] | apply H2; exact Hx].
Qed.

Lemma fold_py_max_ge (l : list xQ) (a : xQ) :
  xle a (fold_left py_max l a) /\ forall x, In x l -> xle x (fold_left py_max l a).
Proof.
  revert a. induction l as [|y l IH]; intros a; simpl.
  - split; [apply xle_refl | intros ? []].
  - destruct (IH (py_max a y)) as [H1 H2]. split.
    + eapply xle_trans; [apply py_max_ge_l | exact H1].
    + intros x [<-|Hx]; [eapply xle_trans; [apply py_max_ge_r | exact H1] | apply H2; exact Hx].
Qed.

Lemma fold_left_Qplus_ge (l : list Q) (m a : Q) :
  (forall x, In x l -> m <= x) ->
  a + m * of_nat (length l) <= fold_left Qplus l a.
Proof.
  revert a. induction l as [|x l IH]; intros a H.
  - simpl. change (of_nat 0) with 0. lra.
  - cbn [fold_left length].
    assert (Hx : m <= x) by (apply H; left; reflexivity).
    assert (Hl : forall y, In y l -> m <= y) by (intros y Hy; apply H; right; exact Hy).
    specialize (IH (a + x) Hl).
    replace (S (length l)) with (length l + 1)%nat by lia.
    rewrite of_nat_succ. lra.
Qed.

Lemma fold_left_Qplus_le (l : list Q) (m a : Q) :
  (forall x, In x l -> x <= m) ->
  fold_left Qplus l a <= a + m * of_nat (length l).
Proof.
  revert a. induction l as [|x l IH]; intros a H.
  - simpl. change (of_nat 0) with 0. lra.
  - cbn [fold_left length].
    assert (Hx : x <= m) by (apply H; left; reflexivity).
    assert (Hl : forall y, In y l -> y <= m) by (intros y Hy; apply H; right; exact Hy).
    specialize (IH (a + x) Hl).
    replace (S (length l)) with (length l + 1)%nat by lia.
    rewrite of_nat_succ. lra.
Qed.

Lemma round2x_monotone_l (a : xQ) (q : Q) : xle a (Fin q) -> xle (round2x a) (Fin (round2 q)).
Proof.
  destruct a; simpl; intros H; try exact I; try contradiction.
  apply round2_monotone. exact H.
Qed.

Lemma round2x_monotone_r (a : xQ) (q : Q) : xle (Fin q) a -> xle (Fin (round2 q)) (round2x a).
Proof.
  destruct a; simpl; intros H; try exact I; try contradiction.
  apply round2_monotone. exact H.
Qed.

(** X9.  The merge keeps the order of the RAM figures: when every input has
    [min_used <= avg_used <= max_used], so has the merged record (the mean
    of the averages lies between the least minimum and the greatest maximum,
    and rounding is monotone; exact arithmetic). *)
Theorem merge_keeps_ram_order (first : AggregateRecord) (rest : list AggregateRecord)
  (key : string) :
  cores_fit (first :: rest) ->
  Forall ram_ordered (first :: rest) ->
  exists m,
    _merge_monitor_records (first :: rest) key = Ok m /\ ram_ordered m.
Proof.
  intros Hfit Hord.
  eexists. split; [apply merge_monitor_records_ok; exact Hfit|].
  set (records := first :: rest) in *.
  destruct (fold_merge_step_value_fields records (merge_start first))
    as (_ & _ & Ha & Hmin & Hmax & _ & _).
  cbv zeta in Ha, Hmin, Hmax.
  unfold ram_ordered, merge_result. cbn [ram Ram.min_used Ram.avg_used Ram.max_used].
  rewrite Ha, Hmin, Hmax. cbn [merge_start ram_avg_sum merged_ram_min merged_ram_max].
  assert (Hn : 0 < of_nat (length records)) by (apply of_nat_pos; simpl; lia).
  rewrite Forall_forall in Hord.
  assert (Hfirst : In first records) by (left; reflexivity).
  split.
  - apply round2x_monotone_l.
    destruct (fold_py_min_le (map ram_min_of records) PosInf) as [_ Hlow].
    destruct (fold_left py_min (map ram_min_of records) PosInf) as [|m|] eqn:E.
    + exact I.
    + cbn [xle]. apply Qle_shift_div_l; [exact Hn|].
      pose proof (fold_left_Qplus_ge (map ram_avg_of records) m 0) as G.
      rewrite length_map in G.
      assert (Hall : forall x, In x (map ram_avg_of records) -> m <= x).
      { intros x Hx. apply in_map_iff in Hx. destruct Hx as (r & <- & Hr).
        destruct (Hord r Hr) as [Hr1 _].
        pose proof (Hlow (ram_min_of r) (in_map ram_min_of _ _ Hr)) as Hm.
        unfold ram_min_of, ram_avg_of in *.
        destruct (Ram.min_used (ram r)); simpl in *; try contradiction; lra. }
      specialize (G Hall). lra.
    + exfalso.
      pose proof (Hlow (ram_min_of first) (in_map ram_min_of _ _ Hfirst)) as Hm.
      destruct (Hord first Hfirst) as [Hr1 _].
      unfold ram_min_of in *.
      destruct (Ram.min_used (ram first)); simpl in *; contradiction.
  - apply round2x_monotone_r.
    destruct (fold_py_max_ge (map ram_max_of records) NegInf) as [_ Hup].
    destruct (fold_left py_max (map ram_max_of records) NegInf) as [|m|] eqn:E.
    + exfalso.
      pose proof (Hup (ram_max_of first) (in_map ram_max_of _ _ Hfirst)) as Hm.
      destruct (Hord first Hfirst) as [_ Hr2].
      unfold ram_max_of in *.
      destruct (Ram.max_used (ram first)); simpl in *; contradiction.
    + cbn [xle]. apply Qle_shift_div_r; [exact Hn|].
      pose proof (fold_left_Qplus_le (map ram_avg_of records) m 0) as G.
      rewrite length_map in G.
      assert (Hall : forall x, In x (map ram_avg_of records) -> x <= m).
      { intros x Hx. apply in_map_iff in Hx. destruct Hx as (r & <- & Hr).
        destruct (Hord r Hr) as [_ Hr2].
        pose proof (Hup (ram_max_of r) (in_map ram_max_of _ _ Hr)) as Hm.
        unfold ram_max_of, ram_avg_of in *.
        destruct (Ram.max_used (ram r)); simpl in *; try contradiction; lra. }
      specialize (G Hall). lra.
    + exact I.
Qed.

Lemma merge_keeps_ram_order_witness :
  exists m,
    _merge_monitor_records (small_host :: [large_host]) "2025-01-02" = Ok m /\
    ram_ordered m.
Proof.
  apply (merge_keeps_ram_order small_host [large_host] "2025-01-02").
  - repeat constructor.
  - repeat constructor; vm_compute; discriminate.
Defined.

(** ** What the rollups write *)

Lemma ltb_asym (s t : string) : String.ltb s t = true -> String.ltb t s = false.
Proof.
  unfold String.ltb. rewrite (String.compare_antisym s t).
  destruct (String.compare t s); simpl; congruence.
Qed.

Lemma ltb_lt (s t : string) : String.ltb s t = true <-> OrderedTypeEx.String_as_OT.lt s t.
Proof.
  rewrite <- OrderedTypeEx.String_as_OT.cmp_lt.
  change (OrderedTypeEx.String_as_OT.cmp s t) with (String.compare s t).
  unfold String.ltb. destruct (String.compare s t); split; congruence.
Qed.

Lemma dt_le_trans (a b c : AggregateRecord) : dt_le a b -> dt_le b c -> dt_le a c.
Proof.
  unfold dt_le. intros Hab Hbc.
  destruct (String.ltb (datetime c) (datetime a)) eqn:Hca; [exfalso|reflexivity].
  unfold String.ltb in Hab.
  destruct (String.compare (datetime b) (datetime a)) eqn:Hba; try discriminate.
  - apply String.compare_eq_iff in Hba. rewrite Hba in Hbc. congruence.
  - assert (Hlt : String.ltb (datetime a) (datetime b) = true).
    { unfold String.ltb. rewrite String.compare_antisym, Hba. reflexivity. }
    apply ltb_lt in Hca, Hlt.
    pose proof (OrderedTypeEx.String_as_OT.lt_trans _ _ _ Hca Hlt) as Hcb.
    apply ltb_lt in Hcb. congruence.
Qed.

Lemma insert_by_datetime_Forall (P : AggregateRecord -> Prop) (x : AggregateRecord)
  (l : list AggregateRecord) :
  P x -> Forall P l -> Forall P (insert_by_datetime x l).
Proof.
  intros Hx. induction l as [|y l IH]; intros Hl; cbn [insert_by_datetime].
  - constructor; [exact Hx | constructor].
  - apply Forall_cons_iff in Hl. destruct Hl as [Hy Hl].
    destruct (String.ltb (datetime y) (datetime x)).
    + constructor; [exact Hy | apply IH; exact Hl].
    + constructor; [exact Hx | constructor; assumption].
Qed.

Lemma insert_by_datetime_sorted (x : AggregateRecord) (l : list AggregateRecord) :
  StronglySorted dt_le l -> StronglySorted dt_le (insert_by_datetime x l).
Proof.
  induction l as [|y l IH]; intros Hs; cbn [insert_by_datetime].
  - constructor; constructor.
  - apply StronglySorted_inv in Hs. destruct Hs as [Hs Hy].
    destruct (String.ltb (datetime y) (datetime x)) eqn:E.
    + constructor; [apply IH; exact Hs|].
      apply insert_by_datetime_Forall; [|exact Hy].
      unfold dt_le. apply ltb_asym. exact E.
    + constructor; [constructor; assumption|].
      constructor; [exact E|].
      eapply Forall_impl; [|exact Hy].
      intros z Hz. apply dt_le_trans with y; [exact E | exact Hz].
Qed.

Lemma sorted_by_datetime_sorted (l : list AggregateRecord) :
  StronglySorted dt_le (sorted_by_datetime l).
Proof.
  induction l as [|x l IH]; cbn [sorted_by_datetime];
    [constructor | apply insert_by_datetime_sorted; exact IH].
Qed.

Lemma insert_by_datetime_permutation (x : AggregateRecord) (l : list AggregateRecord) :
  Permutation (x :: l) (insert_by_datetime x l).
Proof.
  induction l as [|y l IH]; cbn [insert_by_datetime]; [reflexivity|].
  destruct (String.ltb (datetime y) (datetime x)); [|reflexivity].
  rewrite perm_swap. apply perm_skip. exact IH.
Qed.

Lemma sorted_by_datetime_permutation (l : list AggregateRecord) :
  Permutation l (sorted_by_datetime l).
Proof.
  induction l as [|x l IH]; cbn [sorted_by_datetime]; [reflexivity|].
  rewrite <- insert_by_datetime_permutation. apply perm_skip. exact IH.
Qed.

Lemma skipn_sorted (n : nat) (l : list AggregateRecord) :
  StronglySorted dt_le l -> StronglySorted dt_le (skipn n l).
Proof.
  revert l. induction n as [|n IH]; intros l Hs; [exact Hs|].
  destruct l as [|x l]; [exact Hs|].
  cbn [skipn]. apply IH. apply StronglySorted_inv in Hs. apply Hs.
Qed.

Lemma last_n_split {A} (n : nat) (l : list A) :
  exists dropped, l = dropped ++ last_n n l /\ (dropped <> [] -> length (last_n n l) = n).
Proof.
  unfold last_n. destruct n as [|n].
  - exists []. split; [reflexivity | congruence].
  - exists (firstn (length l - S n) l). split.
    + symmetry. apply firstn_skipn.
    + intros Hd. rewrite length_skipn.
      destruct (Nat.le_gt_cases (length l) (S n)) as [Hle|Hgt]; [|lia].
      exfalso. apply Hd.
      replace (length l - S n)%nat with 0%nat by lia. reflexivity.
Qed.

Lemma last_n_length {A} (n : nat) (l : list A) :
  (0 < n)%nat -> length (last_n n l) = Nat.min n (length l).
Proof.
  intros Hn. unfold last_n. destruct n as [|n]; [lia|].
  rewrite length_skipn. lia.
Qed.

(** The tail both rollups share: sort the merged records and keep the last
    [n] of them. *)
Lemma retained_records (n : nat) (records : list AggregateRecord) :
  (0 < n)%nat ->
  (length (last_n n (sorted_by_datetime records)) <= n)%nat /\
  (records <> [] -> last_n n (sorted_by_datetime records) <> []) /\
  exists dropped,
    Permutation records (dropped ++ last_n n (sorted_by_datetime records)) /\
    StronglySorted dt_le (dropped ++ last_n n (sorted_by_datetime records)) /\
    (dropped <> [] -> length (last_n n (sorted_by_datetime records)) = n).
Proof.
  intros Hn.
  pose proof (last_n_length n (sorted_by_datetime records) Hn) as Hlen.
  pose proof (Permutation_length (sorted_by_datetime_permutation records)) as Hp.
  split; [lia|]. split.
  - intros Hne E. rewrite E in Hlen. cbn [length] in Hlen.
    destruct records; [congruence | cbn [length] in Hp; lia].
  - destruct (last_n_split n (sorted_by_datetime records)) as [dropped [Hd Hfull]].
    exists dropped. rewrite <- Hd.
    split; [apply sorted_by_datetime_permutation|].
    split; [apply sorted_by_datetime_sorted | exact Hfull].
Qed.

Lemma setdefault_append_keys {V} (key : string) (r : V) (d : dict (list V)) (k : string) :
  In k (keys (setdefault_append key r d)) <-> k = key \/ In k (keys d).
Proof.
  induction d as [|[k0 v] d IH]; cbn [setdefault_append].
  - simpl. intuition congruence.
  - destruct (String.eqb_spec k0 key) as [E|E]; cbn [keys map fst In].
    + subst. intuition congruence.
    + fold (keys (setdefault_append key r d)). fold (keys d). rewrite IH. intuition.
Qed.

Lemma setdefault_append_nonempty {V} (key : string) (r : V) (d : dict (list V)) :
  setdefault_append key r d <> [].
Proof.
  destruct d as [|[k0 v] d]; cbn [setdefault_append]; [discriminate|].
  destruct (String.eqb k0 key); discriminate.
Qed.

(** The two loops that fill the dictionary of a rollup. *)
Lemma group_loop_keys (fmt : DateTime.t -> string) (data : list AggregateRecord)
  (d d' : dict (list AggregateRecord)) :
  rfold (fun d r =>
           (dt <~ DateTime.fromisoformat (datetime r) ;;
            Ok (setdefault_append (fmt dt) r d))%py) data d = Ok d' ->
  (data <> [] -> d' <> []) /\
  forall k, In k (keys d') ->
            In k (keys d) \/
            exists r dt, In r data /\ DateTime.fromisoformat (datetime r) = Ok dt /\
                         fmt dt = k.
Proof.
  revert d. induction data as [|r data IH]; intros d H; cbn [rfold] in H.
  - injection H as <-. split; [congruence | intros k Hk; left; exact Hk].
  - destruct (DateTime.fromisoformat (datetime r)) as [dt|e] eqn:Hp; cbn [rbind] in H;
      [|discriminate].
    destruct (IH _ H) as [Hne Hkeys]. split.
    + intros _. destruct data as [|r' data].
      * cbn [rfold] in H. injection H as <-. apply setdefault_append_nonempty.
      * apply Hne. discriminate.
    + intros k Hk. destruct (Hkeys k Hk) as [Hin|(r' & dt' & Hr' & Hp' & Hf)].
      * apply setdefault_append_keys in Hin. destruct Hin as [->|Hin].
        -- right. exists r, dt. split; [left; reflexivity | split; [exact Hp | reflexivity]].
        -- left. exact Hin.
      * right. exists r', dt'. split; [right; exact Hr' | split; assumption].
Qed.

Lemma stored_loop_nonempty (stored : list AggregateRecord) (d : dict (list AggregateRecord)) :
  d <> [] ->
  fold_left (fun d r => setdefault_append (datetime r) r d) stored d <> [].
Proof.
  revert d. induction stored as [|r stored IH]; intros d Hd; cbn [fold_left]; [exact Hd|].
  apply IH. apply setdefault_append_nonempty.
Qed.

Lemma merge_monitor_records_datetime (records : list AggregateRecord) (key : string)
  (m : AggregateRecord) :
  _merge_monitor_records records key = Ok m -> datetime m = key.
Proof.
  unfold _merge_monitor_records. intros H.
  destruct (getitem records 0) as [first|e]; cbn [rbind] in H; [|discriminate].
  cbv zeta in H.
  repeat match type of H with
         | rbind ?c _ = _ => destruct c; cbn [rbind] in H; [|discriminate]
         end.
  injection H as <-. reflexivity.
Qed.

Lemma comprehension_Forall {A B} (f : A -> result B) (P : B -> Prop) (l : list A)
  (out : list B) :
  (forall x y, In x l -> f x = Ok y -> P y) ->
  comprehension f l = Ok out -> Forall P out.
Proof.
  revert out. induction l as [|x l IH]; intros out Hf H; cbn [comprehension] in H.
  - injection H as <-. constructor.
  - destruct (f x) as [y|e] eqn:Hx; cbn [rbind] in H; [|discriminate].
    destruct (comprehension f l) as [ys|e]; cbn [rbind] in H; [|discriminate].
    injection H as <-. constructor.
    + apply (Hf x y); [left; reflexivity | exact Hx].
    + apply IH; [|reflexivity]. intros x' y' Hin. apply Hf. right. exact Hin.
Qed.

Lemma comprehension_Forall2 {A B} (f : A -> result B) (l : list A) (out : list B) :
  comprehension f l = Ok out -> Forall2 (fun x y => f x = Ok y) l out.
Proof.
  revert out. induction l as [|x l IH]; intros out H; cbn [comprehension] in H.
  - injection H as <-. constructor.
  - destruct (f x) as [y|e] eqn:Hx; cbn [rbind] in H; [|discriminate].
    destruct (comprehension f l) as [ys|e]; cbn [rbind] in H; [|discriminate].
    injection H as <-. constructor; [exact Hx | apply IH; reflexivity].
Qed.

Lemma last_n_incl {A} (n : nat) (l : list A) (x : A) : In x (last_n n l) -> In x l.
Proof.
  destruct (last_n_split n l) as [dropped [E _]]. intros H.
  rewrite E. apply in_or_app. right. exact H.
Qed.

(** *** Grouping by key *)

Lemma keys_setdefault_append (key : string) (r : AggregateRecord)
  (d : dict (list AggregateRecord)) :
  keys (setdefault_append key r d) = add_key (keys d) key.
Proof.
  unfold add_key. induction d as [|[k0 v] d IH]; cbn [setdefault_append keys map fst existsb].
  - reflexivity.
  - rewrite (String.eqb_sym key k0).
    destruct (String.eqb k0 key); cbn [orb map fst]; [reflexivity|].
    fold (keys (setdefault_append key r d)). fold (keys d). rewrite IH.
    destruct (existsb (String.eqb key) (keys d)); reflexivity.
Qed.

Lemma add_key_In (seen : list string) (k k' : string) :
  In k' (add_key seen k) <-> In k' seen \/ k' = k.
Proof.
  unfold add_key. destruct (existsb (String.eqb k) seen) eqn:E.
  - split; [left; assumption|]. intros [H| ->]; [exact H|].
    apply existsb_exists in E. destruct E as (x & Hx & Ex).
    apply String.eqb_eq in Ex. subst. exact Hx.
  - rewrite in_app_iff. simpl. intuition.
Qed.

Lemma add_key_NoDup (seen : list string) (k : string) :
  NoDup seen -> NoDup (add_key seen k).
Proof.
  intros H. unfold add_key. destruct (existsb (String.eqb k) seen) eqn:E; [exact H|].
  apply NoDup_app; [exact H | repeat constructor; intros [] | ].
  intros x Hx [E'|[]]. subst x.
  assert (existsb (String.eqb k) seen = true); [|congruence].
  apply existsb_exists. exists k. split; [exact Hx | apply String.eqb_refl].
Qed.

Lemma distinct_keys_spec (ks seen : list string) :
  NoDup seen ->
  NoDup (fold_left add_key ks seen) /\
  forall k, In k (fold_left add_key ks seen) <-> In k seen \/ In k ks.
Proof.
  revert seen. induction ks as [|k ks IH]; intros seen H; cbn [fold_left].
  - split; [exact H|]. intros k. simpl. intuition.
  - destruct (IH (add_key seen k) (add_key_NoDup seen k H)) as [Hn Hi].
    split; [exact Hn|]. intros k'. rewrite Hi, add_key_In. simpl. intuition.
Qed.

(** [setdefault] and [append] on a dictionary given by its keys. *)
Lemma setdefault_append_groups_by (key : string) (r : AggregateRecord)
  (g : string -> list AggregateRecord) (K : list string) :
  NoDup K -> (~ In key K -> g key = []) ->
  setdefault_append key r (map (fun k => (k, g k)) K)
  = map (fun k => (k, if String.eqb k key then g k ++ [r] else g k)) (add_key K key).
Proof.
  unfold add_key. induction K as [|k0 K IH]; intros Hn Hg.
  - cbn. rewrite String.eqb_refl, Hg by (intros []). reflexivity.
  - cbn [map setdefault_append existsb]. rewrite (String.eqb_sym key k0).
    apply NoDup_cons_iff in Hn. destruct Hn as [Hk0 Hn].
    destruct (String.eqb_spec k0 key) as [E|E]; cbn [orb map].
    + subst k0. f_equal; [rewrite String.eqb_refl; reflexivity|].
      apply map_ext_in. intros k Hk.
      destruct (String.eqb_spec k key) as [->|_]; [contradiction | reflexivity].
    + rewrite IH; [| exact Hn | intros H; apply Hg; intros [H'|H']; [congruence | contradiction]].
      apply String.eqb_neq in E.
      destruct (existsb (String.eqb key) K); cbn [app map]; rewrite E; reflexivity.
Qed.

Lemma filed_under_snoc (k key : string) (r : AggregateRecord)
  (items : list (string * AggregateRecord)) :
  filed_under k (items ++ [(key, r)])
  = if String.eqb k key then filed_under k items ++ [r] else filed_under k items.
Proof.
  unfold filed_under. rewrite filter_app, map_app. cbn [filter fst].
  rewrite (String.eqb_sym key k).
  destruct (String.eqb k key); cbn [map snd]; [reflexivity | apply app_nil_r].
Qed.

Lemma filed_under_absent (k : string) (items : list (string * AggregateRecord)) :
  ~ In k (map fst items) -> filed_under k items = [].
Proof.
  unfold filed_under. induction items as [|[k0 r] items IH]; intros H; [reflexivity|].
  cbn [filter fst]. destruct (String.eqb_spec k0 k) as [E|E].
  - exfalso. apply H. left. exact E.
  - apply IH. intros H'. apply H. right. exact H'.
Qed.

(** The dictionary the two loops build is the grouping by key. *)
Lemma fold_file_under (items : list (string * AggregateRecord)) :
  fold_left file_under items []
  = map (fun k => (k, filed_under k items)) (distinct_keys (map fst items)).
Proof.
  induction items as [|[key r] items IH] using rev_ind; [reflexivity|].
  rewrite fold_left_app. cbn [fold_left]. unfold file_under at 1. cbn [fst snd].
  rewrite IH.
  destruct (distinct_keys_spec (map fst items) [] (NoDup_nil _)) as [Hn Hi].
  fold (distinct_keys (map fst items)) in Hn, Hi.
  rewrite (setdefault_append_groups_by key r (fun k => filed_under k items)); [|exact Hn|].
  - rewrite map_app. cbn [map fst]. unfold distinct_keys at 2. rewrite fold_left_app.
    cbn [fold_left]. fold (distinct_keys (map fst items)).
    apply map_ext. intros k. rewrite filed_under_snoc. reflexivity.
  - intros H. apply filed_under_absent. intros H'. apply H. apply Hi. right. exact H'.
Qed.

Lemma values_fold_file_under (items : list (string * AggregateRecord)) :
  values (fold_left file_under items []) = groups_by items.
Proof.
  rewrite fold_file_under. unfold values, groups_by. rewrite map_map. reflexivity.
Qed.

(** The first loop, when it returns, has filed every record under the key
    read from its datetime. *)
Lemma group_loop_file_under (fmt : DateTime.t -> string) (data : list AggregateRecord)
  (d d' : dict (list AggregateRecord)) :
  rfold (fun d r =>
           (dt <~ DateTime.fromisoformat (datetime r) ;;
            Ok (setdefault_append (fmt dt) r d))%py) data d = Ok d' ->
  Forall readable data /\
  d' = fold_left file_under (map (fun r => (stamp_key fmt r, r)) data) d.
Proof.
  revert d. induction data as [|r data IH]; intros d H; cbn [rfold] in H.
  - injection H as <-. split; [constructor | reflexivity].
  - destruct (DateTime.fromisoformat (datetime r)) as [dt|e] eqn:Hp; cbn [rbind] in H;
      [|discriminate].
    destruct (IH _ H) as [Hr ->]. split.
    + constructor; [exists dt; exact Hp | exact Hr].
    + cbn [map fold_left]. unfold file_under at 3, stamp_key. cbn [fst snd].
      rewrite Hp. reflexivity.
Qed.

Lemma stored_loop_file_under (stored : list AggregateRecord)
  (d : dict (list AggregateRecord)) :
  fold_left (fun d r => setdefault_append (datetime r) r d) stored d
  = fold_left file_under (map (fun r => (datetime r, r)) stored) d.
Proof.
  revert d. induction stored as [|r stored IH]; intros d; [reflexivity|].
  cbn [map fold_left]. rewrite IH. reflexivity.
Qed.

(** Both loops together. *)
Lemma rollup_groups (fmt : DateTime.t -> string) (input stored : list AggregateRecord)
  (grouped : dict (list AggregateRecord)) :
  rfold (fun d r =>
           (dt <~ DateTime.fromisoformat (datetime r) ;;
            Ok (setdefault_append (fmt dt) r d))%py) input [] = Ok grouped ->
  Forall readable input /\
  values (fold_left (fun d r => setdefault_append (datetime r) r d) stored grouped)
  = groups_by (rollup_items fmt input stored).
Proof.
  intros H. destruct (group_loop_file_under _ _ _ _ H) as [Hr ->].
  split; [exact Hr|].
  rewrite stored_loop_file_under, <- fold_left_app. apply values_fold_file_under.
Qed.

Lemma retained_tail (n : nat) (records : list AggregateRecord) :
  (0 < n)%nat ->
  exists dropped,
    sorted_by_datetime records = dropped ++ last_n n (sorted_by_datetime records) /\
    Permutation records (dropped ++ last_n n (sorted_by_datetime records)) /\
    StronglySorted dt_le (dropped ++ last_n n (sorted_by_datetime records)) /\
    (length (last_n n (sorted_by_datetime records)) <= n)%nat /\
    (records <> [] -> last_n n (sorted_by_datetime records) <> []) /\
    (dropped <> [] -> length (last_n n (sorted_by_datetime records)) = n).
Proof.
  intros Hn.
  destruct (retained_records n records Hn) as (Hlen & Hkeep & _).
  destruct (last_n_split n (sorted_by_datetime records)) as [dropped [Hd Hfull]].
  exists dropped. split; [exact Hd|]. rewrite <- Hd.
  split; [apply sorted_by_datetime_permutation|].
  split; [apply sorted_by_datetime_sorted|].
  split; [exact Hlen|]. split; [exact Hkeep | exact Hfull].
Qed.

(** X10.  What the daily rollup does.  [_push_to_file_1day] ends in one of
    three ways: it returns without writing because the hourly file is
    missing or empty; it raises and nothing has changed; or it returns
    having replaced the daily file alone.  In the last case every hourly
    datetime parses, and the list written is determined by the two files:
    the hourly records, filed under the date of their datetime, and then the
    stored daily records, filed under their datetime, form one group per
    distinct key, in the order in which the keys first appear; each group is
    merged, keyed with the first ten characters of its first record's
    datetime; the merged records are sorted by datetime and the list written
    is the end of that sorted list.  It is not empty, holds at most
    [max1d_record_length] records, and drops records only when it holds that
    many; nothing in it is earlier than a dropped record. *)
Theorem daily_rollup_outcomes (w : World) :
  (_push_to_file_1day w = (w, Ok tt) /\
   (monitor_1h_json w = None \/ monitor_1h_json w = Some [])) \/
  (exists e, _push_to_file_1day w = (w, Raise e)) \/
  (exists hourly merged dropped l,
      monitor_1h_json w = Some hourly /\
      _push_to_file_1day w = (write_1day l w, Ok tt) /\
      Forall readable hourly /\
      Forall2 (fun group m =>
                 exists first rest,
                   group = first :: rest /\
                   _merge_monitor_records group (substring 0 10 (datetime first)) = Ok m)
              (groups_by (rollup_items DateTime.strftime_Ymd hourly
                            (load_or_empty (monitor_1day_json w))))
              merged /\
      sorted_by_datetime merged = dropped ++ l /\
      Permutation merged (dropped ++ l) /\
      StronglySorted dt_le (dropped ++ l) /\
      l <> [] /\
      (length l <= config.max1d_record_length)%nat /\
      (dropped <> [] -> length l = config.max1d_record_length)).
Proof.
  unfold _push_to_file_1day, bind, get, lift, modify, ret. cbv beta iota.
  destruct (monitor_1h_json w) as [[|r data]|] eqn:Hf; cbv beta iota.
  - left. split; [reflexivity | right; reflexivity].
  - right.
    match goal with
    | |- context [rfold ?f ?l ?a] => destruct (rfold f l a) as [grouped|e] eqn:Hg
    end; cbv beta iota; [|left; exists e; reflexivity].
    match goal with
    | |- context [comprehension ?f ?l] =>
        destruct (comprehension f l) as [daily_records|e] eqn:Hc
    end; cbv beta iota; [|left; exists e; reflexivity].
    right.
    assert (Hne : daily_records <> []).
    { pose proof (comprehension_length _ _ _ Hc) as Hl.
      unfold values in Hl. rewrite length_map in Hl.
      destruct (group_loop_keys _ _ _ _ Hg) as [Hgne _].
      pose proof (stored_loop_nonempty (load_or_empty (monitor_1day_json w)) grouped
                    (Hgne ltac:(discriminate))) as Hd.
      intros E. rewrite E in Hl. simpl in Hl.
      destruct (fold_left _ _ grouped); [congruence | discriminate]. }
    destruct (rollup_groups DateTime.strftime_Ymd (r :: data)
                (load_or_empty (monitor_1day_json w)) grouped Hg) as [Hread Hgroups].
    rewrite Hgroups in Hc.
    destruct (retained_tail config.max1d_record_length daily_records)
      as (dropped & Hsplit & Hperm & Hs & Hlen & Hkeep & Hfull);
      [unfold config.max1d_record_length; lia|].
    exists (r :: data), daily_records, dropped,
      (last_n config.max1d_record_length (sorted_by_datetime daily_records)).
    split; [reflexivity|]. split; [reflexivity|]. split; [exact Hread|].
    split.
    { apply comprehension_Forall2 in Hc.
      eapply Forall2_impl; [|exact Hc].
      intros group m Hm. cbv beta in Hm.
      destruct group as [|first rest]; [discriminate|].
      cbn [getitem nth_error rbind] in Hm.
      exists first, rest. split; [reflexivity | exact Hm]. }
    split; [exact Hsplit|]. split; [exact Hperm|]. split; [exact Hs|].
    split; [apply Hkeep; exact Hne|]. split; [exact Hlen | exact Hfull].
  - left. split; [reflexivity | left; reflexivity].
Qed.

(** One day of hourly records next to a stored record of that day and one of
    the day before: two groups, the day's group first, the stored record of
    the day at its end. *)
Example daily_groups_of_a_day :
  let yesterday := set_datetime "2025-01-01" second_of_january in
  groups_by (rollup_items DateTime.strftime_Ymd day2 [yesterday; second_of_january])
  = [day2 ++ [second_of_january]; [yesterday]].
Proof. vm_compute. reflexivity. Qed.

(** X11.  What the monthly rollup does.  [_push_to_file_1month] returns
    without writing when the daily file is missing or empty, or raises with
    nothing changed, or returns having replaced the monthly file alone.  In
    the last case every daily datetime parses, and the list written is
    determined by the two files: the daily records, filed under the month of
    their datetime, and then the stored monthly records, filed under their
    datetime, form one group per distinct key, in the order in which the
    keys first appear; each group is merged, keyed with the month read from
    its first record's datetime; the merged records are sorted by datetime
    and the list written is the end of that sorted list.  It is not empty,
    holds at most [max1month_record_length] records, each under a [%Y-%m]
    key, and drops records only when it holds that many. *)
Theorem monthly_rollup_outcomes (w : World) :
  (_push_to_file_1month w = (w, Ok tt) /\
   (monitor_1day_json w = None \/ monitor_1day_json w = Some [])) \/
  (exists e, _push_to_file_1month w = (w, Raise e)) \/
  (exists days merged dropped l,
      monitor_1day_json w = Some days /\
      _push_to_file_1month w = (write_1month l w, Ok tt) /\
      Forall readable days /\
      Forall2 (fun group m =>
                 exists first rest dt,
                   group = first :: rest /\
                   DateTime.fromisoformat (datetime first) = Ok dt /\
                   _merge_monitor_records group (DateTime.strftime_Ym dt) = Ok m)
              (groups_by (rollup_items DateTime.strftime_Ym days
                            (load_or_empty (monitor_1month_json w))))
              merged /\
      sorted_by_datetime merged = dropped ++ l /\
      Permutation merged (dropped ++ l) /\
      StronglySorted dt_le (dropped ++ l) /\
      l <> [] /\
      (length l <= config.max1month_record_length)%nat /\
      Forall month_key l /\
      (dropped <> [] -> length l = config.max1month_record_length)).
Proof.
  unfold _push_to_file_1month, bind, get, lift, modify, ret. cbv beta iota.
  destruct (monitor_1day_json w) as [[|r data]|] eqn:Hf; cbv beta iota.
  - left. split; [reflexivity | right; reflexivity].
  - right.
    match goal with
    | |- context [rfold ?f ?l ?a] => destruct (rfold f l a) as [grouped|e] eqn:Hg
    end; cbv beta iota; [|left; exists e; reflexivity].
    match goal with
    | |- context [comprehension ?f ?l] =>
        destruct (comprehension f l) as [monthly_records|e] eqn:Hc
    end; cbv beta iota; [|left; exists e; reflexivity].
    right.
    assert (Hne : monthly_records <> []).
    { pose proof (comprehension_length _ _ _ Hc) as Hl.
      unfold values in Hl. rewrite length_map in Hl.
      destruct (group_loop_keys _ _ _ _ Hg) as [Hgne _].
      pose proof (stored_loop_nonempty (load_or_empty (monitor_1month_json w)) grouped
                    (Hgne ltac:(discriminate))) as Hd.
      intros E. rewrite E in Hl. simpl in Hl.
      destruct (fold_left _ _ grouped); [congruence | discriminate]. }
    destruct (rollup_groups DateTime.strftime_Ym (r :: data)
                (load_or_empty (monitor_1month_json w)) grouped Hg) as [Hread Hgroups].
    rewrite Hgroups in Hc.
    assert (Hmerged : Forall2
              (fun group m =>
                 exists first rest dt,
                   group = first :: rest /\
                   DateTime.fromisoformat (datetime first) = Ok dt /\
                   _merge_monitor_records group (DateTime.strftime_Ym dt) = Ok m)
              (groups_by (rollup_items DateTime.strftime_Ym (r :: data)
                            (load_or_empty (monitor_1month_json w))))
              monthly_records).
    { apply comprehension_Forall2 in Hc.
      eapply Forall2_impl; [|exact Hc].
      intros group m Hm. cbv beta in Hm.
      destruct group as [|first rest]; [discriminate|].
      cbn [getitem nth_error rbind] in Hm.
      destruct (DateTime.fromisoformat (datetime first)) as [dt|e] eqn:Hdt;
        cbn [rbind] in Hm; [|discriminate].
      exists first, rest, dt. split; [reflexivity|]. split; [exact Hdt | exact Hm]. }
    assert (Hkeys : Forall month_key monthly_records).
    { clear -Hmerged. induction Hmerged as [|group m groups ms (first & rest & dt & _ & _ & Hm) _ IH];
        constructor; [|exact IH].
      exists dt. apply (merge_monitor_records_datetime _ _ _ Hm). }
    destruct (retained_tail config.max1month_record_length monthly_records)
      as (dropped & Hsplit & Hperm & Hs & Hlen & Hkeep & Hfull);
      [unfold config.max1month_record_length; lia|].
    exists (r :: data), monthly_records, dropped,
      (last_n config.max1month_record_length (sorted_by_datetime monthly_records)).
    split; [reflexivity|]. split; [reflexivity|]. split; [exact Hread|].
    split; [exact Hmerged|].
    split; [exact Hsplit|]. split; [exact Hperm|]. split; [exact Hs|].
    split; [apply Hkeep; exact Hne|]. split; [exact Hlen|].
    split; [|exact Hfull].
    rewrite Forall_forall in Hkeys |- *. intros x Hx. apply Hkeys.
    apply (Permutation_in x (Permutation_sym Hperm)).
    apply in_or_app. right. exact Hx.
  - left. split; [reflexivity | left; reflexivity].
Qed.

(** ** A month whose days have left the daily file *)

Lemma parse_seven_characters (c1 c2 c3 c4 c5 c6 : ascii) :
  DateTime.parse
    (String c1 (String c2 (String c3 (String c4
       (String "-" (String c5 (String c6 EmptyString))))))) = None.
Proof.
  unfold DateTime.parse. cbn [DateTime.digits].
  destruct (DateTime.digit c1); [|reflexivity].
  destruct (DateTime.digit c2); [|reflexivity].
  destruct (DateTime.digit c3); [|reflexivity].
  destruct (DateTime.digit c4); [|reflexivity].
  cbn [DateTime.expect]. rewrite Ascii.eqb_refl. cbn [DateTime.digits].
  destruct (DateTime.digit c5); [|reflexivity].
  destruct (DateTime.digit c6); reflexivity.
Qed.

(** [fromisoformat] rejects every [%Y-%m] key. *)
Lemma fromisoformat_month_key (dt : DateTime.t) :
  DateTime.fromisoformat (DateTime.strftime_Ym dt) = Raise ValueError.
Proof.
  unfold DateTime.fromisoformat, DateTime.strftime_Ym, DateTime.pad4, DateTime.pad2.
  cbn [String.append]. rewrite parse_seven_characters. reflexivity.
Qed.

Lemma setdefault_append_headed (known : list string) (r : AggregateRecord)
  (d : dict (list AggregateRecord)) :
  headed known d -> headed known (setdefault_append (datetime r) r d).
Proof.
  induction d as [|[k0 v] d IH]; intros H k recs Hin; cbn [setdefault_append] in Hin.
  - destruct Hin as [E|[]]. injection E as <- <-.
    right. exists r, []. split; reflexivity.
  - destruct (String.eqb_spec k0 (datetime r)) as [E|E].
    + destruct Hin as [E'|Hin].
      * injection E' as <- <-.
        destruct (H k0 v (or_introl eq_refl)) as [Hk|(r0 & rest & -> & Hr0)].
        -- left. exact Hk.
        -- right. exists r0, (rest ++ [r]). split; [reflexivity | exact Hr0].
      * apply (H k recs). right. exact Hin.
    + destruct Hin as [E'|Hin].
      * apply (H k recs). left. exact E'.
      * apply IH; [|exact Hin]. intros k' recs' Hin'. apply (H k' recs'). right. exact Hin'.
Qed.

Lemma stored_loop_headed (known : list string) (stored : list AggregateRecord)
  (d : dict (list AggregateRecord)) :
  headed known d ->
  headed known (fold_left (fun d r => setdefault_append (datetime r) r d) stored d) /\
  forall r, In r stored ->
            In (datetime r)
               (keys (fold_left (fun d r => setdefault_append (datetime r) r d) stored d)).
Proof.
  revert d. induction stored as [|r stored IH]; intros d H; cbn [fold_left].
  - split; [exact H | intros r []].
  - destruct (IH _ (setdefault_append_headed known r d H)) as [Hh Hk].
    split; [exact Hh|].
    intros r' [<-|Hr']; [|apply Hk; exact Hr'].
    clear -stored. 
    assert (G : forall stored d k, In k (keys d) ->
                  In k (keys (fold_left (fun d r => setdefault_append (datetime r) r d)
                                        stored d))).
    { clear. induction stored as [|x stored IH]; intros d k Hk; cbn [fold_left];
        [exact Hk|].
      apply IH. apply setdefault_append_keys. right. exact Hk. }
    apply G. apply setdefault_append_keys. left. reflexivity.
Qed.

Lemma comprehension_raises_in {A B} (f : A -> result B) (e : exn) (x : A) (l : list A) :
  In x l -> f x = Raise e -> exists e', comprehension f l = Raise e'.
Proof.
  induction l as [|y l IH]; intros Hin Hx; [destruct Hin|].
  cbn [comprehension].
  destruct (f y) as [v|e0] eqn:Hy; cbn [rbind]; [|exists e0; reflexivity].
  destruct Hin as [->|Hin]; [congruence|].
  destruct (IH Hin Hx) as [e' He']. rewrite He'. exists e'. reflexivity.
Qed.

(** X12.  A stored month without days stops the monthly rollup.  When the monthly
    file holds a record under a [%Y-%m] key and no record of the non-empty
    daily file falls in that month, [_push_to_file_1month] raises and
    writes nothing: the stored record is alone in its group, and the key of
    the group's first record, which [fromisoformat] rejects, is parsed for
    the merged datetime. *)
Theorem monthly_rollup_stale_month (w : World) (days months : list AggregateRecord)
  (r : AggregateRecord) :
  monitor_1day_json w = Some days -> days <> [] ->
  monitor_1month_json w = Some months ->
  In r months -> month_key r ->
  (forall d dt, In d days -> DateTime.fromisoformat (datetime d) = Ok dt ->
                DateTime.strftime_Ym dt <> datetime r) ->
  exists e, _push_to_file_1month w = (w, Raise e).
Proof.
  intros Hd Hne Hm Hr [m Hkey] Hstale.
  unfold _push_to_file_1month, bind, get, lift, modify, ret. cbv beta iota.
  rewrite Hd, Hm. destruct days as [|d0 days]; [congruence|]. cbv beta iota.
  cbn [load_or_empty].
  match goal with
  | |- context [rfold ?f ?l ?a] => destruct (rfold f l a) as [grouped|e] eqn:Hg
  end; cbv beta iota; [|exists e; reflexivity].
  destruct (group_loop_keys _ _ _ _ Hg) as [_ Hkeys].
  assert (Hh : headed (keys grouped) grouped).
  { intros k recs Hin. left. apply (in_map fst _ _ Hin). }
  destruct (stored_loop_headed (keys grouped) months grouped Hh) as [Hh' Hin'].
  specialize (Hin' r Hr). unfold keys in Hin'. apply in_map_iff in Hin'.
  destruct Hin' as ([k recs] & Hk & Hin'). cbn [fst] in Hk. subst k.
  destruct (Hh' _ _ Hin') as [Hknown|(r0 & rest & -> & Hr0)].
  - exfalso. destruct (Hkeys _ Hknown) as [[]|(d & dt & Hdin & Hp & Hf)].
    exact (Hstale d dt Hdin Hp Hf).
  - match goal with
    | |- context [comprehension ?f ?l] =>
        destruct (comprehension_raises_in f ValueError (r0 :: rest) l) as [e' He']
    end.
    + unfold values. apply (in_map snd _ _ Hin').
    + cbn [getitem nth_error rbind]. rewrite Hr0, Hkey, fromisoformat_month_key.
      reflexivity.
    + rewrite He'. exists e'. reflexivity.
Qed.

Lemma monthly_rollup_stale_month_witness :
  exists e, _push_to_file_1month world_with_stale_month = (world_with_stale_month, Raise e).
Proof.
  apply (monthly_rollup_stale_month world_with_stale_month [second_of_january] [november]
           november).
  - reflexivity.
  - discriminate.
  - reflexivity.
  - left. reflexivity.
  - exists (DateTime.mk 2024 11 1 0 ""). vm_compute. reflexivity.
  - intros d dt [<-|[]] Hp. vm_compute in Hp. injection Hp as <-.
    vm_compute. discriminate.
Defined.

(** The exception is the [ValueError] of [fromisoformat]; a flush that runs
    into it has by then reset the accumulator and written the hourly and the
    daily file. *)
Example stale_month_raises_value_error :
  _push_to_file_1month world_with_stale_month = (world_with_stale_month, Raise ValueError) /\
  (let w := mkWorld (fst (feed three_samples init)) None (Some [second_of_january])
                    (Some [november]) in
   let out := push_to_file sample_os w in
   snd out = Raise ValueError /\
   self (fst out) = init /\
   monitor_1h_json (fst out) = Some [finalize sample_os (self w)] /\
   monitor_1day_json (fst out) <> monitor_1day_json w /\
   monitor_1month_json (fst out) = Some [november]).
Proof. cbv zeta. by_evaluation. Qed.

(** ** Merging a single record *)

Lemma round2_single (q : Q) : two_decimals q -> round2 ((0 + q) / of_nat 1) = q.
Proof.
  intros [z ->]. apply round2_hundredths_eq.
  change (of_nat 1) with 1. field.
Qed.

Lemma round2x_two_decimals (x : xQ) : two_decimals_x x -> round2x x = x.
Proof.
  destruct x as [|q|]; simpl; intros H; try reflexivity.
  destruct H as [z ->]. f_equal. apply round2_hundredths.
Qed.

Lemma add_prefix_zeros (l : list Q) :
  add_prefix (repeat 0 (length l)) l = map (fun q => 0 + q) l.
Proof.
  induction l as [|x l IH]; simpl; [reflexivity|]. rewrite IH. reflexivity.
Qed.

Lemma merge_monitor_records_single (r : AggregateRecord) (key : string) :
  rounded_record r ->
  _merge_monitor_records [r] key = Ok (set_datetime key r).
Proof.
  intros H.
  rewrite (merge_monitor_records_ok r [] key) by (repeat constructor).
  f_equal. unfold merge_result, set_datetime. cbn [fold_left length].
  destruct r as [dt [pc tot] [ru ravg rmin rmax rtot] [dtot dused du] [bu btot]].
  destruct H as [Hc Ht Ha Hmin Hmax Hdu Hd0 Hb Hru Hdu' Hbu].
  unfold cores, cpu_total_of, ram_avg_of, ram_min_of, ram_max_of, disk_used_of,
    transfer_total_of in *.
  cbn [cpu ram disk bandwidth Cpu.cpu_per_core_avg Cpu.cpu_total_avg Ram.unit
       Ram.avg_used Ram.min_used Ram.max_used Ram.total Disk.unit Disk.used Disk.total
       Bandwidth.unit Bandwidth.transfer_total] in *.
  subst ru du bu.
  unfold merge_step_value, merge_start, cores.
  cbn [cpu ram disk bandwidth Cpu.cpu_per_core_avg Cpu.cpu_total_avg Ram.unit
       Ram.avg_used Ram.min_used Ram.max_used Ram.total Disk.unit Disk.used Disk.total
       Bandwidth.unit Bandwidth.transfer_total
       cpu_per_core_sum cpu_total_sum ram_avg_sum merged_ram_min merged_ram_max
       merged_bandwidth_total disk_used_max].
  rewrite add_prefix_zeros, map_map.
  assert (Epc : map (fun x => round2 ((0 + x) / of_nat 1)) pc = pc).
  { induction Hc as [|x l Hx Hl IH]; cbn [map]; [reflexivity|].
    rewrite (round2_single x Hx), IH. reflexivity. }
  assert (Emin : round2x (py_min PosInf rmin) = rmin).
  { replace (py_min PosInf rmin) with rmin by (destruct rmin; reflexivity).
    apply round2x_two_decimals. exact Hmin. }
  assert (Emax : round2x (py_max NegInf rmax) = rmax).
  { replace (py_max NegInf rmax) with rmax by (destruct rmax; reflexivity).
    apply round2x_two_decimals. exact Hmax. }
  assert (Edisk : round2 (py_maxQ 0 dused) = dused).
  { destruct Hdu as [z ->]. apply round2_hundredths_eq.
    unfold py_maxQ. destruct (Qltb 0 (z # 100)) eqn:E; [reflexivity|].
    apply Qltb_false in E. lra. }
  rewrite Epc, Emin, Emax, Edisk.
  rewrite (round2_single tot Ht), (round2_single ravg Ha).
  destruct Hb as [z ->].
  rewrite (round2_hundredths_eq (0 + (z # 100)) z) by lra.
  reflexivity.
Qed.

(** X13.  Merging one rounded record gives that record back under the new key:
    the averages of one value, the extrema of one value and the sum of one
    value are the value, and rounding a two-decimal number changes nothing
    (exact arithmetic). *)
Theorem merge_single_rounded_record (r : AggregateRecord) (key : string) :
  rounded_record r ->
  _merge_monitor_records [r] key = Ok (set_datetime key r).
Proof. apply merge_monitor_records_single. Qed.

Lemma merge_single_rounded_record_witness :
  _merge_monitor_records [rounded_host] "2025-01-02"
  = Ok (set_datetime "2025-01-02" rounded_host).
Proof.
  apply (merge_single_rounded_record rounded_host "2025-01-02").
  constructor;
    unfold cores, cpu_total_of, ram_avg_of, ram_min_of, ram_max_of, disk_used_of,
      transfer_total_of, two_decimals_x, two_decimals; cbn;
    try reflexivity; try discriminate; try (eexists; reflexivity).
  constructor; [eexists; reflexivity|].
  constructor; [eexists; reflexivity|].
  constructor.
Defined.

(** ** Sampling: what reaches the accumulator *)

Lemma monitor_sampling_loop_feed (readings : list Psutil.t) (s s' : Monitor)
  (last : Psutil.snetio) :
  feed (snapshots last readings) s = (s', Ok tt) ->
  monitor_sampling_loop readings (mkSampler s last)
  = (mkSampler s' (final_net last readings), Ok tt).
Proof.
  revert s last. induction readings as [|p readings IH]; intros s last H.
  - unfold feed in H. cbn in H. injection H as <-. reflexivity.
  - unfold feed in H. cbn [snapshots for_each] in H. unfold bind at 1 in H.
    unfold monitor_sampling_loop. cbn [for_each]. unfold bind at 1.
    unfold bind at 1. unfold get_and_update_current_stats. cbn [monitor last_net].
    destruct (update_current_stats (snapshot last p) s) as [s1 [[]|e]]; [|discriminate].
    cbn [rbind]. unfold ret at 1. cbn [final_net].
    apply (IH s1 (Psutil.net_io_counters p)). exact H.
Qed.

Lemma snapshots_length (last : Psutil.snetio) (readings : list Psutil.t) :
  length (snapshots last readings) = length readings.
Proof.
  revert last. induction readings as [|p readings IH]; intros last; cbn [snapshots length];
    [reflexivity | rewrite IH; reflexivity].
Qed.

Lemma snapshots_cores (k : nat) (last : Psutil.snetio) (readings : list Psutil.t) :
  Forall (fun p => length (Psutil.cpu_percent p) = k) readings ->
  Forall (fun snap => length (Snapshot.cpu snap) = k) (snapshots last readings).
Proof.
  revert last. induction readings as [|p readings IH]; intros last H; cbn [snapshots].
  - constructor.
  - apply Forall_cons_iff in H. destruct H as [Hp H].
    constructor; [|apply IH; exact H].
    unfold snapshot. cbn [Snapshot.cpu]. rewrite length_map. exact Hp.
Qed.

Lemma sum_cons (x : Q) (l : list Q) : sum (x :: l) == x + sum l.
Proof.
  unfold sum. cbn [fold_left].
  assert (E : forall l a, fold_left Qplus l a == a + fold_left Qplus l 0).
  { clear. induction l as [|y l IHl]; intros a; simpl; [ring|].
    rewrite (IHl (a + y)), (IHl (0 + y)). ring. }
  rewrite (E l (0 + x)). ring.
Qed.

Lemma snapshot_bandwidth (last : Psutil.snetio) (p : Psutil.t) :
  bandwidth_of (snapshot last p)
  = round2 (inject_Z (total_bytes (Psutil.net_io_counters p) - total_bytes last)
            / (1024 * 1024)).
Proof.
  unfold bandwidth_of, snapshot, total_bytes. cbn [Snapshot.bandwidth Bandwidth.transfer_total].
  do 3 f_equal. lia.
Qed.

Lemma Qdiv_200 (x : Q) : x / 200 == x * (1 # 200).
Proof. field. Qed.

(** The recorded megabytes against the counters, over a run. *)
Lemma snapshots_bandwidth_near (last : Psutil.snetio) (readings : list Psutil.t) :
  let recorded := sum (map bandwidth_of (snapshots last readings)) in
  let traffic :=
    inject_Z (total_bytes (final_net last readings) - total_bytes last) / (1024 * 1024) in
  recorded - of_nat (length readings) / 200 <= traffic /\
  traffic <= recorded + of_nat (length readings) / 200.
Proof.
  cbv zeta. revert last. induction readings as [|p readings IH]; intros last.
  - cbn [snapshots map final_net length]. rewrite Z.sub_diag.
    unfold sum. cbn [fold_left]. change (of_nat 0) with 0.
    setoid_replace (inject_Z 0 / (1024 * 1024)) with 0 by reflexivity.
    rewrite Qdiv_200. split; lra.
  - cbn [snapshots map final_net length].
    rewrite sum_cons, snapshot_bandwidth.
    destruct (IH (Psutil.net_io_counters p)) as [Hlo Hhi].
    set (rest := sum (map bandwidth_of (snapshots (Psutil.net_io_counters p) readings))) in *.
    set (fin := total_bytes (final_net (Psutil.net_io_counters p) readings)) in *.
    set (mid := total_bytes (Psutil.net_io_counters p)) in *.
    set (start := total_bytes last).
    destruct (round2_near (inject_Z (mid - start) / (1024 * 1024))) as [Nlo Nhi].
    set (rounded := round2 (inject_Z (mid - start) / (1024 * 1024))) in *.
    replace (S (length readings)) with (length readings + 1)%nat by lia.
    rewrite of_nat_succ.
    assert (E : inject_Z (fin - start) / (1024 * 1024)
                == inject_Z (fin - mid) / (1024 * 1024)
                   + inject_Z (mid - start) / (1024 * 1024)).
    { replace (fin - start)%Z with ((fin - mid) + (mid - start))%Z by lia.
      rewrite inject_Z_plus. field. }
    rewrite E.
    set (a := inject_Z (fin - mid) / (1024 * 1024)) in *.
    set (b := inject_Z (mid - start) / (1024 * 1024)) in *.
    clearbody rest a b rounded. clear IH E.
    rewrite Qdiv_200 in *. split; lra.
Qed.

(** X14.  The sampling loop against the interface counters.  Readings with one
    positive core count, taken by a fresh accumulator whose [last_net] is
    [start]: every call returns, [sample_count] is the number of readings,
    [last_net] ends as the counters of the last reading, and
    [bandwidth_total] differs from the traffic between [start] and that last
    reading, in MiB, by at most 0.005 per reading (each call rounds its own
    difference to two decimals; exact arithmetic). *)
Theorem sampling_loop_bandwidth (k : nat) (readings : list Psutil.t)
  (start : Psutil.snetio) :
  (0 < k)%nat ->
  Forall (fun p => length (Psutil.cpu_percent p) = k) readings ->
  exists st,
    monitor_sampling_loop readings (mkSampler init start) = (st, Ok tt) /\
    sample_count (monitor st) = length readings /\
    last_net st = final_net start readings /\
    let traffic :=
      inject_Z (total_bytes (last_net st) - total_bytes start) / (1024 * 1024) in
    bandwidth_total (monitor st) - of_nat (length readings) / 200 <= traffic /\
    traffic <= bandwidth_total (monitor st) + of_nat (length readings) / 200.
Proof.
  intros Hk Hall.
  destruct (feed_returns k (snapshots start readings) init Hk
              (snapshots_cores k start readings Hall) (or_introl eq_refl)) as [s Hs].
  destruct (feed_counters _ init s Hs) as (Hn & Hb & _).
  exists (mkSampler s (final_net start readings)).
  split; [apply monitor_sampling_loop_feed; exact Hs|].
  cbn [monitor last_net].
  split; [rewrite Hn, snapshots_length; reflexivity|].
  split; [reflexivity|].
  cbv zeta. destruct (snapshots_bandwidth_near start readings) as [Hlo Hhi].
  cbv zeta in Hlo, Hhi. cbn [init bandwidth_total] in Hb.
  rewrite Hb.
  set (traffic := inject_Z (total_bytes (final_net start readings) - total_bytes start)
                  / (1024 * 1024)) in *.
  clearbody traffic. rewrite Qdiv_200 in *. split; lra.
Qed.

Lemma sampling_loop_bandwidth_witness :
  exists st,
    monitor_sampling_loop trickle (mkSampler init (Psutil.mk_net 0 0)) = (st, Ok tt) /\
    sample_count (monitor st) = length trickle /\
    last_net st = final_net (Psutil.mk_net 0 0) trickle /\
    let traffic :=
      inject_Z (total_bytes (last_net st) - total_bytes (Psutil.mk_net 0 0))
      / (1024 * 1024) in
    bandwidth_total (monitor st) - of_nat (length trickle) / 200 <= traffic /\
    traffic <= bandwidth_total (monitor st) + of_nat (length trickle) / 200.
Proof.
  apply (sampling_loop_bandwidth 2 trickle (Psutil.mk_net 0 0)).
  - lia.
  - repeat constructor.
Defined.

Lemma round2_small (q : Q) : - (1 # 200) < q -> q < 1 # 200 -> round2 q == 0.
Proof.
  intros Hlo Hhi. destruct (round2_near q) as [Nlo Nhi].
  rewrite round2_value in *.
  set (z := round_half_even (q * 100)) in *.
  assert (Hz : z = 0%Z).
  { assert (E : inject_Z z / 100 == inject_Z z * (1 # 100)) by field.
    rewrite E in Nlo, Nhi.
    assert (H1 : inject_Z z < 1) by lra.
    assert (H2 : -1 < inject_Z z) by lra.
    change 1 with (inject_Z 1) in H1. change (-1) with (inject_Z (-1)) in H2.
    rewrite <- Zlt_Qlt in H1, H2. lia. }
  rewrite Hz. reflexivity.
Qed.

Lemma snapshots_of_slow_traffic (last : Psutil.snetio) (readings : list Psutil.t) :
  traffic_within 5242 last readings ->
  sum (map bandwidth_of (snapshots last readings)) == 0.
Proof.
  revert last. induction readings as [|p readings IH]; intros last H.
  - reflexivity.
  - cbn [traffic_within] in H. destruct H as [Hp H].
    cbn [snapshots map]. rewrite sum_cons, (IH _ H), snapshot_bandwidth.
    set (d := (total_bytes (Psutil.net_io_counters p) - total_bytes last)%Z) in *.
    rewrite round2_small; [ring | |].
    + assert (E : inject_Z (-5242) <= inject_Z d) by (rewrite <- Zle_Qle; lia).
      apply Qlt_shift_div_l; [reflexivity|].
      eapply Qlt_le_trans; [|exact E]. reflexivity.
    + assert (E : inject_Z d <= inject_Z 5242) by (rewrite <- Zle_Qle; lia).
      apply Qlt_shift_div_r; [reflexivity|].
      eapply Qle_lt_trans; [exact E|]. reflexivity.
Qed.

(** X15.  Slow traffic is never counted.  When every call sees at most 5242 bytes
    of new traffic (sent and received together), each snapshot rounds its
    bandwidth to 0.00 and [bandwidth_total] stays 0 however long the run
    lasts, although up to 5242 bytes per reading went through. *)
Theorem slow_traffic_is_not_counted (k : nat) (readings : list Psutil.t)
  (start : Psutil.snetio) :
  (0 < k)%nat ->
  Forall (fun p => length (Psutil.cpu_percent p) = k) readings ->
  traffic_within 5242 start readings ->
  exists st,
    monitor_sampling_loop readings (mkSampler init start) = (st, Ok tt) /\
    bandwidth_total (monitor st) == 0 /\
    Forall (fun snap => bandwidth_of snap == 0) (snapshots start readings).
Proof.
  intros Hk Hall Hslow.
  destruct (feed_returns k (snapshots start readings) init Hk
              (snapshots_cores k start readings Hall) (or_introl eq_refl)) as [s Hs].
  destruct (feed_counters _ init s Hs) as (_ & Hb & _).
  exists (mkSampler s (final_net start readings)).
  split; [apply monitor_sampling_loop_feed; exact Hs|].
  cbn [monitor]. split.
  - rewrite Hb, (snapshots_of_slow_traffic start readings Hslow). reflexivity.
  - clear -Hslow. revert start Hslow.
    induction readings as [|p readings IH]; intros start H; cbn [snapshots].
    + constructor.
    + cbn [traffic_within] in H. destruct H as [Hp H].
      constructor; [|apply IH; exact H].
      pose proof (snapshots_of_slow_traffic start [p]) as S.
      cbn [snapshots map traffic_within] in S.
      rewrite sum_cons in S. unfold sum at 1 in S. cbn [fold_left] in S.
      rewrite <- (S (conj Hp I)). ring.
Qed.

Lemma slow_traffic_is_not_counted_witness :
  exists st,
    monitor_sampling_loop trickle (mkSampler init (Psutil.mk_net 0 0)) = (st, Ok tt) /\
    bandwidth_total (monitor st) == 0 /\
    Forall (fun snap => bandwidth_of snap == 0) (snapshots (Psutil.mk_net 0 0) trickle).
Proof.
  apply (slow_traffic_is_not_counted 2 trickle (Psutil.mk_net 0 0)).
  - lia.
  - repeat constructor.
  - cbn. repeat split; lia.
Defined.

(** ** The queries and the HTTP handler *)

Lemma push_to_file_resets (os : Os) (w : World) :
  sample_count (self w) <> 0%nat -> self (fst (push_to_file os w)) = init.
Proof.
  intros Hn. rewrite (push_to_file_run os w Hn).
  destruct (merge_or_append _ _) as [data|e]; [|reflexivity].
  rewrite rollups_keep_self. reflexivity.
Qed.

Lemma comprehension_raise_inv {A B} (f : A -> result B) (l : list A) (e : exn) :
  comprehension f l = Raise e -> exists x, In x l /\ f x = Raise e.
Proof.
  induction l as [|x l IH]; intros H; cbn [comprehension] in H; [discriminate|].
  destruct (f x) as [y|e0] eqn:Hx; cbn [rbind] in H.
  - destruct (comprehension f l) as [ys|e1]; cbn [rbind] in H; [discriminate|].
    injection H as ->. destruct (IH eq_refl) as [x' [Hin Hx']].
    exists x'. split; [right; exact Hin | exact Hx'].
  - injection H as ->. exists x. split; [left; reflexivity | exact Hx].
Qed.

Lemma comprehension_skipn {A B} (f : A -> result B) (k : nat) (l : list A) (out : list B) :
  comprehension f l = Ok out -> comprehension f (skipn k l) = Ok (skipn k out).
Proof.
  revert l out. induction k as [|k IH]; intros l out H; [exact H|].
  destruct l as [|x l]; cbn [comprehension] in H.
  - injection H as <-. reflexivity.
  - destruct (f x) as [y|e]; cbn [rbind] in H; [|discriminate].
    destruct (comprehension f l) as [ys|e] eqn:Hl; cbn [rbind] in H; [|discriminate].
    injection H as <-. cbn [skipn]. apply IH. exact Hl.
Qed.

Lemma last_n_last_n {A} (a b : nat) (l : list A) :
  (0 < a <= b)%nat -> last_n a (last_n b l) = last_n a l.
Proof.
  intros [Ha Hab]. unfold last_n.
  destruct a as [|a]; [lia|]. destruct b as [|b]; [lia|].
  rewrite skipn_skipn, length_skipn. f_equal. lia.
Qed.

Lemma comprehension_last_n {A B} (f : A -> result B) (a b : nat) (l : list A)
  (out : list B) :
  (0 < a <= b)%nat ->
  comprehension f (last_n b l) = Ok out ->
  comprehension f (last_n a l) = Ok (last_n a out).
Proof.
  intros Hab H. rewrite <- (last_n_last_n a b l Hab).
  pose proof (comprehension_length _ _ _ H) as Hlen.
  unfold last_n at 1 3. destruct a as [|a]; [lia|].
  rewrite <- Hlen. apply comprehension_skipn. exact H.
Qed.

Lemma fromisoformat_raises (s : string) (e : exn) :
  DateTime.fromisoformat s = Raise e -> e = ValueError.
Proof.
  unfold DateTime.fromisoformat. destruct (DateTime.parse s); congruence.
Qed.

Section Served.

Variable tzinfo : Type.
Variable pytz_timezone : string -> option tzinfo.
Variable astimezone_strftime : tzinfo -> string -> DateTime.t -> string.

Let to_zone := localize tzinfo pytz_timezone astimezone_strftime.
Let query_1h := _get_1h_monitor_records tzinfo pytz_timezone astimezone_strftime.
Let query_1day := _get_1day_monitor_records tzinfo pytz_timezone astimezone_strftime.
Let http := handle_http tzinfo pytz_timezone astimezone_strftime.

Lemma localize_same_figures (fmt tz : string) (records out : list AggregateRecord) :
  to_zone fmt tz records = Ok out ->
  exists client_tz,
    pytz_timezone tz = Some client_tz /\
    Forall2 (fun r o =>
               same_figures r o /\
               exists dt, DateTime.fromisoformat (datetime r) = Ok dt /\
                          datetime o = astimezone_strftime client_tz fmt dt)
            records out.
Proof.
  unfold to_zone, localize. destruct (pytz_timezone tz) as [client_tz|]; [|discriminate].
  intros H. exists client_tz. split; [reflexivity|].
  apply comprehension_Forall2 in H.
  eapply Forall2_impl; [|exact H].
  intros r o Hr. cbv beta in Hr.
  destruct (DateTime.fromisoformat (datetime r)) as [dt|e]; cbn [rbind] in Hr; [|discriminate].
  injection Hr as <-. split; [repeat split|]. exists dt. split; reflexivity.
Qed.

Lemma localize_length (fmt tz : string) (records out : list AggregateRecord) :
  to_zone fmt tz records = Ok out -> length out = length records.
Proof.
  unfold to_zone, localize. destruct (pytz_timezone tz); [|discriminate].
  apply comprehension_length.
Qed.

Lemma localize_last_n (fmt tz : string) (a b : nat) (l out : list AggregateRecord) :
  (0 < a <= b)%nat ->
  to_zone fmt tz (last_n b l) = Ok out ->
  to_zone fmt tz (last_n a l) = Ok (last_n a out).
Proof.
  unfold to_zone, localize. destruct (pytz_timezone tz); [|discriminate].
  apply comprehension_last_n.
Qed.

Lemma localize_unreadable (fmt tz : string) (client_tz : tzinfo)
  (records : list AggregateRecord) (r : AggregateRecord) :
  pytz_timezone tz = Some client_tz ->
  In r records ->
  DateTime.fromisoformat (datetime r) = Raise ValueError ->
  to_zone fmt tz records = Raise ValueError.
Proof.
  intros Hz Hin Hr. unfold to_zone, localize. rewrite Hz.
  match goal with
  | |- comprehension ?f ?l = _ =>
      destruct (comprehension_raises_in f ValueError r l Hin) as [e He]
  end.
  { rewrite Hr. reflexivity. }
  rewrite He. f_equal.
  apply comprehension_raise_inv in He. destruct He as (x & _ & Hx). cbv beta in Hx.
  destruct (DateTime.fromisoformat (datetime x)) as [dt|e0] eqn:Hp; cbn [rbind] in Hx;
    [discriminate|].
  injection Hx as <-. apply (fromisoformat_raises _ _ Hp).
Qed.

(** What the three queries leave and return when they return. *)
Lemma hourly_query_returns (os : Os) (tz : string) (n : nat) (w w' : World)
  (out : list AggregateRecord) :
  query_1h os tz n w = (w', Ok out) ->
  (monitor_1h_json w <> None -> w' = w) /\
  exists hourly,
    monitor_1h_json w' = Some hourly /\
    to_zone "%m-%d %Hh" tz (last_n n hourly) = Ok out.
Proof.
  unfold query_1h, _get_1h_monitor_records, bind, get, lift, ret, raise. cbv beta iota.
  destruct (monitor_1h_json w) as [l|] eqn:Hf; cbv beta iota.
  - rewrite Hf. intros H. injection H as <- H.
    split; [reflexivity|]. exists l. split; [exact Hf | exact H].
  - destruct (push_to_file os w) as [w1 [[]|e]]; cbv beta iota; [|discriminate].
    destruct (monitor_1h_json w1) as [l|] eqn:Hf1; [|discriminate].
    intros H. injection H as <- H.
    split; [congruence|]. exists l. split; [exact Hf1 | exact H].
Qed.

Lemma daily_query_returns (tz : string) (n : nat) (w w' : World)
  (out : list AggregateRecord) :
  query_1day tz n w = (w', Ok out) ->
  w' = w /\
  exists daily,
    monitor_1day_json w = Some daily /\
    to_zone "%Y-%m-%d" tz (last_n n daily) = Ok out.
Proof.
  unfold query_1day, _get_1day_monitor_records, bind, get, lift, raise. cbv beta iota.
  destruct (monitor_1day_json w) as [l|] eqn:Hf; [|discriminate].
  intros H. injection H as <- H. split; [reflexivity|]. exists l. split; [reflexivity | exact H].
Qed.

Lemma monthly_query_returns (n : nat) (w w' : World) (out : list AggregateRecord) :
  _get_1month_monitor_records n w = (w', Ok out) ->
  w' = w /\ exists monthly, monitor_1month_json w = Some monthly /\ out = last_n n monthly.
Proof.
  unfold _get_1month_monitor_records, bind, get, ret, raise. cbv beta iota.
  destruct (monitor_1month_json w) as [l|] eqn:Hf; [|discriminate].
  intros H. injection H as <- <-. split; [reflexivity|]. exists l. split; reflexivity.
Qed.

(** X16.  A query for the hourly series flushes the accumulator when the hourly
    file does not exist.  With samples in the accumulator and no hourly
    file, [_get_1h_monitor_records] runs [push_to_file] first: whatever the
    query then returns or raises, the accumulator is back to its initial
    state and the hourly file holds the flushed record alone. *)
Theorem hourly_query_flushes_accumulator (os : Os) (tz : string) (n : nat) (w : World) :
  monitor_1h_json w = None ->
  sample_count (self w) <> 0%nat ->
  self (fst (query_1h os tz n w)) = init /\
  monitor_1h_json (fst (query_1h os tz n w)) = Some [finalize os (self w)].
Proof.
  intros Hf Hn.
  pose proof (push_to_file_resets os w Hn) as Hs.
  pose proof (push_to_file_hourly os w [finalize os (self w)] Hn) as Hh.
  rewrite Hf in Hh. specialize (Hh eq_refl).
  change (to_write [finalize os (self w)]) with [finalize os (self w)] in Hh.
  unfold query_1h, _get_1h_monitor_records, bind, get, lift, ret, raise. cbv beta iota.
  rewrite Hf.
  destruct (push_to_file os w) as [w1 [[]|e]]; cbn [fst] in Hs, Hh |- *; cbv beta iota.
  - rewrite Hh. cbn [fst]. split; assumption.
  - split; assumption.
Qed.

(** X17.  The responses to a request that cannot be served.  In each case no file
    and no attribute of the monitor changes.
    - No hourly file and no samples: status 500 ([FileNotFoundError]), and
      the access log shows 200.
    - An hourly file and an unknown timezone name: status 404 with the
      message "Invalid Timezone: <name>".
    - An hourly file whose last 24 records convert, and no daily file:
      status 404 with the message "No Data".
    - An hourly file with, among its last 24 records, a datetime that
      [fromisoformat] rejects: status 500 ([ValueError]), logged as 200. *)
Theorem handle_http_errors (os : Os) (tz : string) (w : World) :
  (monitor_1h_json w = None -> sample_count (self w) = 0%nat ->
   http os tz w = (w, mkHandled (mkResponse 500 (Error FileNotFoundError)) 200)) /\
  (forall hourly,
      monitor_1h_json w = Some hourly -> pytz_timezone tz = None ->
      http os tz w
      = (w, mkHandled
              (mkResponse 404 (Error (ClientException ("Invalid Timezone: " ++ tz)%string)))
              404)) /\
  (forall hourly shown,
      monitor_1h_json w = Some hourly ->
      to_zone "%m-%d %Hh" tz (last_n 24 hourly) = Ok shown ->
      monitor_1day_json w = None ->
      http os tz w
      = (w, mkHandled (mkResponse 404 (Error (ClientException "No Data"))) 404)) /\
  (forall hourly client_tz r,
      monitor_1h_json w = Some hourly -> pytz_timezone tz = Some client_tz ->
      In r (last_n 24 hourly) ->
      DateTime.fromisoformat (datetime r) = Raise ValueError ->
      http os tz w = (w, mkHandled (mkResponse 500 (Error ValueError)) 200)).
Proof.
  split; [|split; [|split]].
  - intros Hf Hn.
    pose proof (push_to_file_empty os w Hn) as Hp.
    unfold http, handle_http, collect, bind at 1, get_last_24h_monitor_data,
      _get_1h_monitor_records, bind, get, raise.
    cbv beta iota. rewrite Hf, Hp. cbv beta iota. rewrite Hf. reflexivity.
  - intros hourly Hf Hz.
    unfold http, handle_http, collect, bind at 1, get_last_24h_monitor_data,
      _get_1h_monitor_records, bind, get, lift, ret, localize.
    cbv beta iota. rewrite Hf. cbv beta iota. rewrite Hf, Hz. reflexivity.
  - intros hourly shown Hf Hshow Hd.
    unfold http, handle_http, collect, bind at 1, get_last_24h_monitor_data,
      _get_1h_monitor_records, bind at 1 2 3, get, lift, ret.
    cbv beta iota. rewrite Hf. cbv beta iota. rewrite Hf.
    unfold to_zone in Hshow. rewrite Hshow.
    unfold bind at 1, get_last_7days_monitor_data, _get_1day_monitor_records, bind at 1,
      get, raise.
    cbv beta iota. rewrite Hd. reflexivity.
  - intros hourly client_tz r Hf Hz Hin Hr.
    pose proof (localize_unreadable "%m-%d %Hh" tz client_tz _ r Hz Hin Hr) as Hl.
    unfold http, handle_http, collect, bind at 1, get_last_24h_monitor_data,
      _get_1h_monitor_records, bind at 1 2 3, get, lift, ret.
    cbv beta iota. rewrite Hf. cbv beta iota. rewrite Hf.
    unfold to_zone in Hl. rewrite Hl. reflexivity.
Qed.

(** X18.  What a response with status 200 carries.  The access log shows 200 as
    well; when the hourly file existed, nothing has changed.  The four lists
    hold at most 24, 7, 30 and 12 records; ["1_week"] is the end of
    ["30_days"]; ["1_day"] and ["30_days"] are the last records of the
    hourly and daily files with every figure as stored (only the datetime is
    rewritten), and ["12_months"] is the end of the monthly file as stored. *)
Theorem handle_http_payload (os : Os) (tz : string) (w : World) :
  status (response (snd (http os tz w))) = 200%nat ->
  exists p hourly daily monthly,
    snd (http os tz w) = mkHandled (mkResponse 200 (Payload p)) 200 /\
    (monitor_1h_json w <> None -> fst (http os tz w) = w) /\
    monitor_1h_json (fst (http os tz w)) = Some hourly /\
    monitor_1day_json (fst (http os tz w)) = Some daily /\
    monitor_1month_json (fst (http os tz w)) = Some monthly /\
    (length (one_day p) <= 24 /\ length (one_week p) <= 7 /\
     length (thirty_days p) <= 30 /\ length (twelve_months p) <= 12)%nat /\
    one_week p = last_n 7 (thirty_days p) /\
    Forall2 same_figures (last_n 24 hourly) (one_day p) /\
    Forall2 same_figures (last_n 30 daily) (thirty_days p) /\
    twelve_months p = last_n 12 monthly.
Proof.
  unfold http, handle_http.
  destruct (collect tzinfo pytz_timezone astimezone_strftime os tz w) as [w' [p|e]] eqn:Hc.
  2:{ destruct e; cbn; discriminate. }
  intros _. cbn [fst snd].
  unfold collect, bind at 1 in Hc.
  destruct (get_last_24h_monitor_data _ _ _ os tz w) as [w1 [m24|e]] eqn:H24;
    [|discriminate].
  unfold bind at 1 in Hc.
  destruct (get_last_7days_monitor_data _ _ _ tz w1) as [w2 [m7|e]] eqn:H7; [|discriminate].
  unfold bind at 1 in Hc.
  destruct (get_last_30days_monitor_data _ _ _ tz w2) as [w3 [m30|e]] eqn:H30;
    [|discriminate].
  unfold bind at 1 in Hc.
  destruct (get_last_12months_monitor_data w3) as [w4 [m12|e]] eqn:H12; [|discriminate].
  unfold ret in Hc. injection Hc as <- <-.
  destruct (hourly_query_returns _ _ _ _ _ _ H24) as [Hsame (hourly & Hh & L24)].
  destruct (daily_query_returns _ _ _ _ _ H7) as [-> (daily & Hd & L7)].
  destruct (daily_query_returns _ _ _ _ _ H30) as [-> (daily' & Hd' & L30)].
  destruct (monthly_query_returns _ _ _ _ H12) as [-> (monthly & Hm & ->)].
  rewrite Hd in Hd'. injection Hd' as <-.
  exists {| one_day := m24; one_week := m7; thirty_days := m30;
            twelve_months := last_n 12 monthly |}, hourly, daily, monthly.
  cbn [one_day one_week thirty_days twelve_months].
  split; [reflexivity|].
  split; [exact Hsame|].
  split; [exact Hh|]. split; [exact Hd|]. split; [exact Hm|].
  split.
  { rewrite (localize_length _ _ _ _ L24), (localize_length _ _ _ _ L7),
      (localize_length _ _ _ _ L30).
    rewrite !last_n_length by lia. lia. }
  split.
  { pose proof (localize_last_n "%Y-%m-%d" tz 7 30 daily m30 ltac:(lia) L30) as L7'.
    rewrite L7 in L7'. injection L7' as ->. reflexivity. }
  split.
  { destruct (localize_same_figures _ _ _ _ L24) as (c & _ & F).
    eapply Forall2_impl; [|exact F]. intros a b [H _]. exact H. }
  split; [|reflexivity].
  destruct (localize_same_figures _ _ _ _ L30) as (c & _ & F).
  eapply Forall2_impl; [|exact F]. intros a b [H _]. exact H.
Qed.

End Served.

Lemma hourly_query_flushes_accumulator_witness :
  self (fst (_get_1h_monitor_records unit two_zones keep_stored sample_os "UTC" 24
               (no_files (fst (feed three_samples init))))) = init /\
  monitor_1h_json
    (fst (_get_1h_monitor_records unit two_zones keep_stored sample_os "UTC" 24
            (no_files (fst (feed three_samples init)))))
  = Some [finalize sample_os (self (no_files (fst (feed three_samples init))))].
Proof.
  apply (hourly_query_flushes_accumulator unit two_zones keep_stored sample_os "UTC" 24
           (no_files (fst (feed three_samples init)))).
  - reflexivity.
  - vm_compute. discriminate.
Defined.

Lemma handle_http_errors_witness :
  handle_http unit two_zones keep_stored sample_os "UTC" (no_files init)
  = (no_files init, mkHandled (mkResponse 500 (Error FileNotFoundError)) 200) /\
  handle_http unit two_zones keep_stored sample_os "Not/AZone" served_world
  = (served_world,
     mkHandled (mkResponse 404 (Error (ClientException "Invalid Timezone: Not/AZone"))) 404) /\
  handle_http unit two_zones keep_stored sample_os "UTC" (mkWorld init (Some day2) None None)
  = (mkWorld init (Some day2) None None,
     mkHandled (mkResponse 404 (Error (ClientException "No Data"))) 404) /\
  handle_http unit two_zones keep_stored sample_os "UTC"
    (mkWorld init (Some [small_host; unreadable_record]) None None)
  = (mkWorld init (Some [small_host; unreadable_record]) None None,
     mkHandled (mkResponse 500 (Error ValueError)) 200).
Proof.
  split; [|split; [|split]].
  - apply (proj1 (handle_http_errors unit two_zones keep_stored sample_os "UTC"
                    (no_files init))); reflexivity.
  - apply (proj1 (proj2 (handle_http_errors unit two_zones keep_stored sample_os
                           "Not/AZone" served_world)) day2); reflexivity.
  - eapply (proj1 (proj2 (proj2 (handle_http_errors unit two_zones keep_stored sample_os
                                   "UTC" (mkWorld init (Some day2) None None)))) day2).
    + reflexivity.
    + vm_compute. reflexivity.
    + reflexivity.
  - apply (proj2 (proj2 (proj2 (handle_http_errors unit two_zones keep_stored sample_os
                                  "UTC"
                                  (mkWorld init (Some [small_host; unreadable_record])
                                           None None))))
             [small_host; unreadable_record] tt unreadable_record).
    + reflexivity.
    + reflexivity.
    + right. left. reflexivity.
    + vm_compute. reflexivity.
Defined.

Lemma handle_http_payload_witness :
  exists p hourly daily monthly,
    snd (handle_http unit two_zones keep_stored sample_os "UTC" served_world)
    = mkHandled (mkResponse 200 (Payload p)) 200 /\
    (monitor_1h_json served_world <> None ->
     fst (handle_http unit two_zones keep_stored sample_os "UTC" served_world)
     = served_world) /\
    monitor_1h_json (fst (handle_http unit two_zones keep_stored sample_os "UTC" served_world))
    = Some hourly /\
    monitor_1day_json (fst (handle_http unit two_zones keep_stored sample_os "UTC" served_world))
    = Some daily /\
    monitor_1month_json
      (fst (handle_http unit two_zones keep_stored sample_os "UTC" served_world))
    = Some monthly /\
    (length (one_day p) <= 24 /\ length (one_week p) <= 7 /\
     length (thirty_days p) <= 30 /\ length (twelve_months p) <= 12)%nat /\
    one_week p = last_n 7 (thirty_days p) /\
    Forall2 same_figures (last_n 24 hourly) (one_day p) /\
    Forall2 same_figures (last_n 30 daily) (thirty_days p) /\
    twelve_months p = last_n 12 monthly.
Proof.
  apply (handle_http_payload unit two_zones keep_stored sample_os "UTC" served_world).
  vm_compute. reflexivity.
Defined.

(** ** The first flush of a fresh installation *)

Lemma digit_value (c : ascii) (d : nat) :
  DateTime.digit c = Some d -> (d < 10)%nat /\ DateTime.digit_char d = c.
Proof.
  unfold DateTime.digit, DateTime.digit_char. cbv zeta.
  destruct ((48 <=? nat_of_ascii c) && (nat_of_ascii c <=? 57))%nat eqn:E; [|discriminate].
  apply andb_prop in E. destruct E as [E1 E2].
  apply Nat.leb_le in E1, E2. intros H. injection H as <-.
  split; [lia|].
  rewrite Nat.mod_small by lia.
  replace (48 + (nat_of_ascii c - 48))%nat with (nat_of_ascii c) by lia.
  apply ascii_nat_embedding.
Qed.

Lemma div_mod_digit (q d : nat) :
  (d < 10)%nat -> ((10 * q + d) / 10 = q /\ (10 * q + d) mod 10 = d)%nat.
Proof.
  intros H. split.
  - symmetry. apply (Nat.div_unique _ 10 q d); lia.
  - symmetry. apply (Nat.mod_unique _ 10 q d); lia.
Qed.

Lemma digit_char_mod (n : nat) : DateTime.digit_char (n mod 10) = DateTime.digit_char n.
Proof.
  unfold DateTime.digit_char. rewrite Nat.Div0.mod_mod. reflexivity.
Qed.

Lemma pad2_digits (c1 c2 : ascii) (d1 d2 : nat) :
  DateTime.digit c1 = Some d1 -> DateTime.digit c2 = Some d2 ->
  DateTime.pad2 (10 * (10 * 0 + d1) + d2) = String c1 (String c2 EmptyString).
Proof.
  intros H1 H2.
  destruct (digit_value _ _ H1) as [L1 C1]. destruct (digit_value _ _ H2) as [L2 C2].
  unfold DateTime.pad2.
  destruct (div_mod_digit (10 * 0 + d1) d2 L2) as [E2 M2].
  rewrite E2.
  rewrite <- (digit_char_mod (10 * (10 * 0 + d1) + d2)), M2.
  replace (10 * 0 + d1)%nat with d1 by lia.
  rewrite C1, C2. reflexivity.
Qed.

Lemma pad4_digits (c1 c2 c3 c4 : ascii) (d1 d2 d3 d4 : nat) :
  DateTime.digit c1 = Some d1 -> DateTime.digit c2 = Some d2 ->
  DateTime.digit c3 = Some d3 -> DateTime.digit c4 = Some d4 ->
  DateTime.pad4 (10 * (10 * (10 * (10 * 0 + d1) + d2) + d3) + d4)
  = String c1 (String c2 (String c3 (String c4 EmptyString))).
Proof.
  intros H1 H2 H3 H4.
  destruct (digit_value _ _ H1) as [L1 C1]. destruct (digit_value _ _ H2) as [L2 C2].
  destruct (digit_value _ _ H3) as [L3 C3]. destruct (digit_value _ _ H4) as [L4 C4].
  set (a := (10 * 0 + d1)%nat). set (b := (10 * a + d2)%nat). set (c := (10 * b + d3)%nat).
  destruct (div_mod_digit c d4 L4) as [E4 M4].
  destruct (div_mod_digit b d3 L3) as [E3 M3].
  destruct (div_mod_digit a d2 L2) as [E2 M2].
  fold b in E2, M2. fold c in E3, M3.
  assert (D100 : ((10 * c + d4) / 100 = b)%nat).
  { change 100%nat with (10 * 10)%nat. rewrite <- Nat.Div0.div_div, E4. exact E3. }
  assert (D1000 : ((10 * c + d4) / 1000 = a)%nat).
  { change 1000%nat with (100 * 10)%nat. rewrite <- Nat.Div0.div_div, D100. exact E2. }
  unfold DateTime.pad4, DateTime.pad2. rewrite D1000, D100, E4.
  rewrite <- (digit_char_mod b), <- (digit_char_mod c), <- (digit_char_mod (10 * c + d4)).
  rewrite M2, M3, M4.
  replace a with d1 by (unfold a; lia).
  rewrite C1, C2, C3, C4. reflexivity.
Qed.

(** The date that [fromisoformat] reads is the one the string starts with:
    formatting it with [%Y-%m-%d] gives the first ten characters back, and
    those parse to the same date at midnight. *)
Lemma parse_date_prefix (s : string) (dt : DateTime.t) :
  DateTime.parse s = Some dt ->
  substring 0 10 s = DateTime.strftime_Ymd dt /\
  DateTime.parse (DateTime.strftime_Ymd dt)
  = Some (DateTime.mk (DateTime.year dt) (DateTime.month dt) (DateTime.day dt) 0 "").
Proof.
  unfold DateTime.parse at 1. intros H.
  destruct s as [|c1 s]; cbn [DateTime.digits] in H; [discriminate|].
  destruct (DateTime.digit c1) as [d1|] eqn:E1; [|discriminate].
  destruct s as [|c2 s]; cbn [DateTime.digits] in H; [discriminate|].
  destruct (DateTime.digit c2) as [d2|] eqn:E2; [|discriminate].
  destruct s as [|c3 s]; cbn [DateTime.digits] in H; [discriminate|].
  destruct (DateTime.digit c3) as [d3|] eqn:E3; [|discriminate].
  destruct s as [|c4 s]; cbn [DateTime.digits] in H; [discriminate|].
  destruct (DateTime.digit c4) as [d4|] eqn:E4; [|discriminate].
  destruct s as [|c5 s]; cbn [DateTime.expect] in H; [discriminate|].
  destruct (Ascii.eqb_spec "-" c5) as [<-|_]; [|discriminate].
  destruct s as [|c6 s]; cbn [DateTime.digits] in H; [discriminate|].
  destruct (DateTime.digit c6) as [d6|] eqn:E6; [|discriminate].
  destruct s as [|c7 s]; cbn [DateTime.digits] in H; [discriminate|].
  destruct (DateTime.digit c7) as [d7|] eqn:E7; [|discriminate].
  destruct s as [|c8 s]; cbn [DateTime.expect] in H; [discriminate|].
  destruct (Ascii.eqb_spec "-" c8) as [<-|_]; [|discriminate].
  destruct s as [|c9 s]; cbn [DateTime.digits] in H; [discriminate|].
  destruct (DateTime.digit c9) as [d9|] eqn:E9; [|discriminate].
  destruct s as [|c10 s]; cbn [DateTime.digits] in H; [discriminate|].
  destruct (DateTime.digit c10) as [d10|] eqn:E10; [|discriminate].
  set (y := (10 * (10 * (10 * (10 * 0 + d1) + d2) + d3) + d4)%nat) in *.
  set (m := (10 * (10 * 0 + d6) + d7)%nat) in *.
  set (d := (10 * (10 * 0 + d9) + d10)%nat) in *.
  destruct ((1 <=? y) && (1 <=? m) && (m <=? 12) && (1 <=? d)
            && (d <=? DateTime.days_in_month y m))%nat eqn:C; [|discriminate].
  assert (Hdate : DateTime.year dt = y /\ DateTime.month dt = m /\ DateTime.day dt = d).
  { destruct s as [|c11 s].
    - injection H as <-. repeat split.
    - repeat match type of H with
             | match ?x with _ => _ end = _ => destruct x; try discriminate
             end.
      injection H as <-. repeat split. }
  destruct Hdate as (Hy & Hm & Hd).
  assert (Hfmt : DateTime.strftime_Ymd dt
                 = String c1 (String c2 (String c3 (String c4 (String "-"
                     (String c6 (String c7 (String "-"
                        (String c9 (String c10 EmptyString)))))))))).
  { unfold DateTime.strftime_Ymd. rewrite Hy, Hm, Hd. unfold y, m, d.
    rewrite (pad4_digits c1 c2 c3 c4 d1 d2 d3 d4 E1 E2 E3 E4).
    rewrite (pad2_digits c6 c7 d6 d7 E6 E7), (pad2_digits c9 c10 d9 d10 E9 E10).
    reflexivity. }
  split.
  - rewrite Hfmt. clear. destruct s; reflexivity.
  - rewrite Hfmt, Hy, Hm, Hd. unfold DateTime.parse.
    cbn [DateTime.digits]. rewrite E1, E2, E3, E4.
    cbn [DateTime.expect]. rewrite Ascii.eqb_refl.
    cbn [DateTime.digits]. rewrite E6, E7.
    cbn [DateTime.expect]. rewrite Ascii.eqb_refl.
    cbn [DateTime.digits]. rewrite E9, E10.
    fold y m d. rewrite C. reflexivity.
Qed.

Lemma round2_nonneg (q : Q) : 0 <= q -> 0 <= round2 q.
Proof.
  intros H. apply Qle_trans with (round2 0).
  - vm_compute. discriminate.
  - apply round2_monotone. exact H.
Qed.

(** What [get_and_reset_stats] returns is a rounded record. *)
Lemma finalize_rounded (os : Os) (s : Monitor) :
  0 <= disk_used s -> rounded_record (finalize os s).
Proof.
  intros Hd. constructor;
    unfold cores, cpu_total_of, ram_avg_of, ram_min_of, ram_max_of, disk_used_of,
      transfer_total_of, finalize;
    cbn [cpu ram disk bandwidth Cpu.cpu_per_core_avg Cpu.cpu_total_avg Ram.unit
         Ram.avg_used Ram.min_used Ram.max_used Disk.unit Disk.used
         Bandwidth.unit Bandwidth.transfer_total];
    try reflexivity; try (eexists; reflexivity).
  - apply Forall_forall. intros x Hx. apply in_map_iff in Hx.
    destruct Hx as (q & <- & _). eexists. reflexivity.
  - destruct (ram_min s); simpl; try exact I. eexists. reflexivity.
  - apply round2_nonneg. exact Hd.
Qed.

Lemma set_datetime_rounded (key : string) (r : AggregateRecord) :
  rounded_record r -> rounded_record (set_datetime key r).
Proof. intros [? ? ? ? ? ? ? ? ? ? ?]. constructor; assumption. Qed.

(** X19.  The first flush writes the three series at once.  With no file yet, an
    accumulator that holds samples and a clock reading that parses,
    [push_to_file] returns, resets the accumulator and leaves one record in
    each file: the flushed record in the hourly file, and the same figures
    under the date [%Y-%m-%d] in the daily file and under the month [%Y-%m]
    in the monthly file (a merge of one rounded record changes nothing;
    exact arithmetic). *)
Theorem first_flush_writes_three_series (os : Os) (s : Monitor) (dt : DateTime.t) :
  sample_count s <> 0%nat ->
  0 <= disk_used s ->
  DateTime.fromisoformat (utcnow_isoformat os) = Ok dt ->
  push_to_file os (no_files s)
  = (mkWorld init
       (Some [finalize os s])
       (Some [set_datetime (DateTime.strftime_Ymd dt) (finalize os s)])
       (Some [set_datetime (DateTime.strftime_Ym dt) (finalize os s)]),
     Ok tt).
Proof.
  intros Hn Hd Hp.
  pose proof (finalize_rounded os s Hd) as Hr.
  set (r := finalize os s) in *.
  assert (Hparse : DateTime.parse (utcnow_isoformat os) = Some dt).
  { unfold DateTime.fromisoformat in Hp.
    destruct (DateTime.parse (utcnow_isoformat os)); congruence. }
  destruct (parse_date_prefix _ _ Hparse) as [Hprefix Hagain].
  rewrite (push_to_file_run os (no_files s) Hn).
  cbn [no_files self monitor_1h_json load_or_empty merge_or_append app]. fold r.
  change (to_write [r]) with [r].
  unfold bind.
  set (w1 := write_1h [r] (reset_world (no_files s))).
  set (daily := set_datetime (DateTime.strftime_Ymd dt) r).
  assert (H1 : _push_to_file_1day w1 = (write_1day [daily] w1, Ok tt)).
  { apply (push_to_file_1day_single_date w1 (DateTime.strftime_Ymd dt) r daily []).
    - reflexivity.
    - reflexivity.
    - constructor; [|constructor]. exists dt. split; [exact Hp | reflexivity].
    - exact Hprefix.
    - apply merge_monitor_records_single. exact Hr. }
  rewrite H1.
  unfold _push_to_file_1month, bind, get, lift, modify. cbv beta iota.
  cbn [w1 write_1day write_1h reset_world no_files monitor_1day_json monitor_1month_json
       monitor_1h_json self load_or_empty].
  assert (Hdaily : DateTime.fromisoformat (datetime daily)
                   = Ok (DateTime.mk (DateTime.year dt) (DateTime.month dt)
                                     (DateTime.day dt) 0 "")).
  { unfold daily, set_datetime. cbn [datetime].
    unfold DateTime.fromisoformat. rewrite Hagain. reflexivity. }
  cbn [rfold]. rewrite Hdaily. cbn [rbind setdefault_append fold_left values map snd
                                     comprehension getitem nth_error].
  rewrite Hdaily. cbn [rbind].
  change (DateTime.strftime_Ym
            (DateTime.mk (DateTime.year dt) (DateTime.month dt) (DateTime.day dt) 0 ""))
    with (DateTime.strftime_Ym dt).
  rewrite (merge_monitor_records_single daily (DateTime.strftime_Ym dt)
             (set_datetime_rounded _ _ Hr)).
  cbn [rbind]. reflexivity.
Qed.

Lemma first_flush_writes_three_series_witness :
  push_to_file sample_os (no_files (fst (feed three_samples init)))
  = (mkWorld init
       (Some [finalize sample_os (fst (feed three_samples init))])
       (Some [set_datetime "2025-01-02" (finalize sample_os (fst (feed three_samples init)))])
       (Some [set_datetime "2025-01" (finalize sample_os (fst (feed three_samples init)))]),
     Ok tt).
Proof.
  apply (first_flush_writes_three_series sample_os (fst (feed three_samples init))
           (DateTime.mk 2025 1 2 3 ":59:59.000001+00:00")).
  - vm_compute. discriminate.
  - vm_compute. discriminate.
  - vm_compute. reflexivity.
Defined.

(** ** When the rollups return *)

Lemma setdefault_append_groups (H P : AggregateRecord -> Prop) (key : string)
  (r : AggregateRecord) (d : dict (list AggregateRecord)) :
  P r -> H r \/ In key (keys d) ->
  groups_of H P d -> groups_of H P (setdefault_append key r d).
Proof.
  intros Hp. induction d as [|[k0 v] d IH]; intros Hk Hd k recs Hin;
    cbn [setdefault_append] in Hin.
  - destruct Hin as [E|[]]. injection E as <- <-.
    destruct Hk as [Hh|[]].
    exists r, []. split; [reflexivity|]. split; [exact Hh | repeat constructor; exact Hp].
  - destruct (String.eqb_spec k0 key) as [E|E].
    + destruct Hin as [E'|Hin]; [|apply (Hd k recs); right; exact Hin].
      injection E' as <- <-.
      destruct (Hd k0 v (or_introl eq_refl)) as (first & rest & -> & Hh & Hall).
      exists first, (rest ++ [r]). split; [reflexivity|]. split; [exact Hh|].
      change (first :: rest ++ [r]) with ((first :: rest) ++ [r]).
      apply Forall_app. split; [exact Hall | repeat constructor; exact Hp].
    + destruct Hin as [E'|Hin]; [apply (Hd k recs); left; exact E'|].
      refine (IH _ _ k recs Hin).
      * destruct Hk as [Hh|[Hk|Hk]]; [left; exact Hh | cbn in Hk; congruence | right; exact Hk].
      * intros k' recs' Hin'. apply (Hd k' recs'). right. exact Hin'.
Qed.

Lemma group_loop_returns (fmt : DateTime.t -> string) (P : AggregateRecord -> Prop)
  (data : list AggregateRecord) (d : dict (list AggregateRecord)) :
  Forall readable data -> Forall P data ->
  groups_of readable P d ->
  exists d',
    rfold (fun d r =>
             (dt <~ DateTime.fromisoformat (datetime r) ;;
              Ok (setdefault_append (fmt dt) r d))%py) data d = Ok d' /\
    groups_of readable P d' /\
    (forall k, In k (keys d) -> In k (keys d')) /\
    forall r dt, In r data -> DateTime.fromisoformat (datetime r) = Ok dt ->
                 In (fmt dt) (keys d').
Proof.
  revert d. induction data as [|r data IH]; intros d Hread Hp Hd; cbn [rfold].
  - exists d. split; [reflexivity|]. split; [exact Hd|].
    split; [intros k Hk; exact Hk | intros r dt []].
  - apply Forall_cons_iff in Hread. destruct Hread as [[dt Hdt] Hread].
    apply Forall_cons_iff in Hp. destruct Hp as [Hpr Hp].
    rewrite Hdt. cbn [rbind].
    destruct (IH (setdefault_append (fmt dt) r d) Hread Hp) as (d' & Hrun & Hg & Hmono & Hall).
    { apply setdefault_append_groups; [exact Hpr | left; exists dt; exact Hdt | exact Hd]. }
    exists d'. split; [exact Hrun|]. split; [exact Hg|]. split.
    + intros k Hk. apply Hmono. apply setdefault_append_keys. right. exact Hk.
    + intros r' dt' [<-|Hin] Hdt'.
      * rewrite Hdt in Hdt'. injection Hdt' as <-.
        apply Hmono. apply setdefault_append_keys. left. reflexivity.
      * apply (Hall r' dt' Hin Hdt').
Qed.

Lemma stored_loop_groups (H P : AggregateRecord -> Prop) (stored : list AggregateRecord)
  (d : dict (list AggregateRecord)) :
  Forall P stored ->
  Forall (fun r => H r \/ In (datetime r) (keys d)) stored ->
  groups_of H P d ->
  groups_of H P (fold_left (fun d r => setdefault_append (datetime r) r d) stored d).
Proof.
  revert d. induction stored as [|r stored IH]; intros d Hp Hk Hd; cbn [fold_left];
    [exact Hd|].
  apply Forall_cons_iff in Hp. destruct Hp as [Hpr Hp].
  apply Forall_cons_iff in Hk. destruct Hk as [Hkr Hk].
  apply IH; [exact Hp | | apply setdefault_append_groups; assumption].
  eapply Forall_impl; [|exact Hk].
  intros x [Hx|Hx]; [left; exact Hx | right].
  apply setdefault_append_keys. right. exact Hx.
Qed.

Lemma comprehension_returns {A B} (f : A -> result B) (l : list A) :
  (forall x, In x l -> exists y, f x = Ok y) -> exists out, comprehension f l = Ok out.
Proof.
  induction l as [|x l IH]; intros H; cbn [comprehension].
  - exists []. reflexivity.
  - destruct (H x (or_introl eq_refl)) as [y Hy]. rewrite Hy. cbn [rbind].
    destruct IH as [ys Hys]; [intros z Hz; apply H; right; exact Hz|].
    rewrite Hys. exists (y :: ys). reflexivity.
Qed.

Lemma merge_same_core_count (k : nat) (first : AggregateRecord)
  (rest : list AggregateRecord) (key : string) :
  Forall (fun r => length (cores r) = k) (first :: rest) ->
  exists m, _merge_monitor_records (first :: rest) key = Ok m.
Proof.
  intros Hall. eexists. apply merge_monitor_records_ok.
  unfold cores_fit. apply Forall_cons_iff in Hall. destruct Hall as [Hf Hall].
  constructor; [lia|].
  eapply Forall_impl; [|exact Hall]. intros r Hr. cbv beta in Hr. lia.
Qed.

(** X20.  When the daily rollup returns.  With a non-empty hourly file whose
    datetimes all parse and one core count in every record of the hourly file
    and of the daily file, [_push_to_file_1day] returns and replaces the
    daily file (it does not raise). *)
Theorem daily_rollup_returns (k : nat) (w : World) (hourly : list AggregateRecord) :
  monitor_1h_json w = Some hourly -> hourly <> [] ->
  Forall readable hourly ->
  Forall (fun r => length (cores r) = k) hourly ->
  Forall (fun r => length (cores r) = k) (load_or_empty (monitor_1day_json w)) ->
  exists l, _push_to_file_1day w = (write_1day l w, Ok tt).
Proof.
  intros Hf Hne Hread Hk Hstored.
  unfold _push_to_file_1day, bind, get, lift, modify, ret. cbv beta iota.
  rewrite Hf. destruct hourly as [|r hourly]; [congruence|]. cbv beta iota.
  destruct (group_loop_returns DateTime.strftime_Ymd (fun r => length (cores r) = k)
              (r :: hourly) [] Hread Hk) as (grouped & Hrun & Hg & _).
  { intros ? ? []. }
  rewrite Hrun. cbv beta iota.
  pose proof (stored_loop_groups (fun _ => True) (fun r => length (cores r) = k)
                (load_or_empty (monitor_1day_json w)) grouped Hstored) as Hfinal.
  match goal with
  | |- context [comprehension ?f ?l] => destruct (comprehension_returns f l) as [out Hout]
  end.
  - intros recs Hin. unfold values in Hin. apply in_map_iff in Hin.
    destruct Hin as ([key recs'] & E & Hin). cbn [snd] in E. subst recs'.
    destruct (Hfinal ltac:(apply Forall_forall; intros; left; exact I)
                ltac:(intros k0 recs0 Hin0; destruct (Hg k0 recs0 Hin0)
                        as (f0 & r0 & E0 & _ & Hall0);
                      exists f0, r0; split; [exact E0 | split; [exact I | exact Hall0]])
                key recs Hin) as (first & rest & -> & _ & Hall).
    cbn [getitem nth_error rbind].
    apply (merge_same_core_count k first rest _ Hall).
  - rewrite Hout. eexists. reflexivity.
Qed.

(** X21.  When the monthly rollup returns.  With a non-empty daily file whose
    datetimes all parse, one core count in every record of the daily file and
    of the monthly file, and every stored month being the month of some
    record of the daily file, [_push_to_file_1month] returns and replaces the
    monthly file. *)
Theorem monthly_rollup_returns (k : nat) (w : World) (days : list AggregateRecord) :
  monitor_1day_json w = Some days -> days <> [] ->
  Forall readable days ->
  Forall (fun r => length (cores r) = k) days ->
  Forall (fun r => length (cores r) = k) (load_or_empty (monitor_1month_json w)) ->
  Forall (month_of_some_day days) (load_or_empty (monitor_1month_json w)) ->
  exists l, _push_to_file_1month w = (write_1month l w, Ok tt).
Proof.
  intros Hf Hne Hread Hk Hstored Hmonths.
  unfold _push_to_file_1month, bind, get, lift, modify, ret. cbv beta iota.
  rewrite Hf. destruct days as [|r days]; [congruence|]. cbv beta iota.
  destruct (group_loop_returns DateTime.strftime_Ym (fun r => length (cores r) = k)
              (r :: days) [] Hread Hk) as (grouped & Hrun & Hg & _ & Hkeys).
  { intros ? ? []. }
  rewrite Hrun. cbv beta iota.
  assert (Hfinal : groups_of readable (fun r => length (cores r) = k)
                     (fold_left (fun d r => setdefault_append (datetime r) r d)
                                (load_or_empty (monitor_1month_json w)) grouped)).
  { apply stored_loop_groups; [exact Hstored | | exact Hg].
    eapply Forall_impl; [|exact Hmonths].
    intros x (d & dt & Hd & Hdt & <-). right. apply (Hkeys d dt Hd Hdt). }
  match goal with
  | |- context [comprehension ?f ?l] => destruct (comprehension_returns f l) as [out Hout]
  end.
  - intros recs Hin. unfold values in Hin. apply in_map_iff in Hin.
    destruct Hin as ([key recs'] & E & Hin). cbn [snd] in E. subst recs'.
    destruct (Hfinal key recs Hin) as (first & rest & -> & [dt Hdt] & Hall).
    cbn [getitem nth_error rbind]. rewrite Hdt. cbn [rbind].
    apply (merge_same_core_count k first rest _ Hall).
  - rewrite Hout. eexists. reflexivity.
Qed.

Lemma daily_rollup_returns_witness :
  exists l, _push_to_file_1day served_world = (write_1day l served_world, Ok tt).
Proof.
  apply (daily_rollup_returns 2 served_world day2).
  - reflexivity.
  - discriminate.
  - apply Forall_forall. intros r Hr.
    repeat (destruct Hr as [<-|Hr]; [eexists; vm_compute; reflexivity|]). destruct Hr.
  - apply Forall_forall. intros r Hr.
    repeat (destruct Hr as [<-|Hr]; [reflexivity|]). destruct Hr.
  - repeat constructor.
Defined.

Lemma monthly_rollup_returns_witness :
  exists l,
    _push_to_file_1month
      (mkWorld init None (Some [second_of_january]) (Some [unreadable_record]))
    = (write_1month l
         (mkWorld init None (Some [second_of_january]) (Some [unreadable_record])),
       Ok tt).
Proof.
  apply (monthly_rollup_returns 2
           (mkWorld init None (Some [second_of_january]) (Some [unreadable_record]))
           [second_of_january]).
  - reflexivity.
  - discriminate.
  - repeat constructor. eexists. vm_compute. reflexivity.
  - repeat constructor.
  - repeat constructor.
  - constructor; [|constructor].
    exists second_of_january, (DateTime.mk 2025 1 2 0 "").
    split; [left; reflexivity|]. split; vm_compute; reflexivity.
Defined.
